(** * pynet: the multi-channel VAE example and the model registry

    A shallow embedding of [examples/vae/multi_channels_vae.py] and of
    [pynet/models/__init__.py].

    - Python floats are IEEE-754 binary64 values ([spec_float] of the
      Standard Library, precision 53, [emax] 1024), Python integers are [Z].
    - numpy arrays and torch tensors are a shape and a row-major buffer of
      values; the element type of a tensor handed to [forward] is carried
      beside it, since the linear maps accept float32 only.
    - numpy's global random state is threaded explicitly through every
      function that seeds it or draws from it.
    - Exceptions are values of an enumeration carried by an error monad.
    - What the script delegates to numpy, torch and scikit-learn (the
      random generators, the SVD, the inner-product kernel, the column
      statistics of [StandardScaler], the model's forward pass and the
      optimizer) is an interface ([Backend], [Learner]) the definitions are
      parameterised by. *)

From Stdlib Require Import ZArith List Bool Lia.
From Stdlib Require Import Floats.SpecFloat.
From stdpp Require Import gmap strings.
Import ListNotations.

Set Warnings "-register-all".

#[local] Open Scope Z_scope.

(** ** Python floats: binary64 *)

Module F64.

Definition prec : Z := 53.
Definition emax : Z := 1024.

Abbreviation float := spec_float.

Definition add : float -> float -> float := SFadd prec emax.
Definition sub : float -> float -> float := SFsub prec emax.
Definition mul : float -> float -> float := SFmul prec emax.
Definition div : float -> float -> float := SFdiv prec emax.
Definition sqrt : float -> float := SFsqrt prec emax.
Definition ltb : float -> float -> bool := SFltb.
Definition leb : float -> float -> bool := SFleb.

(** [float(n)] for a Python integer: round to nearest, ties to even. *)
Definition of_Z (n : Z) : float := binary_normalize prec emax n 0 false.

Definition zero : float := S754_zero false.
Definition one : float := Eval vm_compute in of_Z 1.
(** The literal [1e8] is the integer 10^8, exactly representable. *)
Definition f1e8 : float := Eval vm_compute in of_Z 100000000.

Definition is_nan (x : float) : bool :=
  match x with S754_nan => true | _ => false end.

Definition is_zero (x : float) : bool :=
  match x with S754_zero _ => true | _ => false end.

Definition is_inf (x : float) : bool :=
  match x with S754_infinity _ => true | _ => false end.

(** Truncation toward zero of a finite value, as [int(x)] computes it. *)
Definition trunc (x : float) : option Z :=
  match x with
  | S754_zero _ => Some 0
  | S754_finite s m e =>
      let a := match e with
               | Zneg p => Z.shiftr (Zpos m) (Zpos p)
               | _ => Z.shiftl (Zpos m) e
               end in
      Some (if s then - a else a)
  | _ => None
  end.

(** binary32, the element type of [torch.FloatTensor]. *)
Definition prec32 : Z := 24.
Definition emax32 : Z := 128.

(** Conversion of a binary64 value to binary32 (round to nearest even). *)
Definition to_f32 (x : float) : float :=
  match x with
  | S754_finite s m e => binary_round prec32 emax32 s m e
  | _ => x
  end.

End F64.

Import F64.

(** ** Python values, exceptions and the error monad *)

Module Py.

Inductive exn :=
  | AssertionError | IndexError | ValueError | ZeroDivisionError
  | OverflowError | RuntimeError | UnboundLocalError.

Inductive result (A : Type) :=
  | Ok (a : A)
  | Raise (e : exn).
Arguments Ok {A} a.
Arguments Raise {A} e.

Definition bind {A B : Type} (m : result A) (k : A -> result B) : result B :=
  match m with
  | Ok a => k a
  | Raise e => Raise e
  end.

Definition is_ok {A : Type} (m : result A) : bool :=
  match m with Ok _ => true | Raise _ => false end.

(** [[f(a) for a in l]], stopping at the first exception. *)
Fixpoint mapM {A B : Type} (f : A -> result B) (l : list A) : result (list B) :=
  match l with
  | [] => Ok []
  | a :: l' =>
      bind (f a) (fun b => bind (mapM f l') (fun bs => Ok (b :: bs)))
  end.

(** [l[i]] for a list and a non-negative index. *)
Definition index {A : Type} (l : list A) (i : nat) : result A :=
  match l !! i with
  | Some a => Ok a
  | None => Raise IndexError
  end.

(** A Python number: an [int] or a [float]. *)
Inductive num :=
  | PyInt (n : Z)
  | PyFloat (x : float).

(** The conversion of an operand of float arithmetic. *)
Definition to_float (v : num) : result float :=
  match v with
  | PyInt n => let x := of_Z n in
               if is_inf x then Raise OverflowError else Ok x
  | PyFloat x => Ok x
  end.

(** [v + 1] *)
Definition add_one (v : num) : num :=
  match v with
  | PyInt n => PyInt (n + 1)
  | PyFloat x => PyFloat (F64.add x F64.one)
  end.

(** [int(v)] *)
Definition int (v : num) : result Z :=
  match v with
  | PyInt n => Ok n
  | PyFloat x =>
      match trunc x with
      | Some n => Ok n
      | None => if is_nan x then Raise ValueError else Raise OverflowError
      end
  end.

(** [1. / v] *)
Definition one_over (v : num) : result float :=
  bind (to_float v) (fun x =>
  if is_zero x then Raise ZeroDivisionError else Ok (F64.div F64.one x)).

End Py.

Import Py.

Notation "x <- m ;; k" := (Py.bind m (fun x => k))
  (at level 100, m at next level, right associativity).

(** ** Arrays: numpy's [ndarray] and torch's [Tensor] *)

Record ndarray := mk_ndarray { shape : list nat; data : list float }.

(** The number of elements of an array of a given shape. *)
Definition numel (sh : list nat) : nat := fold_right Nat.mul 1%nat sh.

(** The buffer holds one value per element. *)
Definition wf_array (a : ndarray) : Prop := length (data a) = numel (shape a).

(** [a.shape[d]] and [t.size(d)] *)
Definition size (a : ndarray) (d : nat) : result nat := index (shape a) d.

(** The first [n] rows of [k] values of a row-major buffer. *)
Fixpoint chunks (n k : nat) (l : list float) : list (list float) :=
  match n with
  | O => []
  | S n' => firstn k l :: chunks n' k (skipn k l)
  end.

(** [torch.FloatTensor(a)]: the values rounded to binary32. *)
Definition FloatTensor (a : ndarray) : ndarray :=
  {| shape := shape a; data := map to_f32 (data a) |}.

(** [a.astype(np.float32)] *)
Definition astype_float32 (a : ndarray) : ndarray :=
  {| shape := shape a; data := map to_f32 (data a) |}.

(** [sigma * a] for a Python float and a float64 array. *)
Definition scale_array (sigma : float) (a : ndarray) : ndarray :=
  {| shape := shape a; data := map (F64.mul sigma) (data a) |}.

Fixpoint map2 {A B C : Type} (f : A -> B -> C) (l : list A) (m : list B) : list C :=
  match l, m with
  | a :: l', b :: m' => f a b :: map2 f l' m'
  | _, _ => []
  end.

(** [a + b] for two arrays of one shape. *)
Definition add_arrays (a b : ndarray) : ndarray :=
  {| shape := shape a; data := map2 F64.add (data a) (data b) |}.

(** The element type of a torch tensor. *)
Inductive dtype :=
  | Bool | UInt8 | Int8 | Int16 | Int32 | Int64
  | Float16 | BFloat16 | Float32 | Float64.

(** [np.isinf(a).any()] *)
Definition has_inf (a : ndarray) : bool := existsb is_inf (data a).

(** ** What numpy, torch and scikit-learn provide *)

Class Backend := {
  (** the state of numpy's global generator *)
  rng : Type;
  (** the state [np.random.seed(s)] installs, for [0 <= s < 2^32] *)
  np_seed : Z -> rng;
  (** one draw of [np.random.uniform(-1, 1)] *)
  draw_uniform : rng -> float * rng;
  (** one draw of the standard normal distribution *)
  draw_normal : rng -> float * rng;
  (** [np.linalg.svd(a, full_matrices=False)]: u, s and vt *)
  svd : ndarray -> ndarray * ndarray * ndarray;
  (** the binary32 inner product of [torch.nn.functional.linear] *)
  dot32 : list float -> list float -> float;
  (** [StandardScaler]'s [mean_] and [scale_] of one column *)
  col_mean : list float -> float;
  col_scale : list float -> float
}.

(** The shapes numpy documents for the reduced SVD of an [m] by [n] matrix:
    [u] is [m] by [k] and [vt] is [k] by [n], with [k = min m n]. *)
Definition svd_shapes (B : Backend) : Prop :=
  forall (a : ndarray) (m n : nat),
    shape a = [m; n] -> wf_array a ->
    let '(u, _, vt) := svd a in
    shape u = [m; Nat.min m n] /\ wf_array u /\
    shape vt = [Nat.min m n; n] /\ wf_array vt.

(** ** numpy's global random state *)

Section Numpy.
Context {B : Backend}.

(** A computation that reads and updates numpy's global generator and may
    raise. *)
Definition np (A : Type) : Type := rng -> result (A * rng).

Definition np_ret {A : Type} (a : A) : np A := fun r => Ok (a, r).

Definition np_bind {A C : Type} (m : np A) (k : A -> np C) : np C :=
  fun r => match m r with
           | Ok (a, r') => k a r'
           | Raise e => Raise e
           end.

Definition lift {A : Type} (m : result A) : np A :=
  fun r => match m with
           | Ok a => Ok (a, r)
           | Raise e => Raise e
           end.

(** [np.random.seed(seed)]: the previous state is discarded. *)
Definition np_random_seed (seed : Z) : np unit :=
  fun _ => if (0 <=? seed) && (seed <? 2 ^ 32)
           then Ok (tt, np_seed seed)
           else Raise ValueError.

(** [n] successive draws. *)
Fixpoint draws (draw : rng -> float * rng) (n : nat) (r : rng) : list float * rng :=
  match n with
  | O => ([], r)
  | S n' => let (x, r1) := draw r in
            let (xs, r2) := draws draw n' r1 in
            (x :: xs, r2)
  end.

Definition draw_array (draw : rng -> float * rng) (sh : list nat) : np ndarray :=
  fun r => let (xs, r') := draws draw (numel sh) r in
           Ok ({| shape := sh; data := xs |}, r').

(** [np.random.normal(size=sh)] *)
Definition np_random_normal (sh : list nat) : np ndarray := draw_array draw_normal sh.

(** [np.random.uniform(-1, 1, sh)] *)
Definition np_random_uniform (sh : list nat) : np ndarray := draw_array draw_uniform sh.

(** [np.random.randn] called with the dimensions of [sh] *)
Definition np_random_randn (sh : list nat) : np ndarray := draw_array draw_normal sh.

End Numpy.

Notation "x <~ m ;; k" := (np_bind m (fun x => k))
  (at level 100, m at next level, right associativity).

(** ** [GeneratorUniform] *)

Record GeneratorUniform := {
  gen_lat_dim : nat;
  gen_n_channels : nat;
  gen_n_feats : nat;
  gen_seed : Z;
  (** the weight of each [torch.nn.Linear(lat_dim, n_feats, bias=False)] *)
  gen_W : list ndarray
}.

(** What [forward] accepts: a list of inputs, a numpy array or a tensor
    of some element type. *)
Inductive fwd_input :=
  | InList (l : list fwd_input)
  | InArray (a : ndarray)
  | InTensor (dt : dtype) (t : ndarray).

(** What [forward] returns: a list of results for a list, otherwise the
    list of the channels' observations. *)
Inductive fwd_output :=
  | OutList (l : list fwd_output)
  | OutObs (obs : list ndarray).

Section Generator.
Context {B : Backend}.

(** The body of the loop of [__init__], for the channels still to build. *)
Fixpoint init_weights (lat_dim n_feats : nat) (todo : nat) : np (list ndarray) :=
  match todo with
  | O => np_ret []
  | S todo' =>
      w_ <~ np_random_uniform [n_feats; lat_dim] ;;
      let '(u, _, vt) := svd w_ in
      let w := if (lat_dim <=? n_feats)%nat then u else vt in
      ws <~ init_weights lat_dim n_feats todo' ;;
      np_ret (FloatTensor w :: ws)
  end.

(** [GeneratorUniform(lat_dim, n_channels, n_feats, seed)] *)
Definition GeneratorUniform_init (lat_dim n_channels n_feats : nat) (seed : Z)
  : np GeneratorUniform :=
  _ <~ np_random_seed seed ;;
  W <~ init_weights lat_dim n_feats n_channels ;;
  np_ret {| gen_lat_dim := lat_dim; gen_n_channels := n_channels;
            gen_n_feats := n_feats; gen_seed := seed; gen_W := W |}.

(** [torch.nn.Linear.forward] without bias: the weight [w] of shape
    [[out; inn]] applied along the last dimension of [z]. *)
Definition linear (w z : ndarray) : result ndarray :=
  match shape w, rev (shape z) with
  | [out; inn], last :: lead =>
      if (last =? inn)%nat then
        let w_rows := chunks out inn (data w) in
        let z_rows := chunks (numel lead) inn (data z) in
        Ok {| shape := rev lead ++ [out];
              data := flat_map (fun row => map (dot32 row) w_rows) z_rows |}
      else Raise RuntimeError
  | _, _ => Raise RuntimeError
  end.

(** [self.W[ch](z)] for a tensor [z] of element type [dt]: the weight is
    float32, and torch refuses to multiply tensors of two element types. *)
Definition apply_linear (dt : dtype) (w z : ndarray) : result ndarray :=
  match dt with
  | Float32 => linear w z
  | _ => Raise RuntimeError
  end.

(** The loop over the channels of [forward]. *)
Definition forward_channels (g : GeneratorUniform) (dt : dtype) (z : ndarray)
  : result (list ndarray) :=
  mapM (fun ch => w <- index (gen_W g) ch ;; apply_linear dt w z)
       (seq 0 (gen_n_channels g)).

(** [forward] on a tensor, from the assertion on. *)
Definition forward_tensor (g : GeneratorUniform) (dt : dtype) (z : ndarray)
  : result (list ndarray) :=
  d <- size z 1 ;;
  if (d =? gen_lat_dim g)%nat then forward_channels g dt z
  else Raise AssertionError.

(** [GeneratorUniform.forward] *)
Fixpoint forward (g : GeneratorUniform) (z : fwd_input) : result fwd_output :=
  match z with
  | InList l =>
      outs <- (fix each (l : list fwd_input) : result (list fwd_output) :=
                 match l with
                 | [] => Ok []
                 | z' :: l' =>
                     o <- forward g z' ;; os <- each l' ;; Ok (o :: os)
                 end) l ;;
      Ok (OutList outs)
  | InArray a => obs <- forward_tensor g Float32 (FloatTensor a) ;; Ok (OutObs obs)
  | InTensor dt t => obs <- forward_tensor g dt t ;; Ok (OutObs obs)
  end.

End Generator.

(** ** [StandardScaler], noise and [SyntheticDataset] *)

Record StandardScaler := { mean_ : list float; scale_ : list float }.

(** The [snr] argument: one number for all channels, or a list. *)
Inductive snr_arg :=
  | SnrScalar (v : num)
  | SnrList (l : list num).

Record SyntheticDataset := {
  ds_n_samples : nat;
  ds_lat_dim : nat;
  ds_n_feats : nat;
  ds_n_channels : nat;
  ds_snr : snr_arg;
  ds_train : bool;
  ds_z : ndarray;
  ds_generator : GeneratorUniform;
  ds_x : list ndarray;
  ds_X : list ndarray;
  ds_X_noisy : list ndarray
}.

Section Dataset.
Context {B : Backend}.

(** The validation of [StandardScaler]: scikit-learn accepts a
    two-dimensional array without infinite entry (NaN is let through) that
    has at least one sample and one feature. A torch tensor, as
    [SyntheticDataset] passes, is first converted to a float64 array, which
    keeps the shape and the values. *)
Definition check_array (a : ndarray) : result (nat * nat) :=
  match shape a with
  | [n; k] =>
      if has_inf a then Raise ValueError
      else if (n =? 0)%nat || (k =? 0)%nat then Raise ValueError
      else Ok (n, k)
  | _ => Raise ValueError
  end.

(** [StandardScaler().fit(a)] *)
Definition StandardScaler_fit (a : ndarray) : result StandardScaler :=
  nk <- check_array a ;;
  let '(n, k) := nk in
  let rows := chunks n k (data a) in
  let cols := map (fun j => map (fun row => nth j row zero) rows) (seq 0 k) in
  Ok {| mean_ := map col_mean cols; scale_ := map col_scale cols |}.

(** One row of [X -= mean_] followed by [X /= scale_], on the float64
    copy of the channel. *)
Fixpoint transform_row (row mean scale : list float) : list float :=
  match row, mean, scale with
  | x :: row', m :: mean', s :: scale' =>
      F64.div (F64.sub x m) s :: transform_row row' mean' scale'
  | _, _, _ => []
  end.

(** [scaler.transform(a)]: a float64 array. *)
Definition StandardScaler_transform (sc : StandardScaler) (a : ndarray) : result ndarray :=
  nk <- check_array a ;;
  let '(n, k) := nk in
  if (k =? length (mean_ sc))%nat then
    Ok {| shape := [n; k];
          data := flat_map (fun row => transform_row row (mean_ sc) (scale_ sc))
                           (chunks n k (data a)) |}
  else Raise ValueError.

(** The list [snr] after line 113-114. *)
Definition snr_list (snr : snr_arg) (n : nat) : list num :=
  match snr with
  | SnrList l => l
  | SnrScalar v => repeat v n
  end.

(** The seed of the noise, lines 118-119. *)
Definition noise_seed (x : list ndarray) (snr : list num) (seed : Z) : result Z :=
  snr0 <- index snr 0 ;;
  k <- int (add_one snr0) ;;
  x0 <- index x 0 ;;
  rows <- size x0 0 ;;
  cols <- size x0 1 ;;
  Ok (seed + 3 * k + 5 * Z.of_nat (length x) + 7 * Z.of_nat rows + 11 * Z.of_nat cols).

(** The loop of lines 122-124 from channel [c_idx] on: for each channel
    the noise [sigma_noise * randn] and the noisy array. *)
Fixpoint noise_loop (snr : list num) (c_idx : nat) (x_std : list ndarray)
  : np (list (ndarray * ndarray)) :=
  match x_std with
  | [] => np_ret []
  | arr :: rest =>
      sigma_noise <~ lift (v <- index snr c_idx ;; q <- one_over v ;; Ok (F64.sqrt q)) ;;
      e <~ np_random_randn (shape arr) ;;
      let noise := scale_array sigma_noise e in
      tl <~ noise_loop snr (S c_idx) rest ;;
      np_ret ((noise, add_arrays arr noise) :: tl)
  end.

(** Lines 115-116: a scaler is fitted to every channel, then every channel
    is transformed by its scaler. *)
Definition standardize (x : list ndarray) : result (list ndarray) :=
  scalers <- mapM StandardScaler_fit x ;;
  mapM (fun c_idx => sc <- index scalers c_idx ;;
                     arr <- index x c_idx ;;
                     StandardScaler_transform sc arr)
       (seq 0 (length x)).

(** [preprocess_and_add_noise], keeping the noise of each channel beside
    the array it is added to. The channels [x] are torch tensors, as at the
    call in [SyntheticDataset]; they are standardized and the noise is
    added in float64. *)
Definition preprocess (x : list ndarray) (snr : snr_arg) (seed : Z)
  : np (list ndarray * list (ndarray * ndarray)) :=
  let snr := snr_list snr (length x) in
  x_std <~ lift (standardize x) ;;
  seed <~ lift (noise_seed x snr seed) ;;
  _ <~ np_random_seed seed ;;
  noisy <~ noise_loop snr 0 x_std ;;
  np_ret (x_std, noisy).

(** [preprocess_and_add_noise(x, snr, seed)] *)
Definition preprocess_and_add_noise (x : list ndarray) (snr : snr_arg) (seed : Z)
  : np (list ndarray * list ndarray) :=
  r <~ preprocess x snr seed ;;
  let '(x_std, noisy) := r in
  np_ret (x_std, map snd noisy).

(** The noise arrays [sigma_noise * np.random.randn(...)] of a call. *)
Definition added_noise (x : list ndarray) (snr : snr_arg) (seed : Z) : np (list ndarray) :=
  r <~ preprocess x snr seed ;;
  let '(_, noisy) := r in
  np_ret (map fst noisy).

(** [generator(z)] for the array [z] of the dataset. *)
Definition generate (g : GeneratorUniform) (z : ndarray) : result (list ndarray) :=
  out <- forward g (InArray z) ;;
  match out with
  | OutObs obs => Ok obs
  | OutList _ => Raise ValueError
  end.

(** [SyntheticDataset(n_samples, lat_dim, n_feats, n_channels, snr=snr, train=train)] *)
Definition SyntheticDataset_init (n_samples lat_dim n_feats n_channels : nat)
    (snr : snr_arg) (train : bool) : np SyntheticDataset :=
  let seed := if train then 7 else 14 in
  _ <~ np_random_seed seed ;;
  z <~ np_random_normal [n_samples; lat_dim] ;;
  generator <~ GeneratorUniform_init lat_dim n_channels n_feats 100 ;;
  x <~ lift (generate generator z) ;;
  r <~ preprocess_and_add_noise x snr 0 ;;
  let '(X, X_noisy) := r in
  np_ret {| ds_n_samples := n_samples; ds_lat_dim := lat_dim;
            ds_n_feats := n_feats; ds_n_channels := n_channels;
            ds_snr := snr; ds_train := train; ds_z := z;
            ds_generator := generator; ds_x := x;
            ds_X := map astype_float32 X; ds_X_noisy := X_noisy |}.

(** Lines 92-98 of the construction: [z], the generator and [x]. *)
Definition SyntheticDataset_x (n_samples lat_dim n_feats n_channels : nat)
    (train : bool) : np (list ndarray) :=
  let seed := if train then 7 else 14 in
  _ <~ np_random_seed seed ;;
  z <~ np_random_normal [n_samples; lat_dim] ;;
  generator <~ GeneratorUniform_init lat_dim n_channels n_feats 100 ;;
  lift (generate generator z).

(** The noise added while a dataset is built: the construction up to the
    call of [preprocess_and_add_noise], then the noise of that call. *)
Definition SyntheticDataset_noise (n_samples lat_dim n_feats n_channels : nat)
    (snr : snr_arg) (train : bool) : np (list ndarray) :=
  let seed := if train then 7 else 14 in
  _ <~ np_random_seed seed ;;
  z <~ np_random_normal [n_samples; lat_dim] ;;
  generator <~ GeneratorUniform_init lat_dim n_channels n_feats 100 ;;
  x <~ lift (generate generator z) ;;
  added_noise x snr 0.

End Dataset.

(** ** The training loop *)

(** The dictionary the criterion returns. *)
Record losses := { total : float; kl : float; ll : float }.

(** The model, the criterion and the optimizer, as the loop uses them. *)
Class Learner := {
  (** the contents of [model.state_dict()] *)
  weights : Type;
  (** the state of the optimizer (and of the scheduler, when there is one) *)
  optim : Type;
  (** what a data loader yields: the list of the channels' tensors *)
  batch : Type;
  (** [inputs[0].size(0)] *)
  batch_size : batch -> nat;
  (** [criterion(model(inputs), inputs)] in evaluation mode, without gradients *)
  eval_losses : weights -> batch -> losses;
  (** the same in training mode, followed by [loss.backward()] and
      [optimizer.step()] *)
  train_step : weights -> optim -> batch -> losses * weights * optim;
  (** [scheduler.step(epoch_loss)] *)
  scheduler_step : float -> optim -> optim
}.

Inductive phase := Train | Val.

(** The keys of [image_datasets], in insertion order. *)
Definition phases : list phase := [Train; Val].

Section Training.
Context {L : Learner}.

(** A [DataLoader]: the batches of each pass (they are reshuffled at every
    epoch) and [len(loader.dataset)]. *)
Record DataLoader := { batches : nat -> list batch; dataset_len : nat }.

(** [dataloaders[phase]] *)
Record DataLoaders := { dl_train : DataLoader; dl_val : DataLoader }.

Definition loader (dls : DataLoaders) (ph : phase) : DataLoader :=
  match ph with Train => dl_train dls | Val => dl_val dls end.

(** The model and the optimizer: both are mutated in place. *)
Record trainer := { params : weights; opt : optim }.

(** [running_loss], [running_kl] and [running_ll]. *)
Record sums := { running_loss : float; running_kl : float; running_ll : float }.

(** [epoch_loss], [epoch_kl] and [epoch_ll]. *)
Record stats := { epoch_loss : float; epoch_kl : float; epoch_ll : float }.

(** The local variables of [train_model] that outlive an epoch.
    [val_log] is a trace kept for the statements below: the epoch loss of
    every validation phase so far, oldest first, each with the value of
    [model.state_dict()] at that time. *)
Record run_state := {
  model : trainer;
  best_model_wts : weights;
  best_loss : float;
  val_log : list (float * weights)
}.

(** Lines 198-208: the forward pass and, in the training phase, the update. *)
Definition forward_backward (ph : phase) (t : trainer) (inputs : batch) : losses * trainer :=
  match ph with
  | Train => let '(ls, w, o) := train_step (params t) (opt t) inputs in
             (ls, {| params := w; opt := o |})
  | Val => (eval_losses (params t) inputs, t)
  end.

(** [x * n] for a float and a Python integer. *)
Definition times (x : float) (n : nat) : float := F64.mul x (of_Z (Z.of_nat n)).

(** The body of the loop over the batches, lines 190-213. *)
Definition step_batch (ph : phase) (acc : trainer * sums) (inputs : batch) : trainer * sums :=
  let '(t, s) := acc in
  let '(ls, t') := forward_backward ph t inputs in
  let n := batch_size inputs in
  (t', {| running_loss := F64.add (running_loss s) (times (total ls) n);
          running_kl := F64.add (running_kl s) (times (kl ls) n);
          running_ll := F64.add (running_ll s) (times (ll ls) n) |}).

(** Lines 183-213. *)
Definition run_batches (ph : phase) (t : trainer) (bs : list batch) : trainer * sums :=
  fold_left (step_batch ph) bs
    (t, {| running_loss := zero; running_kl := zero; running_ll := zero |}).

(** [x / n] for a float and a Python integer. *)
Definition over (x : float) (n : nat) : result float :=
  if (n =? 0)%nat then Raise ZeroDivisionError else Ok (F64.div x (of_Z (Z.of_nat n))).

(** Lines 217-219. *)
Definition epoch_stats (s : sums) (len : nat) : result stats :=
  l <- over (running_loss s) len ;;
  k <- over (running_kl s) len ;;
  g <- over (running_ll s) len ;;
  Ok {| epoch_loss := l; epoch_kl := k; epoch_ll := g |}.

(** Lines 222-223. *)
Definition update_scheduler (scheduler : option (float -> optim -> optim))
    (ph : phase) (l : float) (t : trainer) : trainer :=
  match scheduler, ph with
  | Some step, Train => {| params := params t; opt := step l (opt t) |}
  | _, _ => t
  end.

(** Lines 233-235. *)
Definition save_best (ph : phase) (l : float) (t : trainer) (st : run_state) : run_state :=
  match ph with
  | Val =>
      let log := val_log st ++ [(l, params t)] in
      if F64.ltb l (best_loss st)
      then {| model := t; best_model_wts := params t; best_loss := l; val_log := log |}
      else {| model := t; best_model_wts := best_model_wts st;
              best_loss := best_loss st; val_log := log |}
  | Train =>
      {| model := t; best_model_wts := best_model_wts st;
         best_loss := best_loss st; val_log := val_log st |}
  end.

(** One phase of one epoch, lines 178-235. *)
Definition run_phase (dls : DataLoaders) (scheduler : option (float -> optim -> optim))
    (epoch : nat) (st : run_state) (ph : phase) : result run_state :=
  let dl := loader dls ph in
  let '(t, s) := run_batches ph (model st) (batches dl epoch) in
  e <- epoch_stats s (dataset_len dl) ;;
  let t := update_scheduler scheduler ph (epoch_loss e) t in
  Ok (save_best ph (epoch_loss e) t st).

(** One epoch: the loop over the phases. *)
Definition run_epoch (dls : DataLoaders) (scheduler : option (float -> optim -> optim))
    (st : run_state) (epoch : nat) : result run_state :=
  fold_left (fun acc ph => st <- acc ;; run_phase dls scheduler epoch st ph)
            phases (Ok st).

(** Lines 168-170. *)
Definition initial_state (m : trainer) : run_state :=
  {| model := m; best_model_wts := params m; best_loss := f1e8; val_log := [] |}.

(** The loop over [range(num_epochs)], lines 174-235. *)
Definition train_epochs (dls : DataLoaders) (scheduler : option (float -> optim -> optim))
    (m : trainer) (num_epochs : nat) : result run_state :=
  fold_left (fun acc epoch => st <- acc ;; run_epoch dls scheduler st epoch)
            (seq 0 num_epochs) (Ok (initial_state m)).

(** [model.load_state_dict(w)] *)
Definition load_state_dict (w : weights) (t : trainer) : trainer :=
  {| params := w; opt := opt t |}.

(** [train_model(model, dataloaders, criterion, optimizer, scheduler,
    num_epochs)]. [since] is assigned in the body of the loop over the
    epochs and read after it, line 237. *)
Definition train_model (dls : DataLoaders) (scheduler : option (float -> optim -> optim))
    (m : trainer) (num_epochs : nat) : result trainer :=
  st <- train_epochs dls scheduler m num_epochs ;;
  if (num_epochs =? 0)%nat then Raise UnboundLocalError
  else Ok (load_state_dict (best_model_wts st) (model st)).

End Training.

(** ** The epoch statistics *)

Section Statistics.
Context {L : Learner}.

(** The statistics of the phase [ph] of an epoch, lines 183-219. *)
Definition phase_stats (dls : DataLoaders) (epoch : nat) (st : run_state) (ph : phase)
  : result stats :=
  let dl := loader dls ph in
  epoch_stats (snd (run_batches ph (model st) (batches dl epoch))) (dataset_len dl).





End Statistics.

(** ** The best validation loss *)

Section BestLoss.
Context {L : Learner}.

(** No logged validation loss is strictly below [b]. *)
Definition none_below (log : list (float * weights)) (b : float) : Prop :=
  forall l w, (l, w) ∈ log -> F64.ltb l b = false.

(** What the loop retains after the validation phases logged in [log],
    starting from the weights [w0] and the loss [1e8]: either no loss was
    below [1e8] and the initial pair stands, or the pair is the first entry
    of the log that no other entry is strictly below. *)
Definition retained (w0 : weights) (log : list (float * weights))
    (b : float) (bw : weights) : Prop :=
  none_below log b /\
  ((none_below log f1e8 /\ b = f1e8 /\ bw = w0) \/
   (exists k, log !! k = Some (b, bw) /\ F64.ltb b f1e8 = true /\
              forall j l w, (j < k)%nat -> log !! j = Some (l, w) -> F64.leb l b = false)).

(** The claim as worded: the weights [bw] are those logged at an epoch whose
    validation loss is the minimum of the log. *)
Definition logged_at_minimum (log : list (float * weights)) (bw : weights) : Prop :=
  exists k l, log !! k = Some (l, bw) /\
              forall j l' w', log !! j = Some (l', w') -> F64.leb l l' = true.

End BestLoss.

(** ** A small learner to run the loop on

    The weights are an integer that every optimizer step increments; the
    loss of a batch is a chosen function of the weights. *)

Definition toy_learner (loss : Z -> Z) : Learner :=
  {| weights := Z;
     optim := unit;
     batch := nat;
     batch_size := fun b => b;
     eval_losses := fun w _ => {| total := of_Z (loss w); kl := zero; ll := zero |};
     train_step := fun w o _ =>
       ({| total := of_Z (loss w); kl := zero; ll := zero |}, w + 1, o);
     scheduler_step := fun _ o => o |}.

(** One batch holding the whole dataset of one sample, in both phases. *)
Definition toy_loaders (loss : Z -> Z) : @DataLoaders (toy_learner loss) :=
  let dl := @Build_DataLoader (toy_learner loss) (fun _ => [1%nat]) 1%nat in
  {| dl_train := dl; dl_val := dl |}.

Definition toy_model (loss : Z -> Z) : @trainer (toy_learner loss) :=
  @Build_trainer (toy_learner loss) 0 tt.

(** ** What [__init__] establishes for a generator

    One weight per channel, each of shape [[n_feats; lat_dim]]. *)
Definition wf_generator (g : GeneratorUniform) : Prop :=
  length (gen_W g) = gen_n_channels g /\
  forall w, w ∈ gen_W g -> shape w = [gen_n_feats g; gen_lat_dim g] /\ wf_array w.

(** ** The part of the pipeline that depends on shapes only *)

Definition rmap {A C : Type} (f : A -> C) (m : result A) : result C :=
  match m with
  | Ok a => Ok (f a)
  | Raise e => Raise e
  end.

(** [check_array] on a shape. *)
Definition check_shape (sh : list nat) : result (nat * nat) :=
  match sh with
  | [n; k] => if (n =? 0)%nat || (k =? 0)%nat then Raise ValueError else Ok (n, k)
  | _ => Raise ValueError
  end.

(** The shapes of the standardized channels. *)
Definition standardized_shapes (shs : list (list nat)) : result (list (list nat)) :=
  mapM (fun sh => nk <- check_shape sh ;; Ok [fst nk; snd nk]) shs.

(** The shape of the result of [linear] for a weight of shape [wsh]. *)
Definition linear_shape (wsh zsh : list nat) : result (list nat) :=
  match wsh, rev zsh with
  | [out; inn], last :: lead =>
      if (last =? inn)%nat then Ok (rev lead ++ [out]) else Raise RuntimeError
  | _, _ => Raise RuntimeError
  end.

(** The shapes of the observations [forward] returns for a tensor of shape
    [zsh]. *)
Definition forward_shapes (g : GeneratorUniform) (zsh : list nat) : result (list (list nat)) :=
  d <- index zsh 1 ;;
  if (d =? gen_lat_dim g)%nat then
    mapM (fun ch => w <- index (gen_W g) ch ;; linear_shape (shape w) zsh)
         (seq 0 (gen_n_channels g))
  else Raise AssertionError.

Section ShapesOnly.
Context {B : Backend}.

Definition np_map {A C : Type} (f : A -> C) (m : np A) : np C :=
  fun r => match m r with
           | Ok (a, r') => Ok (f a, r')
           | Raise e => Raise e
           end.

(** The noise of [noise_loop], from the shapes of the arrays. *)
Fixpoint noise_of_shapes (snr : list num) (c_idx : nat) (shs : list (list nat))
  : np (list ndarray) :=
  match shs with
  | [] => np_ret []
  | sh :: rest =>
      sigma_noise <~ lift (v <- index snr c_idx ;; q <- one_over v ;; Ok (F64.sqrt q)) ;;
      e <~ np_random_randn sh ;;
      tl <~ noise_of_shapes snr (S c_idx) rest ;;
      np_ret (scale_array sigma_noise e :: tl)
  end.

(** The seed of the noise, from the shapes of the channels. *)
Definition noise_seed_of_shapes (shs : list (list nat)) (snr : list num) (seed : Z)
  : result Z :=
  snr0 <- index snr 0 ;;
  k <- int (add_one snr0) ;;
  sh0 <- index shs 0 ;;
  rows <- index sh0 0 ;;
  cols <- index sh0 1 ;;
  Ok (seed + 3 * k + 5 * Z.of_nat (length shs) + 7 * Z.of_nat rows + 11 * Z.of_nat cols).

(** [added_noise], from the shapes of the channels. *)
Definition added_noise_of_shapes (shs : list (list nat)) (snr : snr_arg) (seed : Z)
  : np (list ndarray) :=
  let snr := snr_list snr (length shs) in
  std <~ lift (standardized_shapes shs) ;;
  seed <~ lift (noise_seed_of_shapes shs snr seed) ;;
  _ <~ np_random_seed seed ;;
  noise_of_shapes snr 0 std.

End ShapesOnly.

(** ** A small backend to run the data pipeline on

    The generator state is a counter, a draw is a small integer computed
    from it; the SVD returns factors of the documented shapes (leading
    columns and rows of the identity); the inner product and the column
    mean are left-to-right sums, the column scale is one. *)

Definition toy_draw (r : Z) : float * Z := (of_Z (r mod 5 - 2), r + 1).

Definition eye (m k : nat) : ndarray :=
  {| shape := [m; k];
     data := flat_map (fun i => map (fun j => if (i =? j)%nat then one else zero) (seq 0 k))
                      (seq 0 m) |}.

Definition toy_svd (a : ndarray) : ndarray * ndarray * ndarray :=
  match shape a with
  | [m; n] => let k := Nat.min m n in
              (eye m k, {| shape := [k]; data := repeat one k |}, eye k n)
  | _ => (a, a, a)
  end.

Definition toy_dot (x y : list float) : float :=
  fold_left (SFadd prec32 emax32) (map2 (SFmul prec32 emax32) x y) zero.

Definition toy_backend : Backend :=
  {| rng := Z;
     np_seed := fun s => s;
     draw_uniform := toy_draw;
     draw_normal := toy_draw;
     svd := toy_svd;
     dot32 := toy_dot;
     col_mean := fun col => F64.div (fold_left F64.add col zero) (of_Z (Z.of_nat (length col)));
     col_scale := fun _ => one |}.

(** ** The rest of [SyntheticDataset] *)

(** [a[item]] for an array and a Python integer: the sub-array at position
    [item] of the first dimension; a negative [item] counts from the end. *)
Definition getrow (a : ndarray) (item : Z) : result ndarray :=
  match shape a with
  | [] => Raise IndexError
  | n :: rest =>
      let i := if item <? 0 then item + Z.of_nat n else item in
      if (0 <=? i) && (i <? Z.of_nat n) then
        let k := numel rest in
        Ok {| shape := rest;
              data := firstn k (skipn (Z.to_nat i * k) (data a)) |}
      else Raise IndexError
  end.

(** [SyntheticDataset.__len__] *)
Definition SyntheticDataset_len (ds : SyntheticDataset) : nat := ds_n_samples ds.

(** [SyntheticDataset.__getitem__] *)
Definition SyntheticDataset_getitem (ds : SyntheticDataset) (item : Z)
  : result (list ndarray) :=
  mapM (fun x => getrow x item) (ds_X ds).

(** [SyntheticDataset.shape] *)
Definition SyntheticDataset_shape (ds : SyntheticDataset) : nat * nat :=
  (SyntheticDataset_len ds, length (ds_X ds)).

(** ** Collecting the training data for display, lines 272-278 *)

(** [big_X[idx].append(c)] *)
Definition append_at (big_X : list (list ndarray)) (idx : nat) (c : ndarray)
  : result (list (list ndarray)) :=
  match big_X !! idx with
  | Some l => Ok (<[idx := l ++ [c]]> big_X)
  | None => Raise IndexError
  end.

(** The loop over [enumerate(x)], from the index [idx] on. *)
Fixpoint scatter (big_X : list (list ndarray)) (idx : nat) (x : list ndarray)
  : result (list (list ndarray)) :=
  match x with
  | [] => Ok big_X
  | c :: x' => b <- append_at big_X idx c ;; scatter b (S idx) x'
  end.

(** The loop over the batches of the loader. *)
Fixpoint gather (big_X : list (list ndarray)) (X : list (list ndarray))
  : result (list (list ndarray)) :=
  match X with
  | [] => Ok big_X
  | x :: X' => b <- scatter big_X 0 x ;; gather b X'
  end.

(** One more tensor under those concatenated so far: the number of
    dimensions and the dimensions after the first must agree. *)
Definition cat_onto (acc t : ndarray) : result ndarray :=
  match shape acc, shape t with
  | n :: tr, n' :: tr' =>
      if bool_decide (tr = tr')
      then Ok {| shape := (n + n')%nat :: tr; data := data acc ++ data t |}
      else Raise RuntimeError
  | _, _ => Raise RuntimeError
  end.

(** A tensor without dimension cannot be concatenated. *)
Definition zero_dim (t : ndarray) : bool :=
  match shape t with [] => true | _ => false end.

(** A tensor of one dimension and no element takes no part in the checks
    of the shapes (nor in the result). *)
Definition cat_kept (t : ndarray) : bool := negb (bool_decide (shape t = [0%nat])).

(** [torch.cat(l)], along the first dimension. An empty list raises
    [ValueError]; a tensor without dimension, or two tensors whose shapes
    differ after the first dimension, raise [RuntimeError]. *)
Definition torch_cat (l : list ndarray) : result ndarray :=
  match l with
  | [] => Raise ValueError
  | _ :: _ =>
      if existsb zero_dim l then Raise RuntimeError
      else match List.filter cat_kept l with
           | [] => Ok {| shape := [0%nat]; data := [] |}
           | t :: rest => fold_left (fun acc t' => a <- acc ;; cat_onto a t') rest (Ok t)
           end
  end.

(** Lines 274-278: [big_X] starts as three empty lists. *)
Definition collect_channels (X : list (list ndarray)) : result (list ndarray) :=
  big_X <- gather [[]; []; []] X ;;
  mapM torch_cat big_X.

(** A batch of exactly three channels. *)
Definition batch3 (b : ndarray * ndarray * ndarray) : list ndarray :=
  let '(c0, c1, c2) := b in [c0; c1; c2].

Definition chan0 (b : ndarray * ndarray * ndarray) : ndarray := fst (fst b).
Definition chan1 (b : ndarray * ndarray * ndarray) : ndarray := snd (fst b).
Definition chan2 (b : ndarray * ndarray * ndarray) : ndarray := snd b.

(** ** The model registry: [pynet/models/__init__.py]

    The module consists of import statements only. Its namespace maps a
    name to the object it is bound to: a submodule of the package, or an
    attribute of a submodule, identified by the submodule and the name it
    has there. The submodules themselves are not part of the sources at
    hand; the namespace is followed through the statements of this file. *)

Module Registry.

#[local] Open Scope string_scope.

Inductive object :=
  | Submodule (m : string)
  | Attribute (m name : string).

Inductive import_stmt :=
  | FromImport (module : string) (names : list string)
  | FromImportStar (module : string).

(** Lines 15-30. *)
Definition init_py : list import_stmt :=
  [ FromImport "sononet" ["SonoNet"];
    FromImport "unet" ["UNet"];
    FromImport "vae" ["VUNet"; "VanillaNet"];
    FromImport "nvnet" ["NvNet"];
    FromImport "voxelmorphnet" ["VoxelMorphNet"];
    FromImport "vtnet" ["VTNet"; "ADDNet"];
    FromImport "rcnet" ["RCNet"];
    FromImport "brainnetcnn" ["BrainNetCNN"];
    FromImport "deeplabnet" ["DeepLabNet"];
    FromImport "pspnet" ["PSPNet"];
    FromImport "braingengan"
      ["BGDiscriminator"; "BGEncoder"; "BGCodeDiscriminator"; "BGGenerator"];
    FromImport "resnet" ["ResAENet"];
    FromImport "attention" ["STAAENet"];
    FromImport "deepcluster" ["DeepCluster"];
    FromImportStar "torchvisnet" ].

(** Importing the submodule [m] of the package binds the name [m] in the
    namespace of the package. *)
Definition import_submodule (m : string) (ns : gmap string object) : gmap string object :=
  <[m := Submodule m]> ns.

(** Binding the names [names] of the module [m], in order. *)
Definition bind_names (m : string) (ns : gmap string object) (names : list string)
  : gmap string object :=
  foldl (fun ns n => <[n := Attribute m n]> ns) ns names.

(** One import statement: the submodule is imported, then the names are
    bound; [public m] lists the names [from m import *] binds. *)
Definition exec (public : string -> list string) (ns : gmap string object)
    (s : import_stmt) : gmap string object :=
  match s with
  | FromImport m names => bind_names m (import_submodule m ns) names
  | FromImportStar m => bind_names m (import_submodule m ns) (public m)
  end.

(** The namespace of the package once its [__init__] has run, from the
    namespace [ns0] the interpreter starts the module with. *)
Definition load (public : string -> list string) (ns0 : gmap string object)
  : gmap string object :=
  foldl (exec public) ns0 init_py.

(** What the statements bind when the final [import *] brings no name. *)
Definition explicit : gmap string object := load (fun _ => []) ∅.

End Registry.

(** ** [forward] as the claim words it

    Every tensor whose second dimension is [lat_dim] passes the assertion
    and gives a list of [n_channels] outputs. *)
Definition forward_as_claimed `{B : Backend} (g : GeneratorUniform) : Prop :=
  forall (dt : dtype) (z : ndarray),
    size z 1 = Ok (gen_lat_dim g) ->
    exists obs, forward g (InTensor dt z) = Ok (OutObs obs) /\
                length obs = gen_n_channels g.

(** ** The script as a whole

    The module [multi_channels_vae.py] is run from top to bottom. After
    [import os] and [import sys] comes the guard of lines 10-11, then the
    statements below, in order; a statement that raises ends the run. *)

Module Script.

#[local] Open Scope string_scope.

(** The statements after the guard, by what they do. *)
Inductive step :=
  | Imports        (* lines 13-24 *)
  | Parameters     (* lines 28-37 *)
  | Datasets       (* lines 128-145: [ds_train], [ds_val] *)
  | Models         (* lines 149-160 *)
  | Loaders        (* lines 248-251 *)
  | Training       (* lines 254-262: [train_model] for every model *)
  | Display        (* lines 266-293 *)
  | Plots.         (* lines 302-324 *)

Definition after_guard : list step :=
  [Imports; Parameters; Datasets; Models; Loaders; Training; Display; Plots].

(** How a run of the module ends: [sys.exit()] raises [SystemExit] with no
    code, the last statement is passed, or an exception is left uncaught. *)
Inductive ending :=
  | SystemExit
  | Completed
  | Uncaught (e : exn).

(** [os.environ] *)
Definition environ : Type := gmap string string.

(** The statements [todo] run in order: those entered, and how the run
    ends. [raises s] is the exception the statement [s] raises, if any. *)
Fixpoint run_steps (raises : step -> option exn) (todo : list step) : list step * ending :=
  match todo with
  | [] => ([], Completed)
  | s :: rest =>
      match raises s with
      | Some e => ([s], Uncaught e)
      | None => let '(entered, e) := run_steps raises rest in (s :: entered, e)
      end
  end.

(** Lines 10-11, then the rest of the module. *)
Definition main (env : environ) (raises : step -> option exn) : list step * ending :=
  if bool_decide (is_Some (env !! "CI_MODE")) then ([], SystemExit)
  else run_steps raises after_guard.

End Script.

(** * Facts *)

(** ** The order of binary64 comparison *)

Module F64Facts.


Lemma compare_refl x : is_nan x = false -> SFcompare x x = Some Eq.
Proof.
  destruct x as [s|s| |s m e]; simpl; intros H; try discriminate;
    try (destruct s; reflexivity).
  rewrite Z.compare_refl.
  change (Pos.compare_cont Eq m m) with (Pos.compare m m).
  rewrite Pos.compare_refl. destruct s; reflexivity.
Qed.

Lemma ltb_not_nan_l x y : ltb x y = true -> is_nan x = false.
Proof. destruct x; simpl; try reflexivity. discriminate. Qed.

Lemma ltb_not_nan_r x y : ltb x y = true -> is_nan y = false.
Proof. destruct x, y; simpl; try reflexivity; discriminate. Qed.

Lemma leb_refl x : is_nan x = false -> leb x x = true.
Proof.
  intros H. unfold leb, SFleb. now rewrite compare_refl.
Qed.

Lemma ltb_leb x y : ltb x y = true -> leb x y = true.
Proof.
  unfold ltb, leb, SFltb, SFleb.
  destruct (SFcompare x y) as [[ | | ]|]; congruence.
Qed.

Lemma ltb_irrefl x : ltb x x = false.
Proof.
  destruct (is_nan x) eqn:H.
  - destruct x; try discriminate. reflexivity.
  - unfold ltb, SFltb. now rewrite compare_refl.
Qed.

Ltac cmp_cases :=
  repeat match goal with
  | H : context [Z.compare ?a ?b] |- _ => destruct (Z.compare_spec a b)
  | |- context [Z.compare ?a ?b] => destruct (Z.compare_spec a b)
  | H : context [Pos.compare ?a ?b] |- _ => destruct (Pos.compare_spec a b)
  | |- context [Pos.compare ?a ?b] => destruct (Pos.compare_spec a b)
  end.

Ltac by_float_cases x y z :=
  unfold ltb, leb, SFltb, SFleb;
  destruct x as [[]|[]| |[] ? ?], y as [[]|[]| |[] ? ?], z as [[]|[]| |[] ? ?];
  simpl; try congruence;
  change (Pos.compare_cont Eq) with Pos.compare;
  cmp_cases; simpl; try congruence; try lia.

Lemma ltb_trans x y z : ltb x y = true -> ltb y z = true -> ltb x z = true.
Proof. by_float_cases x y z. Qed.

Lemma leb_ltb_trans x y z : leb x y = true -> ltb y z = true -> ltb x z = true.
Proof. by_float_cases x y z. Qed.

Lemma ltb_leb_trans x y z : ltb x y = true -> leb y z = true -> ltb x z = true.
Proof. by_float_cases x y z. Qed.

Lemma leb_trans x y z : leb x y = true -> leb y z = true -> leb x z = true.
Proof. by_float_cases x y z. Qed.

End F64Facts.

Import F64Facts.

(** ** The epoch statistics *)

Section StatisticsFacts.
Context {L : Learner}.



(** Evaluation leaves the model and the optimizer as they are. *)
Lemma fold_step_batch_val bs : forall t s,
  fst (fold_left (step_batch Val) bs (t, s)) = t.
Proof.
  induction bs as [|b bs IH]; intros t s; simpl; [reflexivity|].
  apply IH.
Qed.

Lemma run_phase_stats dls scheduler epoch st ph :
  run_phase dls scheduler epoch st ph =
  (e <- phase_stats dls epoch st ph ;;
   let t := fst (run_batches ph (model st) (batches (loader dls ph) epoch)) in
   Ok (save_best ph (epoch_loss e)
         (update_scheduler scheduler ph (epoch_loss e) t) st)).
Proof.
  unfold run_phase, phase_stats.
  destruct (run_batches ph (model st) (batches (loader dls ph) epoch)) as [t s].
  reflexivity.
Qed.

Lemma epoch_stats_of_sums (s : sums) (len : nat) :
  epoch_stats s len =
  if (len =? 0)%nat then Raise ZeroDivisionError
  else Ok {| epoch_loss := F64.div (running_loss s) (of_Z (Z.of_nat len));
             epoch_kl := F64.div (running_kl s) (of_Z (Z.of_nat len));
             epoch_ll := F64.div (running_ll s) (of_Z (Z.of_nat len)) |}.
Proof.
  unfold epoch_stats, over. destruct (len =? 0)%nat; reflexivity.
Qed.

Lemma phase_stats_ok dls epoch st ph :
  dataset_len (loader dls ph) <> 0%nat ->
  exists e, phase_stats dls epoch st ph = Ok e.
Proof.
  intros H. unfold phase_stats. rewrite epoch_stats_of_sums.
  destruct (Nat.eqb_spec (dataset_len (loader dls ph)) 0); [contradiction|].
  eexists; reflexivity.
Qed.


End StatisticsFacts.

(** ** The best validation loss *)

Section BestLossFacts.
Context {L : Learner}.

Lemma train_epochs_S dls scheduler m k :
  train_epochs dls scheduler m (S k) =
  (st <- train_epochs dls scheduler m k ;; run_epoch dls scheduler st k).
Proof.
  unfold train_epochs. rewrite seq_S, fold_left_app. reflexivity.
Qed.

Lemma run_epoch_phases dls scheduler st k :
  run_epoch dls scheduler st k =
  (st1 <- run_phase dls scheduler k st Train ;; run_phase dls scheduler k st1 Val).
Proof. reflexivity. Qed.

(** An epoch appends one entry to the log and keeps the smaller loss. *)
Lemma run_epoch_inv dls scheduler st k st' :
  run_epoch dls scheduler st k = Ok st' ->
  exists l,
    val_log st' = val_log st ++ [(l, params (model st'))] /\
    if F64.ltb l (best_loss st)
    then best_loss st' = l /\ best_model_wts st' = params (model st')
    else best_loss st' = best_loss st /\ best_model_wts st' = best_model_wts st.
Proof.
  rewrite run_epoch_phases, !run_phase_stats.
  destruct (phase_stats dls k st Train) as [e1|]; simpl; [|discriminate].
  rewrite run_phase_stats.
  match goal with |- context [phase_stats dls k ?s Val] =>
    destruct (phase_stats dls k s Val) as [e2|] end; simpl; [|discriminate].
  intros [= <-]. exists (epoch_loss e2).
  destruct (F64.ltb (epoch_loss e2) (best_loss st)); simpl; auto.
Qed.

Lemma run_epoch_ok dls scheduler st k :
  dataset_len (dl_train dls) <> 0%nat -> dataset_len (dl_val dls) <> 0%nat ->
  exists st', run_epoch dls scheduler st k = Ok st'.
Proof.
  intros Ht Hv.
  rewrite run_epoch_phases, run_phase_stats.
  destruct (phase_stats_ok dls k st Train Ht) as [e1 ->]. simpl.
  rewrite run_phase_stats.
  match goal with |- context [phase_stats dls k ?s Val] =>
    destruct (phase_stats_ok dls k s Val Hv) as [e2 ->] end.
  eexists; reflexivity.
Qed.

Lemma train_epochs_ok dls scheduler m n :
  dataset_len (dl_train dls) <> 0%nat -> dataset_len (dl_val dls) <> 0%nat ->
  exists st, train_epochs dls scheduler m n = Ok st.
Proof.
  intros Ht Hv. induction n as [|n [st IH]].
  - eexists; reflexivity.
  - rewrite train_epochs_S, IH. simpl. now apply run_epoch_ok.
Qed.

End BestLossFacts.

Section RetainedFacts.
Context {L : Learner}.

Lemma none_below_snoc (log : list (float * weights)) l w b :
  none_below log b -> F64.ltb l b = false -> none_below (log ++ [(l, w)]) b.
Proof.
  intros Hlog Hl l1 w1 Hin.
  apply elem_of_app in Hin as [Hin|Hin].
  - eapply Hlog, Hin.
  - apply list_elem_of_singleton in Hin. congruence.
Qed.

Lemma none_below_lower (log : list (float * weights)) l b :
  none_below log b -> F64.ltb l b = true -> none_below log l.
Proof.
  intros Hlog Hl l1 w1 Hin.
  destruct (F64.ltb l1 l) eqn:E; [|reflexivity].
  rewrite <- (Hlog l1 w1 Hin). symmetry. eapply ltb_trans; eassumption.
Qed.

(** The loss the loop holds is never above [1e8] and never NaN. *)
Lemma retained_bound w0 (log : list (float * weights)) b bw :
  retained w0 log b bw -> F64.leb b f1e8 = true /\ is_nan b = false.
Proof.
  intros [_ [(_ & -> & _)|(k & _ & Hlt & _)]].
  - split; reflexivity.
  - split; [now apply ltb_leb | eapply ltb_not_nan_l; eassumption].
Qed.

(** One more validation phase keeps [retained]. *)
Lemma retained_snoc w0 (log : list (float * weights)) b bw l w :
  retained w0 log b bw ->
  retained w0 (log ++ [(l, w)])
    (if F64.ltb l b then l else b) (if F64.ltb l b then w else bw).
Proof.
  intros Hr. pose proof (retained_bound _ _ _ _ Hr) as [Hb _].
  destruct Hr as [Hnb Hr].
  destruct (F64.ltb l b) eqn:Hl.
  - split.
    + apply none_below_snoc; [eapply none_below_lower; eassumption|apply ltb_irrefl].
    + right. exists (length log). split; [|split].
      * rewrite lookup_app_r by lia. now rewrite Nat.sub_diag.
      * eapply ltb_leb_trans; eassumption.
      * intros j l1 w1 Hj Hlook.
        rewrite lookup_app_l in Hlook by exact Hj.
        destruct (F64.leb l1 l) eqn:E; [|reflexivity].
        assert (Hin : (l1, w1) ∈ log) by (apply list_elem_of_lookup; eauto).
        rewrite <- (Hnb l1 w1 Hin). symmetry. eapply leb_ltb_trans; eassumption.
  - split; [now apply none_below_snoc|].
    destruct Hr as [(Hn8 & -> & ->)|(k & Hk & Hlt & Hfirst)].
    + left. split; [now apply none_below_snoc|split; reflexivity].
    + right. exists k. pose proof (lookup_lt_Some _ _ _ Hk) as Hlen.
      split; [|split]; [now rewrite lookup_app_l|exact Hlt|].
      intros j l1 w1 Hj Hlook.
      rewrite lookup_app_l in Hlook by lia. eapply Hfirst; eassumption.
Qed.

Lemma train_epochs_retained dls scheduler m n : forall st,
  train_epochs dls scheduler m n = Ok st ->
  length (val_log st) = n /\
  retained (params m) (val_log st) (best_loss st) (best_model_wts st).
Proof.
  induction n as [|n IH]; intros st.
  - intros [= <-]. simpl. split; [reflexivity|].
    split; [|left; split; [|split; reflexivity]];
      intros l w Hin; now apply elem_of_nil in Hin.
  - rewrite train_epochs_S.
    destruct (train_epochs dls scheduler m n) as [st0|]; simpl; [|discriminate].
    intros Hrun. destruct (IH st0 eq_refl) as [Hlen Hr].
    apply run_epoch_inv in Hrun as [l [Hlog Hbest]].
    rewrite Hlog. split; [rewrite length_app; simpl; lia|].
    pose proof (retained_snoc _ _ _ _ l (params (model st)) Hr) as Hr'.
    destruct (F64.ltb l (best_loss st0)); destruct Hbest as [-> ->]; exact Hr'.
Qed.

(** From one epoch to the next the best loss does not increase, and it
    changes only to a validation loss strictly below it. *)
Lemma best_loss_step dls scheduler m k st st' :
  train_epochs dls scheduler m k = Ok st ->
  train_epochs dls scheduler m (S k) = Ok st' ->
  F64.leb (best_loss st') (best_loss st) = true /\
  exists l w, val_log st' = val_log st ++ [(l, w)] /\
              best_loss st' = if F64.ltb l (best_loss st) then l else best_loss st.
Proof.
  intros Hk HS. rewrite train_epochs_S, Hk in HS. simpl in HS.
  destruct (train_epochs_retained _ _ _ _ _ Hk) as [_ Hr].
  apply retained_bound in Hr as [_ Hnan].
  apply run_epoch_inv in HS as [l [Hlog Hbest]].
  destruct (F64.ltb l (best_loss st)) eqn:Hl; destruct Hbest as [Hb _].
  - split; [rewrite Hb; now apply ltb_leb|].
    exists l, (params (model st')). now rewrite Hl.
  - split; [rewrite Hb; now apply leb_refl|].
    exists l, (params (model st')). now rewrite Hl.
Qed.

End RetainedFacts.

(** C1 (amended). For a run of [train_model] over [num_epochs >= 1] epochs
    on non-empty datasets: the run returns; from each epoch to the next
    [best_loss] does not increase, and it changes only to a validation epoch
    loss strictly below it; the weights loaded into the returned model are
    those of the first epoch whose validation loss is below [1e8] and has no
    other validation loss strictly below it, and they are the weights the
    model had before training when no validation loss is below [1e8]. *)
Theorem train_model_retains_best_validation_loss
    `{L : Learner} (dls : DataLoaders) (scheduler : option (float -> optim -> optim))
    (m : trainer) (num_epochs : nat) :
  (num_epochs <> 0%nat -> dataset_len (dl_train dls) <> 0%nat ->
   dataset_len (dl_val dls) <> 0%nat ->
   exists st, train_epochs dls scheduler m num_epochs = Ok st /\
              train_model dls scheduler m num_epochs =
              Ok (load_state_dict (best_model_wts st) (model st))) /\
  (forall k st st',
     train_epochs dls scheduler m k = Ok st ->
     train_epochs dls scheduler m (S k) = Ok st' ->
     F64.leb (best_loss st') (best_loss st) = true /\
     exists l w, val_log st' = val_log st ++ [(l, w)] /\
                 best_loss st' = if F64.ltb l (best_loss st) then l else best_loss st) /\
  (forall st t,
     train_epochs dls scheduler m num_epochs = Ok st ->
     train_model dls scheduler m num_epochs = Ok t ->
     length (val_log st) = num_epochs /\
     retained (params m) (val_log st) (best_loss st) (params t)).
Proof.
  split; [|split].
  - intros Hn Ht Hv.
    destruct (train_epochs_ok dls scheduler m num_epochs Ht Hv) as [st Hst].
    exists st. split; [exact Hst|].
    unfold train_model. rewrite Hst. simpl.
    destruct (Nat.eqb_spec num_epochs 0); [contradiction|reflexivity].
  - apply best_loss_step.
  - intros st t Hst Ht.
    unfold train_model in Ht. rewrite Hst in Ht. simpl in Ht.
    destruct (num_epochs =? 0)%nat; [discriminate|].
    injection Ht as <-. simpl.
    eapply train_epochs_retained; eassumption.
Qed.

(** A run of three epochs whose validation losses are 1, 0 and 1: the
    weights of the second epoch are returned. *)
Lemma train_model_retains_best_validation_loss_witness :
  let loss := fun w => (w - 2) * (w - 2) in
  exists st t,
    train_epochs (toy_loaders loss) None (toy_model loss) 3 = Ok st /\
    train_model (toy_loaders loss) None (toy_model loss) 3 = Ok t /\
    map fst (val_log st) = [of_Z 1; of_Z 0; of_Z 1] /\
    params t = 2 /\
    retained (params (toy_model loss)) (val_log st) (best_loss st) (params t).
Proof.
  intros loss.
  pose proof (train_model_retains_best_validation_loss
                (toy_loaders loss) None (toy_model loss) 3) as H.
  destruct H as [H1 [_ H3]].
  destruct H1 as [st [Hst Ht]]; [discriminate..|].
  exists st, (load_state_dict (best_model_wts st) (model st)).
  assert (Hlog : rmap (fun s => map fst (val_log s))
                   (train_epochs (toy_loaders loss) None (toy_model loss) 3)
                 = Ok [of_Z 1; of_Z 0; of_Z 1]) by (vm_compute; reflexivity).
  assert (Hp : rmap params (train_model (toy_loaders loss) None (toy_model loss) 3)
               = Ok 2) by (vm_compute; reflexivity).
  rewrite Hst in Hlog. rewrite Ht in Hp.
  injection Hlog as Hlog. injection Hp as Hp.
  split; [exact Hst|]. split; [exact Ht|].
  split; [exact Hlog|]. split; [exact Hp|].
  exact (proj2 (H3 _ _ Hst Ht)).
Defined.

(** C1 as worded fails: with a validation loss of 2e8 in the only epoch,
    the weights returned are the initial ones (0), not those logged at that
    epoch (1), the epoch of the minimum. *)
Lemma losses_above_1e8_restore_initial_weights :
  let loss := fun _ : Z => 200000000 in
  train_model (toy_loaders loss) None (toy_model loss) 1 =
    Ok (@Build_trainer (toy_learner loss) 0 tt) /\
  (st <- train_epochs (toy_loaders loss) None (toy_model loss) 1 ;; Ok (val_log st)) =
    Ok [(of_Z 200000000, 1)] /\
  ~ @logged_at_minimum (toy_learner loss) [(of_Z 200000000, 1)] 0.
Proof.
  intros loss. split; [vm_compute; reflexivity|].
  split; [vm_compute; reflexivity|].
  intros (k & l & Hk & _).
  destruct k as [|k]; simpl in Hk; [|destruct k; discriminate].
  discriminate.
Qed.

(** ** The error monad and lists *)

Lemma is_ok_inv {A : Type} (m : result A) : is_ok m = true -> exists a, m = Ok a.
Proof. destruct m; [eauto|discriminate]. Qed.

Lemma mapM_ext {A C : Type} (f g : A -> result C) (l : list A) :
  (forall a, a ∈ l -> f a = g a) -> mapM f l = mapM g l.
Proof.
  induction l as [|a l IH]; intros H; simpl; [reflexivity|].
  rewrite (H a) by apply list_elem_of_here.
  rewrite IH; [reflexivity|].
  intros a' Ha'. apply H. now apply list_elem_of_further.
Qed.

Lemma rmap_mapM {A C D : Type} (f : A -> result C) (h : C -> D) (l : list A) :
  rmap (map h) (mapM f l) = mapM (fun a => rmap h (f a)) l.
Proof.
  induction l as [|a l IH]; simpl; [reflexivity|].
  destruct (f a) as [c|e]; simpl; [|reflexivity].
  rewrite <- IH. destruct (mapM f l); reflexivity.
Qed.

Lemma mapM_map {A A' C : Type} (f : A' -> result C) (h : A -> A') (l : list A) :
  mapM f (map h l) = mapM (fun a => f (h a)) l.
Proof.
  induction l as [|a l IH]; simpl; [reflexivity|]. now rewrite IH.
Qed.

Lemma mapM_length {A C : Type} (f : A -> result C) (l : list A) (out : list C) :
  mapM f l = Ok out -> length out = length l.
Proof.
  revert out. induction l as [|a l IH]; intros out; simpl.
  - now intros [= <-].
  - destruct (f a); simpl; [|discriminate].
    destruct (mapM f l) as [bs|]; simpl; [|discriminate].
    intros [= <-]. simpl. now rewrite (IH bs).
Qed.

Lemma mapM_lookup {A C : Type} (f : A -> result C) (l : list A) (out : list C) i c :
  mapM f l = Ok out -> out !! i = Some c ->
  exists a, l !! i = Some a /\ f a = Ok c.
Proof.
  revert out i. induction l as [|a l IH]; intros out i; simpl.
  - intros [= <-]. now rewrite lookup_nil.
  - destruct (f a) as [b|] eqn:Ea; simpl; [|discriminate].
    destruct (mapM f l) as [bs|]; simpl; [|discriminate].
    intros [= <-]. destruct i as [|i]; simpl.
    + intros [= <-]. eauto.
    + intros Hi. eapply IH; [reflexivity|exact Hi].
Qed.

Lemma mapM_ok {A C : Type} (f : A -> result C) (l : list A) :
  (forall a, a ∈ l -> exists c, f a = Ok c) -> exists out, mapM f l = Ok out.
Proof.
  induction l as [|a l IH]; intros H; simpl; [eauto|].
  destruct (H a) as [c ->]; [apply list_elem_of_here|]. simpl.
  destruct IH as [out ->]; [|simpl; eauto].
  intros a' Ha'. apply H. now apply list_elem_of_further.
Qed.

(** The first failing element decides the exception. *)
Lemma mapM_raise {A C : Type} (f : A -> result C) (l : list A) e :
  l <> [] -> (forall a, a ∈ l -> f a = Raise e) -> mapM f l = Raise e.
Proof.
  destruct l as [|a l]; [congruence|]. intros _ H. simpl.
  rewrite (H a) by apply list_elem_of_here. reflexivity.
Qed.

(** Every failing element raising [e], one failing element makes the whole
    list raise [e]. *)
Lemma mapM_some_raise {A C : Type} (f : A -> result C) (l : list A) e :
  (forall a, a ∈ l -> is_ok (f a) = false -> f a = Raise e) ->
  (exists a, a ∈ l /\ is_ok (f a) = false) ->
  mapM f l = Raise e.
Proof.
  induction l as [|a l IH]; intros Hall [b [Hb Hf]].
  - now apply elem_of_nil in Hb.
  - simpl. destruct (f a) as [c|e'] eqn:Ha.
    + simpl. rewrite IH; [reflexivity| |].
      * intros a' Ha'. apply Hall. now apply list_elem_of_further.
      * apply elem_of_cons in Hb as [->|Hb]; [rewrite Ha in Hf; discriminate|eauto].
    + rewrite <- Ha. rewrite (Hall a); [reflexivity|apply list_elem_of_here|].
      now rewrite Ha.
Qed.

(** ** Arrays *)

Lemma numel_app sh sh' : numel (sh ++ sh') = (numel sh * numel sh')%nat.
Proof.
  induction sh as [|d sh IH]; simpl; [lia|]. rewrite IH. lia.
Qed.

Lemma numel_rev sh : numel (rev sh) = numel sh.
Proof.
  induction sh as [|d sh IH]; simpl; [reflexivity|].
  rewrite numel_app, IH. simpl. lia.
Qed.

Lemma chunks_length n k l : length (chunks n k l) = n.
Proof.
  revert l. induction n as [|n IH]; intros l; simpl; [reflexivity|].
  now rewrite IH.
Qed.

Lemma chunks_rows n k l row :
  (n * k <= length l)%nat -> row ∈ chunks n k l -> length row = k.
Proof.
  revert l. induction n as [|n IH]; intros l Hl; simpl.
  - intros H. now apply elem_of_nil in H.
  - intros H. apply elem_of_cons in H as [->|H].
    + rewrite length_firstn. lia.
    + apply (IH (skipn k l)); [|exact H]. rewrite length_skipn. lia.
Qed.

Lemma flat_map_length_const {A C : Type} (f : A -> list C) (l : list A) (c : nat) :
  (forall a, a ∈ l -> length (f a) = c) ->
  length (flat_map f l) = (length l * c)%nat.
Proof.
  induction l as [|a l IH]; intros H; simpl; [reflexivity|].
  rewrite length_app, (H a) by apply list_elem_of_here.
  rewrite IH; [lia|]. intros a' Ha'. apply H. now apply list_elem_of_further.
Qed.

Section PipelineFacts.
Context {B : Backend}.

Lemma draws_length draw n : forall r, length (fst (draws draw n r)) = n.
Proof.
  induction n as [|n IH]; intros r; simpl; [reflexivity|].
  destruct (draw r) as [x r1]. specialize (IH r1).
  destruct (draws draw n r1) as [xs r2]. simpl in *. now rewrite IH.
Qed.

Lemma draw_array_eq draw sh r :
  draw_array draw sh r =
  Ok ({| shape := sh; data := fst (draws draw (numel sh) r) |},
      snd (draws draw (numel sh) r)).
Proof.
  unfold draw_array. destruct (draws draw (numel sh) r); reflexivity.
Qed.

(** Seeding forgets the state it finds. *)
Lemma np_random_seed_forgets seed r1 r2 :
  np_random_seed seed r1 = np_random_seed seed r2.
Proof. reflexivity. Qed.

Lemma seeded_forgets {A : Type} seed (k : unit -> np A) r1 r2 :
  np_bind (np_random_seed seed) k r1 = np_bind (np_random_seed seed) k r2.
Proof. reflexivity. Qed.

Lemma np_random_seed_in_range seed r :
  0 <= seed < 2 ^ 32 -> np_random_seed seed r = Ok (tt, np_seed seed).
Proof.
  intros [H1 H2]. unfold np_random_seed.
  destruct (Z.leb_spec 0 seed); [|lia].
  destruct (Z.ltb_spec seed (2 ^ 32)); [reflexivity|lia].
Qed.

(** [linear] on shapes. *)
Lemma linear_shape_of w z :
  rmap shape (linear w z) = linear_shape (shape w) (shape z).
Proof.
  unfold linear, linear_shape.
  destruct (shape w) as [|out [|inn [|? ?]]]; try reflexivity;
    destruct (rev (shape z)) as [|last lead]; try reflexivity.
  destruct (last =? inn)%nat; reflexivity.
Qed.

Lemma linear_wf w z y : linear w z = Ok y -> wf_array y.
Proof.
  unfold linear, wf_array.
  destruct (shape w) as [|out [|inn [|? ?]]]; try discriminate;
    destruct (rev (shape z)) as [|last lead]; try discriminate.
  destruct (last =? inn)%nat; [|discriminate].
  intros [= <-]. simpl.
  rewrite numel_app, numel_rev. simpl.
  rewrite (flat_map_length_const _ _ out).
  - rewrite chunks_length. lia.
  - intros row _. now rewrite length_map, chunks_length.
Qed.

End PipelineFacts.

(** ** The generator *)

Section GeneratorFacts.
Context {B : Backend}.

Lemma draw_array_shape draw sh r a r' :
  draw_array draw sh r = Ok (a, r') -> shape a = sh /\ wf_array a.
Proof.
  rewrite draw_array_eq. intros [= <- _]. split; [reflexivity|].
  unfold wf_array. simpl. apply draws_length.
Qed.

Lemma FloatTensor_wf a : wf_array a -> wf_array (FloatTensor a).
Proof. unfold wf_array. simpl. now rewrite length_map. Qed.

(** The loop of [__init__] never raises; under the shapes of the SVD every
    weight is [n_feats] by [lat_dim]. *)
Lemma init_weights_ok lat nf n : forall r,
  svd_shapes B ->
  exists ws r', init_weights lat nf n r = Ok (ws, r') /\
                length ws = n /\
                forall w, w ∈ ws -> shape w = [nf; lat] /\ wf_array w.
Proof.
  induction n as [|n IH]; intros r Hsvd.
  - exists [], r. split; [reflexivity|]. split; [reflexivity|].
    intros w Hw. now apply elem_of_nil in Hw.
  - simpl. unfold np_bind at 1. unfold np_random_uniform.
    rewrite draw_array_eq.
    set (w_ := {| shape := [nf; lat]; data := _ |}).
    set (r1 := snd _).
    assert (Hw_ : wf_array w_) by (unfold wf_array; simpl; apply draws_length).
    pose proof (Hsvd w_ nf lat eq_refl Hw_) as Hs.
    destruct (svd w_) as [[u s] vt].
    destruct Hs as (Hu & Hwu & Hvt & Hwvt).
    destruct (IH r1 Hsvd) as (ws & r' & Hws & Hlen & Hall).
    unfold np_bind. rewrite Hws. simpl.
    eexists _, _. split; [reflexivity|]. split; [simpl; now rewrite Hlen|].
    intros w Hw. apply elem_of_cons in Hw as [->|Hw]; [|now apply Hall].
    destruct (Nat.leb_spec lat nf).
    + split; [simpl; rewrite Hu; f_equal; f_equal; lia|now apply FloatTensor_wf].
    + split; [simpl; rewrite Hvt; f_equal; lia|now apply FloatTensor_wf].
Qed.

(** [__init__] seeds the generator first: the state it finds is forgotten. *)
Lemma GeneratorUniform_init_forgets lat nc nf seed r1 r2 :
  GeneratorUniform_init lat nc nf seed r1 = GeneratorUniform_init lat nc nf seed r2.
Proof. unfold GeneratorUniform_init. apply seeded_forgets. Qed.

Lemma GeneratorUniform_init_inv lat nc nf seed r g r' :
  svd_shapes B ->
  GeneratorUniform_init lat nc nf seed r = Ok (g, r') ->
  gen_lat_dim g = lat /\ gen_n_channels g = nc /\ gen_n_feats g = nf /\
  wf_generator g.
Proof.
  intros Hsvd. unfold GeneratorUniform_init, np_bind at 1.
  destruct (np_random_seed seed r) as [[[] r0]|]; [|discriminate].
  unfold np_bind.
  destruct (init_weights_ok lat nf nc r0 Hsvd) as (ws & r1 & -> & Hlen & Hall).
  unfold np_ret. intros [= <- _]. simpl.
  repeat split; try reflexivity; [exact Hlen| |]; now apply Hall.
Qed.

Lemma GeneratorUniform_init_ok lat nc nf seed r :
  svd_shapes B -> 0 <= seed < 2 ^ 32 ->
  exists g r', GeneratorUniform_init lat nc nf seed r = Ok (g, r').
Proof.
  intros Hsvd Hseed. unfold GeneratorUniform_init, np_bind at 1.
  rewrite np_random_seed_in_range by exact Hseed.
  unfold np_bind.
  destruct (init_weights_ok lat nf nc (np_seed seed) Hsvd) as (ws & r1 & -> & _).
  unfold np_ret. eauto.
Qed.

End GeneratorFacts.

(** ** The small backend meets the shapes of the SVD *)

Lemma eye_wf m k : wf_array (eye m k).
Proof.
  unfold wf_array, eye. simpl.
  rewrite (flat_map_length_const _ _ k).
  - rewrite length_seq. lia.
  - intros i _. now rewrite length_map, length_seq.
Qed.

Lemma toy_svd_shapes : svd_shapes toy_backend.
Proof.
  intros a m n Ha _. simpl. unfold toy_svd. rewrite Ha.
  repeat split; apply eye_wf.
Qed.

(** ** Constructing a generator *)

(** X1. Whatever state numpy's global generator is in, and whichever of [u]
    and [vt] the constructor keeps, a generator that is built has its four
    attributes as given and one weight per channel, each of shape
    [n_feats] by [lat_dim]; the seed must lie in [0, 2^32), otherwise
    [np.random.seed] raises [ValueError]. *)
Theorem generator_init_weights `{B : Backend}
    (lat_dim n_channels n_feats : nat) (seed : Z) (r : rng) :
  svd_shapes B ->
  if (0 <=? seed) && (seed <? 2 ^ 32)
  then exists g r',
         GeneratorUniform_init lat_dim n_channels n_feats seed r = Ok (g, r') /\
         gen_lat_dim g = lat_dim /\ gen_n_channels g = n_channels /\
         gen_n_feats g = n_feats /\ gen_seed g = seed /\
         length (gen_W g) = n_channels /\
         forall w, w ∈ gen_W g -> shape w = [n_feats; lat_dim] /\ wf_array w
  else GeneratorUniform_init lat_dim n_channels n_feats seed r = Raise ValueError.
Proof.
  intros Hsvd.
  destruct ((0 <=? seed) && (seed <? 2 ^ 32)) eqn:Hs.
  - assert (Hr : 0 <= seed < 2 ^ 32) by lia.
    destruct (GeneratorUniform_init_ok lat_dim n_channels n_feats seed r Hsvd Hr)
      as (g & r' & Hg).
    pose proof (GeneratorUniform_init_inv _ _ _ _ _ _ _ Hsvd Hg)
      as (H1 & H2 & H3 & Hlen & Hall).
    exists g, r'. rewrite H2 in Hlen. rewrite H1, H3 in Hall.
    repeat split; try assumption; try (now apply Hall).
    revert Hg. unfold GeneratorUniform_init, np_bind at 1.
    destruct (np_random_seed seed r) as [[[] r0]|]; [|discriminate].
    unfold np_bind.
    destruct (init_weights lat_dim n_feats n_channels r0) as [[ws r1]|]; [|discriminate].
    unfold np_ret. now intros [= <- _].
  - unfold GeneratorUniform_init, np_bind at 1, np_random_seed.
    now rewrite Hs.
Qed.

(** A generator with two latent dimensions, three channels of four
    features, seed 100, on the small backend. *)
Lemma generator_init_weights_witness :
  exists g r',
    @GeneratorUniform_init toy_backend 2 3 4 100 0 = Ok (g, r') /\
    gen_lat_dim g = 2%nat /\ gen_n_channels g = 3%nat /\
    gen_n_feats g = 4%nat /\ gen_seed g = 100 /\
    length (gen_W g) = 3%nat /\
    forall w, w ∈ gen_W g -> shape w = [4%nat; 2%nat] /\ wf_array w.
Proof.
  exact (generator_init_weights (B := toy_backend) 2 3 4 100 0 toy_svd_shapes).
Defined.

(** ** [forward] *)

Section ForwardFacts.
Context {B : Backend}.

Lemma linear_ok w z out inn lead :
  shape w = [out; inn] -> shape z = lead ++ [inn] ->
  exists y, linear w z = Ok y /\ shape y = lead ++ [out] /\ wf_array y.
Proof.
  intros Hw Hz.
  assert (Hs : linear_shape (shape w) (shape z) = Ok (lead ++ [out])).
  { unfold linear_shape. rewrite Hw, Hz, rev_app_distr. simpl.
    now rewrite Nat.eqb_refl, rev_involutive. }
  rewrite <- linear_shape_of in Hs.
  destruct (linear w z) as [y|] eqn:Hy; [|discriminate].
  injection Hs as Hs. exists y. split; [reflexivity|]. split; [exact Hs|].
  eapply linear_wf; eassumption.
Qed.

Lemma linear_mismatch w z out inn lead e :
  shape w = [out; inn] -> shape z = lead ++ [e] -> e <> inn ->
  linear w z = Raise RuntimeError.
Proof.
  intros Hw Hz He.
  assert (Hs : linear_shape (shape w) (shape z) = Raise RuntimeError).
  { unfold linear_shape. rewrite Hw, Hz, rev_app_distr. simpl.
    destruct (Nat.eqb_spec e inn); [contradiction|reflexivity]. }
  rewrite <- linear_shape_of in Hs.
  destruct (linear w z); [discriminate|]. injection Hs as ->. reflexivity.
Qed.

Lemma generator_weight g ch :
  wf_generator g -> ch ∈ seq 0 (gen_n_channels g) ->
  exists w, index (gen_W g) ch = Ok w /\
            shape w = [gen_n_feats g; gen_lat_dim g].
Proof.
  intros [Hlen Hall] Hch. apply elem_of_seq in Hch.
  destruct (lookup_lt_is_Some_2 (gen_W g) ch) as [w Hw]; [lia|].
  exists w. unfold index. rewrite Hw. split; [reflexivity|].
  apply Hall. apply list_elem_of_lookup. eauto.
Qed.

(** The loop over the channels for a float32 tensor whose last dimension
    is [lat_dim]. *)
Lemma forward_channels_ok g z lead :
  wf_generator g -> shape z = lead ++ [gen_lat_dim g] ->
  exists obs, forward_channels g Float32 z = Ok obs /\
              length obs = gen_n_channels g /\
              forall x, x ∈ obs -> shape x = lead ++ [gen_n_feats g] /\ wf_array x.
Proof.
  intros Hg Hz. unfold forward_channels.
  destruct (mapM_ok (fun ch => w <- index (gen_W g) ch ;; apply_linear Float32 w z)
                    (seq 0 (gen_n_channels g))) as [obs Hobs].
  { intros ch Hch. destruct (generator_weight g ch Hg Hch) as (w & -> & Hw).
    simpl. destruct (linear_ok w z _ _ _ Hw Hz) as (y & -> & _). eauto. }
  exists obs. split; [exact Hobs|].
  split; [rewrite (mapM_length _ _ _ Hobs); apply length_seq|].
  intros x Hx. apply list_elem_of_lookup in Hx as [i Hi].
  destruct (mapM_lookup _ _ _ _ _ Hobs Hi) as (ch & Hch & Hx).
  assert (Hin : ch ∈ seq 0 (gen_n_channels g))
    by (apply list_elem_of_lookup; eauto).
  destruct (generator_weight g ch Hg Hin) as (w & Hw & Hsh).
  rewrite Hw in Hx. simpl in Hx.
  destruct (linear_ok w z _ _ _ Hsh Hz) as (y & Hy & Hys & Hywf).
  rewrite Hy in Hx. injection Hx as <-. now split.
Qed.

(** The loop over the channels, when the last dimension is not [lat_dim]. *)
Lemma forward_channels_mismatch g z lead e :
  wf_generator g -> shape z = lead ++ [e] -> e <> gen_lat_dim g ->
  gen_n_channels g <> 0%nat ->
  forward_channels g Float32 z = Raise RuntimeError.
Proof.
  intros Hg Hz He Hn. unfold forward_channels.
  apply mapM_raise.
  - destruct (gen_n_channels g); [contradiction|discriminate].
  - intros ch Hch. destruct (generator_weight g ch Hg Hch) as (w & -> & Hw).
    simpl. eapply linear_mismatch; eassumption.
Qed.

(** The loop over the channels for a tensor that is not float32: the first
    linear map refuses it. *)
Lemma forward_channels_dtype g dt z :
  wf_generator g -> dt <> Float32 -> gen_n_channels g <> 0%nat ->
  forward_channels g dt z = Raise RuntimeError.
Proof.
  intros Hg Hdt Hn. unfold forward_channels.
  apply mapM_raise.
  - destruct (gen_n_channels g); [contradiction|discriminate].
  - intros ch Hch. destruct (generator_weight g ch Hg Hch) as (w & -> & Hw).
    simpl. destruct dt; try reflexivity. contradiction.
Qed.

Lemma forward_InTensor g dt t :
  forward g (InTensor dt t) = (obs <- forward_tensor g dt t ;; Ok (OutObs obs)).
Proof. reflexivity. Qed.

Lemma forward_InList g l :
  forward g (InList l) = (outs <- mapM (forward g) l ;; Ok (OutList outs)).
Proof.
  simpl. f_equal.
  induction l as [|z l IH]; [reflexivity|].
  simpl. destruct (forward g z); simpl; [|reflexivity].
  now rewrite IH.
Qed.

End ForwardFacts.

(** X2. [forward] on a tensor, for a generator that [__init__] built. A
    tensor of fewer than two dimensions raises [IndexError] (there is no
    [size(1)]); a second dimension other than [lat_dim] fails the
    assertion. Past the assertion the linear maps decide: a float32 tensor
    whose last dimension is [lat_dim] gives one observation per channel,
    each with [n_feats] in place of the last dimension ([n] by [n_feats]
    for [n] rows of [lat_dim] values); a tensor of another element type is
    refused by the first linear map ([RuntimeError]), and so is a tensor
    of more than two dimensions whose last dimension is not [lat_dim];
    only a generator without channel returns the empty list for them. *)
Theorem forward_tensor_cases `{B : Backend}
    (lat_dim n_channels n_feats : nat) (seed : Z) (r r' : rng)
    (g : GeneratorUniform) (dt : dtype) (z : ndarray) :
  svd_shapes B ->
  GeneratorUniform_init lat_dim n_channels n_feats seed r = Ok (g, r') ->
  ((length (shape z) < 2)%nat -> forward g (InTensor dt z) = Raise IndexError) /\
  (forall d, shape z !! 1%nat = Some d -> d <> lat_dim ->
             forward g (InTensor dt z) = Raise AssertionError) /\
  (forall lead, shape z = lead ++ [lat_dim] -> shape z !! 1%nat = Some lat_dim ->
                dt = Float32 ->
                exists obs, forward g (InTensor dt z) = Ok (OutObs obs) /\
                            length obs = n_channels /\
                            forall x, x ∈ obs -> shape x = lead ++ [n_feats] /\ wf_array x) /\
  (shape z !! 1%nat = Some lat_dim -> dt <> Float32 -> n_channels <> 0%nat ->
   forward g (InTensor dt z) = Raise RuntimeError) /\
  (forall lead e, shape z = lead ++ [e] -> shape z !! 1%nat = Some lat_dim ->
                  e <> lat_dim -> n_channels <> 0%nat ->
                  forward g (InTensor dt z) = Raise RuntimeError) /\
  (shape z !! 1%nat = Some lat_dim -> n_channels = 0%nat ->
   forward g (InTensor dt z) = Ok (OutObs [])).
Proof.
  intros Hsvd Hinit.
  destruct (GeneratorUniform_init_inv _ _ _ _ _ _ _ Hsvd Hinit)
    as (Hlat & Hnc & Hnf & Hg).
  rewrite forward_InTensor. unfold forward_tensor, size, index.
  split; [|split; [|split; [|split; [|split]]]].
  - intros Hlen. rewrite lookup_ge_None_2 by lia. reflexivity.
  - intros d -> Hd. simpl. rewrite Hlat.
    destruct (Nat.eqb_spec d lat_dim); [contradiction|reflexivity].
  - intros lead Hz -> ->. simpl. rewrite Hlat, Nat.eqb_refl.
    destruct (forward_channels_ok g z lead Hg) as (obs & -> & Hlen & Hall).
    { now rewrite Hz, Hlat. }
    exists obs. simpl. rewrite Hnc in Hlen. rewrite Hnf in Hall. auto.
  - intros -> Hdt Hn. simpl. rewrite Hlat, Nat.eqb_refl.
    rewrite (forward_channels_dtype g dt z Hg Hdt); [reflexivity|lia].
  - intros lead e Hz -> He Hn. simpl. rewrite Hlat, Nat.eqb_refl.
    destruct dt;
      try (rewrite (forward_channels_dtype g _ z Hg); [reflexivity|discriminate|lia]).
    rewrite (forward_channels_mismatch g z lead e Hg Hz); [reflexivity|lia|lia].
  - intros -> Hn. simpl. rewrite Hlat, Nat.eqb_refl.
    unfold forward_channels. rewrite Hnc, Hn. reflexivity.
Qed.

(** The generator of the script on the small backend: five rows of two
    latent values give three observations of five rows of four features
    as a float32 tensor, and are refused as a float64 tensor. *)
Lemma forward_tensor_cases_witness :
  let z := {| shape := [5%nat; 2%nat]; data := repeat zero 10 |} in
  exists g r' obs,
    @GeneratorUniform_init toy_backend 2 3 4 100 0 = Ok (g, r') /\
    @forward toy_backend g (InTensor Float32 z) = Ok (OutObs obs) /\
    length obs = 3%nat /\
    (forall x, x ∈ obs -> shape x = [5%nat; 4%nat] /\ wf_array x) /\
    @forward toy_backend g (InTensor Float64 z) = Raise RuntimeError.
Proof.
  intros z.
  destruct (GeneratorUniform_init_ok (B := toy_backend) 2 3 4 100 0 toy_svd_shapes)
    as (g & r' & Hg); [lia|].
  pose proof (forward_tensor_cases (B := toy_backend) 2 3 4 100 0 r' g Float32 z
                toy_svd_shapes Hg) as (_ & _ & H & _).
  pose proof (forward_tensor_cases (B := toy_backend) 2 3 4 100 0 r' g Float64 z
                toy_svd_shapes Hg) as (_ & _ & _ & H64 & _).
  destruct (H [5%nat] eq_refl eq_refl eq_refl) as (obs & Hobs & Hlen & Hall).
  exists g, r', obs.
  split; [exact Hg|]. split; [exact Hobs|]. split; [exact Hlen|].
  split; [exact Hall|]. apply H64; [reflexivity|discriminate|discriminate].
Defined.

(** X3. [forward] on a list applies [forward] to every element and returns
    the results in order: the empty list gives the empty list, a result
    that is returned has one entry per element, each the result of
    [forward] on that element, and the first element that raises makes the
    call raise the same exception. *)
Theorem forward_list_elementwise `{B : Backend} (g : GeneratorUniform) :
  forward g (InList []) = Ok (OutList []) /\
  (forall l out, forward g (InList l) = Ok out ->
     exists outs, out = OutList outs /\ length outs = length l /\
       forall i o, outs !! i = Some o ->
                   exists z, l !! i = Some z /\ forward g z = Ok o) /\
  (forall l1 z l2 outs e,
     mapM (forward g) l1 = Ok outs -> forward g z = Raise e ->
     forward g (InList (l1 ++ z :: l2)) = Raise e).
Proof.
  split; [reflexivity|]. split.
  - intros l out. rewrite forward_InList.
    destruct (mapM (forward g) l) as [outs|] eqn:Hm; simpl; [|discriminate].
    intros [= <-]. exists outs. split; [reflexivity|].
    split; [eapply mapM_length; eassumption|].
    intros i o Hi. eapply mapM_lookup; eassumption.
  - intros l1 z l2 outs e H1 Hz. rewrite forward_InList.
    assert (Hm : mapM (forward g) (l1 ++ z :: l2) = Raise e); [|now rewrite Hm].
    clear -H1 Hz. revert outs H1.
    induction l1 as [|a l1 IH]; intros outs H1; simpl.
    + now rewrite Hz.
    + simpl in H1. destruct (forward g a); simpl in *; [|discriminate].
      destruct (mapM (forward g) l1) as [os|]; simpl in *; [|discriminate].
      now rewrite (IH os eq_refl).
Qed.

(** ** Standardizing the channels *)

Lemma mapM_indexed {S A C : Type} (T : S -> A -> result C) (x : list A) :
  forall (scs pre_s : list S) (pre_x : list A),
  length pre_s = length pre_x -> length scs = length x ->
  mapM (fun c => sc <- index (pre_s ++ scs) c ;;
                 arr <- index (pre_x ++ x) c ;; T sc arr)
       (seq (length pre_x) (length x)) =
  mapM (fun p => T (fst p) (snd p)) (combine scs x).
Proof.
  induction x as [|a x IH]; intros scs pre_s pre_x Hpre Hlen.
  - destruct scs; reflexivity.
  - destruct scs as [|s scs]; [discriminate|]. simpl.
    unfold index at 1 2.
    rewrite (list_lookup_middle pre_s scs s (length pre_x)) by now symmetry.
    rewrite (list_lookup_middle pre_x x a (length pre_x)) by reflexivity.
    simpl. destruct (T s a) as [c|]; simpl; [|reflexivity].
    specialize (IH scs (pre_s ++ [s]) (pre_x ++ [a])).
    rewrite !length_app, <- !app_assoc in IH. simpl in IH.
    rewrite !Nat.add_1_r in IH.
    rewrite IH; [reflexivity|lia|]. simpl in Hlen. lia.
Qed.

Lemma mapM_combine {A S C : Type} (f : A -> result S) (T : S -> A -> result C)
    (x : list A) : forall scs,
  mapM f x = Ok scs ->
  mapM (fun p => T (fst p) (snd p)) (combine scs x) =
  mapM (fun a => sc <- f a ;; T sc a) x.
Proof.
  induction x as [|a x IH]; intros scs; simpl.
  - now intros [= <-].
  - destruct (f a) as [s|]; simpl; [|discriminate].
    destruct (mapM f x) as [ss|]; simpl; [|discriminate].
    intros [= <-]. simpl. destruct (T s a); simpl; [|reflexivity].
    now rewrite (IH ss).
Qed.

Section StandardizeFacts.
Context {B : Backend}.

Lemma transform_row_length row : forall mean scale k,
  length row = k -> length mean = k -> length scale = k ->
  length (transform_row row mean scale) = k.
Proof.
  induction row as [|x row IH]; intros [|m mean] [|s scale] k; simpl;
    intros; subst; try discriminate; try reflexivity.
  f_equal. apply IH; congruence.
Qed.

(** The validation raises nothing but [ValueError]. *)
Lemma check_array_raises a :
  is_ok (check_array a) = false -> check_array a = Raise ValueError.
Proof.
  unfold check_array.
  destruct (shape a) as [|n [|k [|? ?]]]; try reflexivity.
  destruct (has_inf a); [reflexivity|].
  destruct ((n =? 0)%nat || (k =? 0)%nat); [reflexivity|discriminate].
Qed.

(** An infinite entry is refused, whatever the shape. *)
Lemma check_array_inf a : has_inf a = true -> check_array a = Raise ValueError.
Proof.
  intros H. unfold check_array. rewrite H.
  destruct (shape a) as [|n [|k [|? ?]]]; reflexivity.
Qed.

(** Without infinite entry the shape decides. *)
Lemma check_array_finite a : has_inf a = false -> check_array a = check_shape (shape a).
Proof.
  intros H. unfold check_array, check_shape. rewrite H.
  destruct (shape a) as [|n [|k [|? ?]]]; reflexivity.
Qed.

(** What the validation accepts. *)
Lemma check_array_ok a :
  is_ok (check_array a) = true <->
  exists n k, shape a = [n; k] /\ n <> 0%nat /\ k <> 0%nat /\ has_inf a = false.
Proof.
  unfold check_array. split.
  - destruct (shape a) as [|n [|k [|? ?]]]; try discriminate.
    destruct (has_inf a); [discriminate|].
    destruct (Nat.eqb_spec n 0); [discriminate|].
    destruct (Nat.eqb_spec k 0); [discriminate|]. intros _. exists n, k. auto.
  - intros (n & k & -> & Hn & Hk & ->).
    destruct (Nat.eqb_spec n 0); [contradiction|].
    destruct (Nat.eqb_spec k 0); [contradiction|]. reflexivity.
Qed.

(** Fitting a scaler to an array and transforming that array with it: the
    validation decides, and the shape is kept. *)
Lemma fit_then_transform a :
  match check_array a with
  | Raise e => StandardScaler_fit a = Raise e
  | Ok (n, k) =>
      exists sc y, StandardScaler_fit a = Ok sc /\
                   StandardScaler_transform sc a = Ok y /\
                   shape a = [n; k] /\ shape y = [n; k] /\
                   (wf_array a -> wf_array y)
  end.
Proof.
  unfold StandardScaler_fit, StandardScaler_transform.
  destruct (check_array a) as [[n k]|e] eqn:Hc; [|reflexivity].
  assert (Hsh : shape a = [n; k]).
  { revert Hc. unfold check_array.
    destruct (shape a) as [|n' [|k' [|? ?]]]; try discriminate.
    destruct (has_inf a); [discriminate|].
    destruct ((n' =? 0)%nat || (k' =? 0)%nat); [discriminate|]. now intros [= <- <-]. }
  cbn [Py.bind].
  eexists _, _. split; [reflexivity|]. cbn [mean_ scale_].
  rewrite !length_map, length_seq, Nat.eqb_refl.
  split; [reflexivity|]. split; [exact Hsh|]. split; [reflexivity|].
  unfold wf_array. rewrite Hsh. simpl. intros Hwf.
  rewrite (flat_map_length_const _ _ k).
  - rewrite chunks_length. lia.
  - intros row Hrow. apply transform_row_length.
    + eapply chunks_rows; [|exact Hrow]. lia.
    + now rewrite !length_map, length_seq.
    + now rewrite !length_map, length_seq.
Qed.

Lemma fit_transform_shape a :
  has_inf a = false ->
  rmap shape (sc <- StandardScaler_fit a ;; StandardScaler_transform sc a) =
  (nk <- check_shape (shape a) ;; Ok [fst nk; snd nk]).
Proof.
  intros Hfin. pose proof (fit_then_transform a) as H.
  rewrite <- (check_array_finite a Hfin).
  destruct (check_array a) as [[n k]|e].
  - destruct H as (sc & y & -> & Hy & _ & Hs & _). simpl. rewrite Hy. simpl.
    now rewrite Hs.
  - now rewrite H.
Qed.

Lemma standardize_eq x :
  standardize x =
  mapM (fun a => sc <- StandardScaler_fit a ;; StandardScaler_transform sc a) x.
Proof.
  unfold standardize.
  destruct (mapM StandardScaler_fit x) as [scs|e] eqn:Hfit; simpl.
  - rewrite <- (mapM_combine _ StandardScaler_transform x scs Hfit).
    apply (mapM_indexed StandardScaler_transform x scs [] []); [reflexivity|].
    eapply mapM_length; eassumption.
  - revert Hfit. induction x as [|a x IH]; simpl; [discriminate|].
    pose proof (fit_then_transform a) as H.
    destruct (check_array a) as [[n k]|e'].
    + destruct H as (sc & y & Hf & Ht & _).
      rewrite Hf. cbn [Py.bind]. rewrite Ht. cbn [Py.bind].
      destruct (mapM StandardScaler_fit x); cbn [Py.bind]; [discriminate|].
      intros [= ->]. now rewrite <- IH.
    + rewrite H. cbn [Py.bind]. now intros [= ->].
Qed.

(** For channels without infinite entry, the shapes of the standardized
    channels, and whether standardizing raises, depend on the shapes of
    the channels only. *)
Lemma standardize_shapes x :
  (forall a, a ∈ x -> has_inf a = false) ->
  rmap (map shape) (standardize x) = standardized_shapes (map shape x).
Proof.
  intros Hfin. rewrite standardize_eq, rmap_mapM. unfold standardized_shapes.
  rewrite mapM_map. apply mapM_ext. intros a Ha. apply fit_transform_shape.
  now apply Hfin.
Qed.

Lemma fit_transform_ok a :
  is_ok (sc <- StandardScaler_fit a ;; StandardScaler_transform sc a) =
  is_ok (check_array a).
Proof.
  pose proof (fit_then_transform a) as H.
  destruct (check_array a) as [[n k]|e].
  - destruct H as (sc & y & -> & Hy & _). cbn [Py.bind]. now rewrite Hy.
  - now rewrite H.
Qed.

(** A channel the validation refuses makes the standardization raise
    [ValueError]. *)
Lemma standardize_invalid x :
  (exists a, a ∈ x /\ is_ok (check_array a) = false) ->
  standardize x = Raise ValueError.
Proof.
  intros (a & Ha & Hbad). rewrite standardize_eq. apply mapM_some_raise.
  - intros b _. rewrite fit_transform_ok. intros Hb.
    pose proof (fit_then_transform b) as H.
    rewrite (check_array_raises b Hb) in H. now rewrite H.
  - exists a. split; [exact Ha|]. now rewrite fit_transform_ok.
Qed.

Lemma standardize_valid x :
  (forall a, a ∈ x -> is_ok (check_array a) = true) ->
  exists x_std, standardize x = Ok x_std /\ length x_std = length x.
Proof.
  intros Hall.
  destruct (mapM_ok (fun a => sc <- StandardScaler_fit a ;; StandardScaler_transform sc a) x)
    as [x_std Hstd].
  { intros a Ha. specialize (Hall a Ha). rewrite <- fit_transform_ok in Hall.
    destruct (sc <- StandardScaler_fit a ;; StandardScaler_transform sc a);
      [eauto|discriminate]. }
  exists x_std. rewrite standardize_eq. split; [exact Hstd|].
  eapply mapM_length; eassumption.
Qed.

(** The channels of a standardization that returns passed the validation. *)
Lemma standardize_checked x x_std :
  standardize x = Ok x_std -> forall a, a ∈ x -> is_ok (check_array a) = true.
Proof.
  intros Hstd a Ha. destruct (is_ok (check_array a)) eqn:Hc; [reflexivity|].
  rewrite (standardize_invalid x) in Hstd; [discriminate|eauto].
Qed.

Lemma standardize_finite x x_std :
  standardize x = Ok x_std -> forall a, a ∈ x -> has_inf a = false.
Proof.
  intros Hstd a Ha. pose proof (standardize_checked _ _ Hstd a Ha) as Hc.
  destruct (has_inf a) eqn:Hi; [|reflexivity].
  now rewrite (check_array_inf a Hi) in Hc.
Qed.

Lemma standardize_inf x :
  (exists a, a ∈ x /\ has_inf a = true) -> standardize x = Raise ValueError.
Proof.
  intros (a & Ha & Hi). apply standardize_invalid.
  exists a. split; [exact Ha|]. now rewrite (check_array_inf a Hi).
Qed.

End StandardizeFacts.

(** ** The noise *)

Section NoiseFacts.
Context {B : Backend}.

(** The noise arrays of the loop depend on the shapes of the arrays they
    are added to, not on their contents. *)
Lemma noise_loop_fst snr xs : forall c r,
  np_map (map fst) (noise_loop snr c xs) r = noise_of_shapes snr c (map shape xs) r.
Proof.
  induction xs as [|arr xs IH]; intros c r; [reflexivity|].
  cbn [noise_loop noise_of_shapes map]. unfold np_map, np_bind in *.
  destruct (lift _ r) as [[sigma r1]|]; [|reflexivity].
  destruct (np_random_randn (shape arr) r1) as [[e r2]|]; [|reflexivity].
  specialize (IH (S c) r2).
  destruct (noise_loop snr (S c) xs r2) as [[tl r3]|];
    destruct (noise_of_shapes snr (S c) (map shape xs) r2) as [[tl' r3']|];
    try discriminate.
  - injection IH as <- <-. reflexivity.
  - injection IH as <-. reflexivity.
Qed.

(** Every noisy array is the array plus its noise. *)
Lemma noise_loop_snd snr xs : forall c r out r',
  noise_loop snr c xs r = Ok (out, r') ->
  length out = length xs /\ map snd out = map2 add_arrays xs (map fst out).
Proof.
  induction xs as [|arr xs IH]; intros c r out r'.
  - intros [= <- _]. split; reflexivity.
  - cbn [noise_loop]. unfold np_bind.
    destruct (lift _ r) as [[sigma r1]|]; [|discriminate].
    destruct (np_random_randn (shape arr) r1) as [[e r2]|]; [|discriminate].
    destruct (noise_loop snr (S c) xs r2) as [[tl r3]|] eqn:Htl; [|discriminate].
    intros [= <- _]. destruct (IH _ _ _ _ Htl) as [Hlen Hsnd].
    split; [simpl; now rewrite Hlen|]. simpl. now rewrite Hsnd.
Qed.

Lemma noise_seed_shapes x snr seed :
  noise_seed x snr seed = noise_seed_of_shapes (map shape x) snr seed.
Proof.
  unfold noise_seed, noise_seed_of_shapes.
  destruct (index snr 0) as [snr0|]; [|reflexivity]. cbn [Py.bind].
  destruct (int (add_one snr0)) as [k|]; [|reflexivity]. cbn [Py.bind].
  rewrite length_map. destruct x as [|x0 x]; reflexivity.
Qed.

(** The noise of a call on channels without infinite entry depends on the
    channels through their shapes only, and not on the state the global
    generator is found in. *)
Lemma added_noise_shapes x snr seed r :
  (forall a, a ∈ x -> has_inf a = false) ->
  added_noise x snr seed r = added_noise_of_shapes (map shape x) snr seed r.
Proof.
  intros Hfin. unfold added_noise, added_noise_of_shapes, preprocess.
  rewrite length_map, <- noise_seed_shapes, <- (standardize_shapes x Hfin).
  unfold np_bind, lift.
  destruct (standardize x) as [x_std|]; [|reflexivity]. cbn [rmap].
  destruct (noise_seed x (snr_list snr (length x)) seed) as [s|]; [|reflexivity].
  destruct (np_random_seed s r) as [[[] r0]|]; [|reflexivity].
  rewrite <- noise_loop_fst. unfold np_map.
  destruct (noise_loop (snr_list snr (length x)) 0 x_std r0) as [[out r1]|];
    reflexivity.
Qed.

Lemma added_noise_forgets shs snr seed r1 r2 :
  added_noise_of_shapes shs snr seed r1 = added_noise_of_shapes shs snr seed r2.
Proof.
  unfold added_noise_of_shapes, np_bind, lift.
  destruct (standardized_shapes shs); [|reflexivity].
  destruct (noise_seed_of_shapes shs (snr_list snr (length shs)) seed); reflexivity.
Qed.

(** A channel with an infinite entry stops the call in the standardization. *)
Lemma preprocess_inf_raises x snr seed r :
  (exists a, a ∈ x /\ has_inf a = true) ->
  added_noise x snr seed r = Raise ValueError /\
  preprocess_and_add_noise x snr seed r = Raise ValueError.
Proof.
  intros Hinf.
  unfold added_noise, preprocess_and_add_noise, preprocess, np_bind, lift.
  rewrite (standardize_inf x Hinf). split; reflexivity.
Qed.

End NoiseFacts.

(** ** Building a dataset *)

Section DatasetFacts.
Context {B : Backend}.

Lemma generate_eq g z : generate g z = forward_tensor g Float32 (FloatTensor z).
Proof.
  unfold generate. cbn [forward].
  destruct (forward_tensor g Float32 (FloatTensor z)); reflexivity.
Qed.

Lemma forward_tensor_shapes g z :
  rmap (map shape) (forward_tensor g Float32 z) = forward_shapes g (shape z).
Proof.
  unfold forward_tensor, forward_shapes, size.
  destruct (index (shape z) 1) as [d|]; [|reflexivity]. cbn [Py.bind].
  destruct (d =? gen_lat_dim g)%nat; [|reflexivity].
  unfold forward_channels. rewrite rmap_mapM. apply mapM_ext.
  intros ch _. destruct (index (gen_W g) ch) as [w|]; [|reflexivity].
  apply linear_shape_of.
Qed.

Lemma preprocess_inv x snr seed r x_std out r' :
  preprocess x snr seed r = Ok ((x_std, out), r') ->
  standardize x = Ok x_std /\ length out = length x_std /\
  map snd out = map2 add_arrays x_std (map fst out).
Proof.
  unfold preprocess, np_bind, lift.
  destruct (standardize x) as [xs|]; [|discriminate].
  destruct (noise_seed x (snr_list snr (length x)) seed) as [s|]; [|discriminate].
  destruct (np_random_seed s r) as [[[] r0]|]; [|discriminate].
  destruct (noise_loop (snr_list snr (length x)) 0 xs r0) as [[o r1]|] eqn:Hn;
    [|discriminate].
  unfold np_ret. intros [= <- <- _].
  split; [reflexivity|]. eapply noise_loop_snd; eassumption.
Qed.

(** What a successful construction went through. *)
Lemma SyntheticDataset_init_inv n d nf nc snr train r ds r' :
  SyntheticDataset_init n d nf nc snr train r = Ok (ds, r') ->
  exists rz g rg x x_std out,
    let z := {| shape := [n; d];
                data := fst (draws draw_normal (numel [n; d])
                               (np_seed (if train then 7 else 14))) |} in
    GeneratorUniform_init d nc nf 100 rz = Ok (g, rg) /\
    generate g z = Ok x /\
    preprocess x snr 0 rg = Ok ((x_std, out), r') /\
    ds = {| ds_n_samples := n; ds_lat_dim := d; ds_n_feats := nf;
            ds_n_channels := nc; ds_snr := snr; ds_train := train; ds_z := z;
            ds_generator := g; ds_x := x;
            ds_X := map astype_float32 x_std; ds_X_noisy := map snd out |}.
Proof.
  unfold SyntheticDataset_init, np_bind at 1.
  rewrite np_random_seed_in_range by (destruct train; lia).
  unfold np_bind at 1, np_random_normal. rewrite draw_array_eq.
  set (z := {| shape := [n; d]; data := _ |}). set (rz := snd _).
  unfold np_bind at 1.
  destruct (GeneratorUniform_init d nc nf 100 rz) as [[g rg]|] eqn:Hg; [|discriminate].
  unfold np_bind at 1, lift.
  destruct (generate g z) as [x|] eqn:Hx; [|discriminate].
  unfold np_bind at 1, preprocess_and_add_noise, np_bind at 1.
  destruct (preprocess x snr 0 rg) as [[[x_std out] r1]|] eqn:Hp; [|discriminate].
  unfold np_ret. intros [= <- <-].
  exists rz, g, rg, x, x_std, out. auto.
Qed.

End DatasetFacts.

(** X4. The noise [preprocess_and_add_noise] adds is [x_noisy - x_std]
    channel by channel. For channels without infinite entry it is a
    function of the [seed] argument, of [snr] and of the shapes of the
    channels: two calls whose channels have the same shapes add the same
    noise (or raise the same exception), whatever the finite or NaN
    contents of the channels and the state of numpy's global generator
    before the calls. A channel with an infinite entry makes the call raise
    [ValueError] in the standardization, before any noise is drawn. *)
Theorem added_noise_depends_on_shapes `{B : Backend}
    (x1 x2 : list ndarray) (snr : snr_arg) (seed : Z) (r1 r2 : rng) :
  map shape x1 = map shape x2 ->
  ((forall a, a ∈ x1 \/ a ∈ x2 -> has_inf a = false) ->
   added_noise x1 snr seed r1 = added_noise x2 snr seed r2) /\
  ((exists a, a ∈ x1 /\ has_inf a = true) ->
   added_noise x1 snr seed r1 = Raise ValueError /\
   preprocess_and_add_noise x1 snr seed r1 = Raise ValueError) /\
  (forall x_std x_noisy r',
     preprocess_and_add_noise x1 snr seed r1 = Ok ((x_std, x_noisy), r') ->
     standardize x1 = Ok x_std /\
     (forall a, a ∈ x1 -> has_inf a = false) /\
     exists noise, added_noise x1 snr seed r1 = Ok (noise, r') /\
                   length noise = length x_std /\
                   x_noisy = map2 add_arrays x_std noise).
Proof.
  intros Hsh. split; [|split].
  - intros Hfin. rewrite !added_noise_shapes by auto. rewrite Hsh.
    apply added_noise_forgets.
  - apply preprocess_inf_raises.
  - intros x_std x_noisy r'.
    unfold preprocess_and_add_noise, added_noise, np_bind.
    destruct (preprocess x1 snr seed r1) as [[[xs out] r0]|] eqn:Hp; [|discriminate].
    unfold np_ret. intros [= <- <- <-].
    destruct (preprocess_inv _ _ _ _ _ _ _ Hp) as (Hstd & Hlen & Hsnd).
    split; [exact Hstd|]. split; [eapply standardize_finite; eassumption|].
    exists (map fst out).
    split; [reflexivity|]. split; [now rewrite length_map|exact Hsnd].
Qed.

(** Two inputs of two channels (two rows and two columns, then one row and
    three columns) with different contents, on the small backend, from
    different states of the global generator. *)
Lemma added_noise_depends_on_shapes_witness :
  let x1 := [{| shape := [2%nat; 2%nat]; data := map of_Z [1; 2; 3; 4] |};
             {| shape := [1%nat; 3%nat]; data := map of_Z [0; 1; 0] |}] in
  let x2 := [{| shape := [2%nat; 2%nat]; data := map of_Z [5; 6; 7; 9] |};
             {| shape := [1%nat; 3%nat]; data := map of_Z [8; 8; 8] |}] in
  (forall a, a ∈ x1 \/ a ∈ x2 -> has_inf a = false) /\
  @added_noise toy_backend x1 (SnrScalar (PyInt 10)) 0 0 =
  @added_noise toy_backend x2 (SnrScalar (PyInt 10)) 0 42.
Proof.
  intros x1 x2.
  assert (Hfin : forall a, a ∈ x1 \/ a ∈ x2 -> has_inf a = false).
  { intros a [Ha|Ha];
      repeat (apply elem_of_cons in Ha as [->|Ha]; [reflexivity|]);
      now apply elem_of_nil in Ha. }
  split; [exact Hfin|].
  exact (proj1 (added_noise_depends_on_shapes (B := toy_backend)
                  x1 x2 (SnrScalar (PyInt 10)) 0 0 42 eq_refl) Hfin).
Defined.

Section DatasetNoiseFacts.
Context {B : Backend}.

(** The noise of a dataset that is built, from the generator and the shape
    of [z]: neither the latent samples nor [train] enter it. *)
Lemma SyntheticDataset_noise_of_init n d nf nc snr train r ds r' r0 :
  SyntheticDataset_init n d nf nc snr train r = Ok (ds, r') ->
  exists g rg shs x_std noise,
    GeneratorUniform_init d nc nf 100 r0 = Ok (g, rg) /\
    forward_shapes g [n; d] = Ok shs /\ map shape (ds_x ds) = shs /\
    ds_generator ds = g /\
    added_noise_of_shapes shs snr 0 rg = Ok (noise, r') /\
    SyntheticDataset_noise n d nf nc snr train r = Ok (noise, r') /\
    standardize (ds_x ds) = Ok x_std /\
    length noise = length x_std /\
    ds_X ds = map astype_float32 x_std /\
    ds_X_noisy ds = map2 add_arrays x_std noise.
Proof.
  intros Hinit.
  destruct (SyntheticDataset_init_inv _ _ _ _ _ _ _ _ _ Hinit)
    as (rz & g & rg & x & x_std & out & Hg & Hx & Hp & ->).
  destruct (preprocess_inv _ _ _ _ _ _ _ Hp) as (Hstd & Hlen & Hsnd).
  assert (Hnoise : added_noise x snr 0 rg = Ok (map fst out, r')).
  { unfold added_noise, np_bind. now rewrite Hp. }
  pose proof (forward_tensor_shapes g (FloatTensor
    {| shape := [n; d];
       data := fst (draws draw_normal (numel [n; d])
                      (np_seed (if train then 7 else 14))) |})) as Hsh.
  rewrite generate_eq in Hx. rewrite Hx in Hsh. cbn [rmap FloatTensor shape] in Hsh.
  exists g, rg, (map shape x), x_std, (map fst out).
  cbn [ds_x ds_X ds_X_noisy ds_generator].
  split; [now rewrite (GeneratorUniform_init_forgets d nc nf 100 r0 rz)|].
  split; [now symmetry|]. split; [reflexivity|]. split; [reflexivity|].
  split; [rewrite <- added_noise_shapes; [exact Hnoise|];
          eapply standardize_finite; eassumption|].
  split.
  { unfold SyntheticDataset_noise, np_bind at 1.
    rewrite np_random_seed_in_range by (destruct train; lia).
    unfold np_bind at 1, np_random_normal. rewrite draw_array_eq.
    unfold np_bind at 1.
    rewrite (GeneratorUniform_init_forgets d nc nf 100 _ rz), Hg.
    unfold np_bind, lift. rewrite generate_eq, Hx.
    exact Hnoise. }
  rewrite length_map. auto.
Qed.

End DatasetNoiseFacts.

(** X5. The noise added while a [SyntheticDataset] is built does not
    depend on [train] (nor on the state of the global generator before the
    construction): a training and a validation dataset built with equal
    sizes and [snr] receive the same noise arrays, and leave the global
    generator in the same state, while their latent samples are drawn
    after seeding with 7 and with 14. [X] holds the standardized arrays
    cast to float32 and [X_noisy] is the standardized arrays plus that
    noise. *)
Theorem train_and_val_datasets_share_noise `{B : Backend}
    (n_samples lat_dim n_feats n_channels : nat) (snr : snr_arg) (r1 r2 r1' r2' : rng)
    (ds_t ds_v : SyntheticDataset) :
  SyntheticDataset_init n_samples lat_dim n_feats n_channels snr true r1 = Ok (ds_t, r1') ->
  SyntheticDataset_init n_samples lat_dim n_feats n_channels snr false r2 = Ok (ds_v, r2') ->
  r1' = r2' /\
  ds_z ds_t = {| shape := [n_samples; lat_dim];
                 data := fst (draws draw_normal (numel [n_samples; lat_dim]) (np_seed 7)) |} /\
  ds_z ds_v = {| shape := [n_samples; lat_dim];
                 data := fst (draws draw_normal (numel [n_samples; lat_dim]) (np_seed 14)) |} /\
  exists noise std_t std_v,
    SyntheticDataset_noise n_samples lat_dim n_feats n_channels snr true r1
      = Ok (noise, r1') /\
    SyntheticDataset_noise n_samples lat_dim n_feats n_channels snr false r2
      = Ok (noise, r2') /\
    standardize (ds_x ds_t) = Ok std_t /\ standardize (ds_x ds_v) = Ok std_v /\
    length noise = length std_t /\ length noise = length std_v /\
    ds_X ds_t = map astype_float32 std_t /\ ds_X ds_v = map astype_float32 std_v /\
    ds_X_noisy ds_t = map2 add_arrays std_t noise /\
    ds_X_noisy ds_v = map2 add_arrays std_v noise.
Proof.
  intros Ht Hv.
  destruct (SyntheticDataset_noise_of_init _ _ _ _ _ _ _ _ _ r1 Ht)
    as (g & rg & shs & std_t & noise & Hg & Hshs & _ & _ & Hn & Hnt & Hst & Hlt & HXt & HNt).
  destruct (SyntheticDataset_noise_of_init _ _ _ _ _ _ _ _ _ r1 Hv)
    as (g' & rg' & shs' & std_v & noise' & Hg' & Hshs' & _ & _ & Hn' & Hnv & Hsv & Hlv
        & HXv & HNv).
  rewrite Hg in Hg'. injection Hg' as <- <-.
  rewrite Hshs in Hshs'. injection Hshs' as <-.
  rewrite Hn in Hn'. injection Hn' as <- <-.
  split; [reflexivity|].
  split.
  { destruct (SyntheticDataset_init_inv _ _ _ _ _ _ _ _ _ Ht)
      as (? & ? & ? & ? & ? & ? & _ & _ & _ & ->). reflexivity. }
  split.
  { destruct (SyntheticDataset_init_inv _ _ _ _ _ _ _ _ _ Hv)
      as (? & ? & ? & ? & ? & ? & _ & _ & _ & ->). reflexivity. }
  exists noise, std_t, std_v. auto 12.
Qed.

(** The training and the validation dataset of five samples on the small
    backend, built from different states of the global generator. *)
Lemma train_and_val_datasets_share_noise_witness :
  exists ds_t ds_v r' noise,
    @SyntheticDataset_init toy_backend 5 2 4 3 (SnrScalar (PyInt 10)) true 0
      = Ok (ds_t, r') /\
    @SyntheticDataset_init toy_backend 5 2 4 3 (SnrScalar (PyInt 10)) false 9
      = Ok (ds_v, r') /\
    @SyntheticDataset_noise toy_backend 5 2 4 3 (SnrScalar (PyInt 10)) true 0
      = Ok (noise, r') /\
    @SyntheticDataset_noise toy_backend 5 2 4 3 (SnrScalar (PyInt 10)) false 9
      = Ok (noise, r') /\
    ds_z ds_t <> ds_z ds_v.
Proof.
  destruct (is_ok_inv (@SyntheticDataset_init toy_backend 5 2 4 3
                         (SnrScalar (PyInt 10)) true 0))
    as [[ds_t r1'] Ht]; [vm_compute; reflexivity|].
  destruct (is_ok_inv (@SyntheticDataset_init toy_backend 5 2 4 3
                         (SnrScalar (PyInt 10)) false 9))
    as [[ds_v r2'] Hv]; [vm_compute; reflexivity|].
  destruct (train_and_val_datasets_share_noise (B := toy_backend) 5 2 4 3
              (SnrScalar (PyInt 10)) 0 9 r1' r2' ds_t ds_v Ht Hv)
    as (Hr & Hzt & Hzv & noise & _ & _ & Hnt & Hnv & _).
  subst r2'. exists ds_t, ds_v, r1', noise.
  split; [exact Ht|]. split; [exact Hv|]. split; [exact Hnt|]. split; [exact Hnv|].
  rewrite Hzt, Hzv. intros Heq.
  apply (f_equal (fun a => nth 0 (data a) zero)) in Heq.
  vm_compute in Heq. discriminate Heq.
Defined.

(** ** The shapes of a dataset *)

Lemma map2_length {A C D : Type} (f : A -> C -> D) (l : list A) : forall m,
  length (map2 f l m) = Nat.min (length l) (length m).
Proof.
  induction l as [|a l IH]; intros [|c m]; simpl; try reflexivity.
  now rewrite IH.
Qed.

Section ShapeFacts.
Context {B : Backend}.

Lemma noise_loop_entries snr xs : forall c r out r',
  noise_loop snr c xs r = Ok (out, r') ->
  forall i arr p, xs !! i = Some arr -> out !! i = Some p ->
    shape (fst p) = shape arr /\ wf_array (fst p) /\
    snd p = add_arrays arr (fst p) /\
    exists v q, snr !! (c + i)%nat = Some v /\ one_over v = Ok q /\
                exists e, fst p = scale_array (F64.sqrt q) e.
Proof.
  induction xs as [|a xs IH]; intros c r out r'.
  - intros _ i arr p Hi. now rewrite lookup_nil in Hi.
  - cbn [noise_loop]. unfold np_bind at 1, lift.
    unfold index at 1.
    destruct (snr !! c) as [v|] eqn:Hv; [|discriminate]. cbn [Py.bind].
    destruct (one_over v) as [q|] eqn:Hq; [|discriminate]. cbn [Py.bind].
    unfold np_bind at 1, np_random_randn. rewrite draw_array_eq.
    set (e := {| shape := shape a; data := _ |}). set (r2 := snd _).
    unfold np_bind.
    destruct (noise_loop snr (S c) xs r2) as [[tl r3]|] eqn:Htl; [|discriminate].
    unfold np_ret. intros [= <- _] i arr p Hi Hp.
    destruct i as [|i]; simpl in Hi, Hp.
    + injection Hi as <-. injection Hp as <-. simpl.
      repeat split.
      * unfold wf_array. simpl. rewrite length_map. apply draws_length.
      * exists v, q. rewrite Nat.add_0_r. repeat split; eauto.
    + destruct (IH _ _ _ _ Htl i arr p Hi Hp) as (H1 & H2 & H3 & v' & q' & H4 & H5).
      repeat split; try assumption. exists v', q'.
      replace (c + S i)%nat with (S c + i)%nat by lia. auto.
Qed.

Lemma add_arrays_wf a b :
  wf_array a -> wf_array b -> shape b = shape a -> wf_array (add_arrays a b).
Proof.
  unfold wf_array. intros Ha Hb Hs. simpl.
  rewrite map2_length, Ha, Hb, Hs. lia.
Qed.

Lemma standardize_entries x x_std :
  standardize x = Ok x_std ->
  length x_std = length x /\
  forall i y, x_std !! i = Some y ->
    exists a n k, x !! i = Some a /\ shape a = [n; k] /\ shape y = [n; k] /\
                  n <> 0%nat /\ k <> 0%nat /\ (wf_array a -> wf_array y).
Proof.
  rewrite standardize_eq. intros Hstd.
  split; [eapply mapM_length; eassumption|].
  intros i y Hi. destruct (mapM_lookup _ _ _ _ _ Hstd Hi) as (a & Ha & Hy).
  pose proof (fit_then_transform a) as H.
  pose proof (fit_transform_ok a) as Hok. rewrite Hy in Hok. symmetry in Hok.
  apply check_array_ok in Hok as (n & k & Hsh & Hn & Hk & Hfin).
  destruct (check_array a) as [[n' k']|e] eqn:Hc;
    [|rewrite H in Hy; discriminate].
  destruct H as (sc & y' & Hf & Ht & Hsa & Hs & Hwf).
  rewrite Hf in Hy. cbn [Py.bind] in Hy. rewrite Ht in Hy. injection Hy as <-.
  rewrite Hsh in Hsa. injection Hsa as <- <-.
  exists a, n, k. auto 10.
Qed.

End ShapeFacts.

Section DatasetShapeFacts.
Context {B : Backend}.

Lemma preprocess_noise_loop x snr seed r x_std out r' :
  preprocess x snr seed r = Ok ((x_std, out), r') ->
  exists s, noise_seed x (snr_list snr (length x)) seed = Ok s /\
            0 <= s < 2 ^ 32 /\
            noise_loop (snr_list snr (length x)) 0 x_std (np_seed s) = Ok (out, r').
Proof.
  unfold preprocess, np_bind, lift.
  destruct (standardize x) as [xs|]; [|discriminate].
  destruct (noise_seed x (snr_list snr (length x)) seed) as [s|]; [|discriminate].
  unfold np_random_seed.
  destruct ((0 <=? s) && (s <? 2 ^ 32)) eqn:Hs; [|discriminate].
  destruct (noise_loop (snr_list snr (length x)) 0 xs (np_seed s)) as [[o r1]|] eqn:Hn;
    [|discriminate].
  unfold np_ret. intros [= <- <- <-]. exists s. split; [reflexivity|].
  split; [lia|exact Hn].
Qed.

(** The seed of the noise needs a first channel. *)
Lemma noise_seed_nonempty x snr seed s :
  noise_seed x snr seed = Ok s -> x <> [].
Proof.
  unfold noise_seed. intros H ->.
  destruct (index snr 0); [|discriminate]. cbn [Py.bind] in H.
  destruct (int (add_one a)); discriminate.
Qed.

(** The observations of the dataset's generator. *)
Lemma generate_channels g z n :
  wf_generator g -> shape z = [n; gen_lat_dim g] ->
  exists x, generate g z = Ok x /\ length x = gen_n_channels g /\
            forall a, a ∈ x -> shape a = [n; gen_n_feats g] /\ wf_array a.
Proof.
  intros Hg Hz. rewrite generate_eq. unfold forward_tensor, size, index.
  simpl. rewrite Hz. simpl. rewrite Nat.eqb_refl.
  apply (forward_channels_ok g (FloatTensor z) [n] Hg).
  simpl. now rewrite Hz.
Qed.

Lemma dataset_channels n d nf nc snr train r ds r' :
  svd_shapes B ->
  SyntheticDataset_init n d nf nc snr train r = Ok (ds, r') ->
  (n <> 0 /\ nf <> 0 /\ nc <> 0)%nat /\
  length (ds_x ds) = nc /\ length (ds_X ds) = nc /\ length (ds_X_noisy ds) = nc /\
  forall a, a ∈ ds_x ds \/ a ∈ ds_X ds \/ a ∈ ds_X_noisy ds ->
            shape a = [n; nf] /\ wf_array a.
Proof.
  intros Hsvd Hinit.
  destruct (SyntheticDataset_init_inv _ _ _ _ _ _ _ _ _ Hinit)
    as (rz & g & rg & x & x_std & out & Hg & Hx & Hp & ->).
  destruct (GeneratorUniform_init_inv _ _ _ _ _ _ _ Hsvd Hg)
    as (Hlat & Hnc & Hnf & Hwf).
  match type of Hx with generate g ?z = _ =>
    destruct (generate_channels g z n Hwf) as (x' & Hx' & Hlenx & Hallx);
      [simpl; now rewrite Hlat|]
  end.
  rewrite Hx in Hx'. injection Hx' as <-.
  rewrite Hnc in Hlenx. rewrite Hnf in Hallx.
  destruct (preprocess_inv _ _ _ _ _ _ _ Hp) as (Hstd & Hlen & Hsnd).
  destruct (preprocess_noise_loop _ _ _ _ _ _ _ Hp) as (s & Hseed & _ & Hloop).
  destruct (standardize_entries _ _ Hstd) as (Hlens & Hents).
  assert (Hstd_all : forall i y, x_std !! i = Some y ->
                                 shape y = [n; nf] /\ wf_array y /\ n <> 0%nat /\ nf <> 0%nat).
  { intros i y Hy.
    destruct (Hents i y Hy) as (a & n' & k' & Ha & Hsa & Hsy & Hn & Hk & Hw).
    assert (Hin : a ∈ x) by (apply list_elem_of_lookup; eauto).
    destruct (Hallx a Hin) as [Hsh Hwa]. rewrite Hsh in Hsa.
    injection Hsa as <- <-. auto. }
  simpl. split.
  - pose proof (noise_seed_nonempty _ _ _ _ Hseed) as Hne.
    assert (Hnc0 : nc <> 0%nat) by (destruct x; [contradiction|simpl in Hlenx; lia]).
    destruct (lookup_lt_is_Some_2 x_std 0) as [y Hy]; [lia|].
    destruct (Hstd_all 0%nat y Hy) as (_ & _ & Hn & Hk). auto.
  - rewrite !length_map.
    split; [lia|]. split; [lia|]. split; [lia|].
    intros a [Ha|[Ha|Ha]].
    + now apply Hallx.
    + apply list_elem_of_fmap in Ha as (y & -> & Hy).
      apply list_elem_of_lookup in Hy as [i Hy].
      destruct (Hstd_all i y Hy) as (Hs & Hw & _). split; [exact Hs|].
      unfold wf_array in *. simpl. now rewrite length_map.
    + apply list_elem_of_fmap in Ha as (p & -> & Hp').
      apply list_elem_of_lookup in Hp' as [i Hi].
      destruct (lookup_lt_is_Some_2 x_std i) as [y Hy];
        [rewrite <- Hlen; eapply lookup_lt_Some; eassumption|].
      destruct (noise_loop_entries _ _ _ _ _ _ Hloop i y p Hy Hi)
        as (Hsp & Hwp & -> & _).
      destruct (Hstd_all i y Hy) as (Hs & Hw & _).
      split; [exact Hs|]. now apply add_arrays_wf.
Qed.

End DatasetShapeFacts.

Lemma lookup_repeat {A : Type} (v : A) (n i : nat) :
  (i < n)%nat -> repeat v n !! i = Some v.
Proof.
  revert i. induction n as [|n IH]; intros [|i] Hi; simpl; try lia; [reflexivity|].
  apply IH. lia.
Qed.

Section DatasetTotalFacts.
Context {B : Backend}.

Lemma noise_loop_ok snr xs : forall c r,
  (forall i, (i < length xs)%nat ->
             exists v q, snr !! (c + i)%nat = Some v /\ one_over v = Ok q) ->
  exists out r', noise_loop snr c xs r = Ok (out, r').
Proof.
  induction xs as [|a xs IH]; intros c r H.
  - eexists _, _. reflexivity.
  - cbn [noise_loop]. unfold np_bind at 1, lift, index at 1.
    destruct (H 0%nat) as (v & q & Hv & Hq); [simpl; lia|].
    rewrite Nat.add_0_r in Hv. rewrite Hv. cbn [Py.bind]. rewrite Hq. cbn [Py.bind].
    unfold np_bind at 1, np_random_randn. rewrite draw_array_eq.
    set (r2 := snd _). unfold np_bind.
    destruct (IH (S c) r2) as (tl & r3 & ->).
    { intros i Hi. destruct (H (S i)) as (v' & q' & Hv' & Hq'); [simpl; lia|].
      exists v', q'. replace (S c + i)%nat with (c + S i)%nat by lia. auto. }
    unfold np_ret. eauto.
Qed.

Lemma standardize_ok x n k :
  n <> 0%nat -> k <> 0%nat ->
  (forall a, a ∈ x -> shape a = [n; k] /\ has_inf a = false) ->
  exists x_std, standardize x = Ok x_std.
Proof.
  intros Hn Hk Hall.
  destruct (standardize_valid x) as (x_std & Hstd & _); [|eauto].
  intros a Ha. apply check_array_ok. exists n, k.
  destruct (Hall a Ha). auto.
Qed.

(** Lines 92-98 never raise: the generator's observations are
    [n_channels] arrays of [n_samples] by [n_feats] values. *)
Lemma SyntheticDataset_x_ok n d nf nc train r :
  svd_shapes B ->
  exists x rx,
    SyntheticDataset_x n d nf nc train r = Ok (x, rx) /\
    length x = nc /\ forall a, a ∈ x -> shape a = [n; nf] /\ wf_array a.
Proof.
  intros Hsvd.
  unfold SyntheticDataset_x, np_bind at 1.
  rewrite np_random_seed_in_range by (destruct train; lia).
  unfold np_bind at 1, np_random_normal. rewrite draw_array_eq.
  set (z := {| shape := [n; d]; data := _ |}). set (rz := snd _).
  unfold np_bind at 1.
  destruct (GeneratorUniform_init_ok d nc nf 100 rz Hsvd) as (g & rg & Hg); [lia|].
  destruct (GeneratorUniform_init_inv _ _ _ _ _ _ _ Hsvd Hg)
    as (Hlat & Hgnc & Hgnf & Hwf).
  rewrite Hg.
  destruct (generate_channels g z n Hwf) as (x & Hx & Hlenx & Hallx);
    [simpl; now rewrite Hlat|].
  unfold lift. rewrite Hx. exists x, rg.
  rewrite Hgnc in Hlenx. rewrite Hgnf in Hallx. auto.
Qed.

(** The construction is lines 92-98 followed by [preprocess_and_add_noise]. *)
Lemma SyntheticDataset_init_x n d nf nc snr train r x rx :
  SyntheticDataset_x n d nf nc train r = Ok (x, rx) ->
  match preprocess_and_add_noise x snr 0 rx with
  | Raise e => SyntheticDataset_init n d nf nc snr train r = Raise e
  | Ok (_, r') =>
      exists ds, SyntheticDataset_init n d nf nc snr train r = Ok (ds, r') /\ ds_x ds = x
  end.
Proof.
  intros Hx.
  assert (Hinv : exists g,
            GeneratorUniform_init d nc nf 100
              (snd (draws draw_normal (numel [n; d]) (np_seed (if train then 7 else 14))))
              = Ok (g, rx) /\
            generate g {| shape := [n; d];
                          data := fst (draws draw_normal (numel [n; d])
                                         (np_seed (if train then 7 else 14))) |} = Ok x).
  { revert Hx. unfold SyntheticDataset_x, np_bind at 1.
    rewrite np_random_seed_in_range by (destruct train; lia).
    unfold np_bind at 1, np_random_normal. rewrite draw_array_eq.
    unfold np_bind at 1.
    destruct (GeneratorUniform_init d nc nf 100 _) as [[g rg]|]; [|discriminate].
    unfold lift. destruct (generate g _) as [x'|] eqn:Hgen; [|discriminate].
    intros [= <- <-]. exists g. split; [reflexivity|exact Hgen]. }
  destruct Hinv as (g & Hg & Hgen).
  assert (Hinit : SyntheticDataset_init n d nf nc snr train r =
                  match preprocess_and_add_noise x snr 0 rx with
                  | Raise e => Raise e
                  | Ok ((X, X_noisy), r') =>
                      Ok ({| ds_n_samples := n; ds_lat_dim := d; ds_n_feats := nf;
                             ds_n_channels := nc; ds_snr := snr; ds_train := train;
                             ds_z := {| shape := [n; d];
                                        data := fst (draws draw_normal (numel [n; d])
                                                 (np_seed (if train then 7 else 14))) |};
                             ds_generator := g; ds_x := x;
                             ds_X := map astype_float32 X; ds_X_noisy := X_noisy |}, r')
                  end).
  { unfold SyntheticDataset_init, np_bind at 1.
    rewrite np_random_seed_in_range by (destruct train; lia).
    unfold np_bind at 1, np_random_normal. rewrite draw_array_eq.
    unfold np_bind at 1. rewrite Hg.
    unfold np_bind at 1, lift. rewrite Hgen. unfold np_bind.
    destruct (preprocess_and_add_noise x snr 0 rx) as [[[X Xn] r']|]; reflexivity. }
  rewrite Hinit.
  destruct (preprocess_and_add_noise x snr 0 rx) as [[[X Xn] r']|]; [|reflexivity].
  eexists. split; reflexivity.
Qed.

(** With positive sizes and a number [snr] that gives a seed in range,
    [preprocess_and_add_noise] returns on channels of one shape without
    infinite entry. *)
Lemma preprocess_and_add_noise_ok x n nf v k q r :
  int (add_one v) = Ok k -> one_over v = Ok q ->
  n <> 0%nat -> nf <> 0%nat -> x <> [] ->
  0 <= 3 * k + 5 * Z.of_nat (length x) + 7 * Z.of_nat n + 11 * Z.of_nat nf < 2 ^ 32 ->
  (forall a, a ∈ x -> shape a = [n; nf] /\ has_inf a = false) ->
  exists out r', preprocess_and_add_noise x (SnrScalar v) 0 r = Ok (out, r').
Proof.
  intros Hk Hq Hn Hnf Hne Hseed Hallx.
  unfold preprocess_and_add_noise, np_bind at 1, preprocess.
  destruct (standardize_ok x n nf Hn Hnf Hallx) as (x_std & Hstd).
  unfold np_bind at 1, lift. rewrite Hstd.
  destruct (standardize_entries _ _ Hstd) as (Hlens & _).
  assert (Hs : noise_seed x (snr_list (SnrScalar v) (length x)) 0 =
               Ok (0 + 3 * k + 5 * Z.of_nat (length x) + 7 * Z.of_nat n + 11 * Z.of_nat nf)).
  { unfold noise_seed.
    destruct x as [|x0 x]; [contradiction|]. simpl.
    rewrite Hk. cbn [Py.bind]. unfold size, index.
    destruct (Hallx x0) as [Hs0 _]; [apply list_elem_of_here|].
    rewrite Hs0. reflexivity. }
  unfold np_bind at 1. rewrite Hs.
  unfold np_bind at 1. rewrite np_random_seed_in_range by lia.
  destruct (noise_loop_ok (snr_list (SnrScalar v) (length x)) x_std 0
              (np_seed (0 + 3 * k + 5 * Z.of_nat (length x) + 7 * Z.of_nat n
                        + 11 * Z.of_nat nf)))
    as (out & r1 & Hloop).
  { intros i Hi. exists v, q. split; [|exact Hq].
    simpl. apply lookup_repeat. lia. }
  unfold np_bind. rewrite Hloop. unfold np_ret. eauto.
Qed.

Lemma existsb_has_inf x :
  existsb has_inf x = false -> forall a, a ∈ x -> has_inf a = false.
Proof.
  intros H a Ha. destruct (has_inf a) eqn:Hi; [|reflexivity].
  rewrite <- H. symmetry. apply existsb_exists. exists a.
  split; [now apply list_elem_of_In|exact Hi].
Qed.

Lemma existsb_has_inf_true x :
  existsb has_inf x = true -> exists a, a ∈ x /\ has_inf a = true.
Proof.
  intros H. apply existsb_exists in H as (a & Ha & Hi).
  exists a. split; [now apply list_elem_of_In|exact Hi].
Qed.

(** What the construction comes to, from the observations [x] of its
    generator. *)
Lemma SyntheticDataset_init_outcome n d nf nc v k q train r :
  svd_shapes B ->
  int (add_one v) = Ok k -> one_over v = Ok q ->
  n <> 0%nat -> nf <> 0%nat -> nc <> 0%nat ->
  0 <= 3 * k + 5 * Z.of_nat nc + 7 * Z.of_nat n + 11 * Z.of_nat nf < 2 ^ 32 ->
  exists x rx,
    SyntheticDataset_x n d nf nc train r = Ok (x, rx) /\
    if existsb has_inf x
    then SyntheticDataset_init n d nf nc (SnrScalar v) train r = Raise ValueError
    else exists ds r',
           SyntheticDataset_init n d nf nc (SnrScalar v) train r = Ok (ds, r') /\
           ds_x ds = x.
Proof.
  intros Hsvd Hk Hq Hn Hnf Hnc Hseed.
  destruct (SyntheticDataset_x_ok n d nf nc train r Hsvd)
    as (x & rg & Hx & Hlenx & Hallx).
  exists x, rg. split; [exact Hx|].
  pose proof (SyntheticDataset_init_x n d nf nc (SnrScalar v) train r x rg Hx) as Hinit.
  destruct (existsb has_inf x) eqn:Hinf.
  - apply existsb_has_inf_true in Hinf.
    destruct (preprocess_inf_raises x (SnrScalar v) 0 rg Hinf) as [_ Hraise].
    now rewrite Hraise in Hinit.
  - destruct (preprocess_and_add_noise_ok x n nf v k q rg Hk Hq Hn Hnf)
      as (out & r' & Hout).
    + intros ->. simpl in Hlenx. lia.
    + now rewrite Hlenx.
    + intros a Ha. split; [now apply Hallx|]. eapply existsb_has_inf; eassumption.
    + rewrite Hout in Hinit. destruct out as [X Xn].
      destruct Hinit as (ds & Hds & Hdx). eauto.
Qed.

End DatasetTotalFacts.

(** X6. A [SyntheticDataset] that is built has at least one sample, one
    feature and one channel; [z] is [n_samples] by [lat_dim]; [x], [X] and
    [X_noisy] hold [n_channels] arrays each, every one of shape [n_samples]
    by [n_feats]. With positive sizes and a number [snr] whose [int(snr+1)]
    and [1/snr] are defined and whose noise seed lies in [0, 2^32), lines
    92-98 return the observations [x] of the generator and the
    construction returns, unless an observation holds an infinite value,
    which [StandardScaler] refuses with [ValueError]. *)
Theorem synthetic_dataset_shapes `{B : Backend}
    (n_samples lat_dim n_feats n_channels : nat) (snr : snr_arg) (train : bool) (r : rng) :
  svd_shapes B ->
  (forall ds r',
     SyntheticDataset_init n_samples lat_dim n_feats n_channels snr train r = Ok (ds, r') ->
     (n_samples <> 0 /\ n_feats <> 0 /\ n_channels <> 0)%nat /\
     shape (ds_z ds) = [n_samples; lat_dim] /\
     length (ds_x ds) = n_channels /\ length (ds_X ds) = n_channels /\
     length (ds_X_noisy ds) = n_channels /\
     forall a, a ∈ ds_x ds \/ a ∈ ds_X ds \/ a ∈ ds_X_noisy ds ->
               shape a = [n_samples; n_feats] /\ wf_array a) /\
  (forall v k q,
     snr = SnrScalar v -> int (add_one v) = Ok k -> one_over v = Ok q ->
     n_samples <> 0%nat -> n_feats <> 0%nat -> n_channels <> 0%nat ->
     0 <= 3 * k + 5 * Z.of_nat n_channels + 7 * Z.of_nat n_samples
          + 11 * Z.of_nat n_feats < 2 ^ 32 ->
     exists x rx,
       SyntheticDataset_x n_samples lat_dim n_feats n_channels train r = Ok (x, rx) /\
       if existsb has_inf x
       then SyntheticDataset_init n_samples lat_dim n_feats n_channels snr train r
            = Raise ValueError
       else exists ds r',
              SyntheticDataset_init n_samples lat_dim n_feats n_channels snr train r
              = Ok (ds, r') /\ ds_x ds = x).
Proof.
  intros Hsvd. split.
  - intros ds r' Hinit.
    destruct (dataset_channels _ _ _ _ _ _ _ _ _ Hsvd Hinit) as (H0 & H1 & H2 & H3 & H4).
    split; [exact H0|]. split; [|auto].
    destruct (SyntheticDataset_init_inv _ _ _ _ _ _ _ _ _ Hinit)
      as (rz & g & rg & x & x_std & out & _ & _ & _ & ->). reflexivity.
  - intros v k q -> Hk Hq Hn Hnf Hnc Hseed.
    eapply SyntheticDataset_init_outcome; eassumption.
Qed.

(** The training dataset of the script (500 samples, 2 latent dimensions,
    4 features, 3 channels, snr 10) on the small backend: three arrays of
    500 rows and 4 columns. *)
Lemma synthetic_dataset_shapes_witness :
  exists ds r',
    @SyntheticDataset_init toy_backend 500 2 4 3 (SnrScalar (PyInt 10)) true 0
      = Ok (ds, r') /\
    length (ds_X ds) = 3%nat /\
    forall a, a ∈ ds_X ds -> shape a = [500%nat; 4%nat] /\ wf_array a.
Proof.
  pose proof (synthetic_dataset_shapes (B := toy_backend) 500 2 4 3
                (SnrScalar (PyInt 10)) true 0 toy_svd_shapes) as [Hshape Hok].
  assert (Hq : one_over (PyInt 10) = Ok (F64.div one (of_Z 10)))
    by (vm_compute; reflexivity).
  destruct (Hok (PyInt 10) 11 _ eq_refl eq_refl Hq) as (x & rx & Hx & Hds);
    [discriminate..| |].
  { split; [discriminate|reflexivity]. }
  assert (Hfin : rmap (fun p => existsb has_inf (fst p))
                   (@SyntheticDataset_x toy_backend 500 2 4 3 true 0) = Ok false)
    by (vm_compute; reflexivity).
  rewrite Hx in Hfin. injection Hfin as Hfin. cbn [fst] in Hfin.
  rewrite Hfin in Hds. destruct Hds as (ds & r' & Hds & _).
  destruct (Hshape ds r' Hds) as (_ & _ & _ & HX & _ & Hall).
  exists ds, r'. split; [exact Hds|]. split; [exact HX|].
  intros a Ha. apply Hall. auto.
Defined.

(** ** Reading a dataset *)

Lemma getrow_in_range a n k item :
  shape a = [n; k] -> wf_array a ->
  - Z.of_nat n <= item < Z.of_nat n ->
  exists row, getrow a item = Ok row /\ shape row = [k] /\ wf_array row /\
              (item < 0 -> getrow a (item + Z.of_nat n) = Ok row).
Proof.
  intros Hs Hwf Hitem. unfold getrow. rewrite Hs.
  set (i := if item <? 0 then item + Z.of_nat n else item).
  assert (Hi : 0 <= i < Z.of_nat n) by (subst i; destruct (Z.ltb_spec item 0); lia).
  destruct (Z.leb_spec 0 i); [|lia]. destruct (Z.ltb_spec i (Z.of_nat n)); [|lia].
  simpl. eexists. split; [reflexivity|]. split; [reflexivity|]. split.
  - unfold wf_array in *. rewrite Hs in Hwf. simpl in *.
    rewrite length_firstn, length_skipn, Hwf.
    assert (Z.to_nat i < n)%nat by lia. nia.
  - intros Hneg. subst i.
    destruct (Z.ltb_spec item 0); [|lia].
    destruct (Z.ltb_spec (item + Z.of_nat n) 0); [lia|].
    destruct (Z.leb_spec 0 (item + Z.of_nat n)); [|lia].
    destruct (Z.ltb_spec (item + Z.of_nat n) (Z.of_nat n)); [|lia].
    reflexivity.
Qed.

Lemma getrow_out_of_range a n k item :
  shape a = [n; k] -> ~ (- Z.of_nat n <= item < Z.of_nat n) ->
  getrow a item = Raise IndexError.
Proof.
  intros Hs Hitem. unfold getrow. rewrite Hs.
  destruct (Z.ltb_spec item 0).
  - destruct (Z.leb_spec 0 (item + Z.of_nat n)); [|reflexivity].
    destruct (Z.ltb_spec (item + Z.of_nat n) (Z.of_nat n)); [lia|reflexivity].
  - destruct (Z.leb_spec 0 item); [|reflexivity].
    destruct (Z.ltb_spec item (Z.of_nat n)); [lia|reflexivity].
Qed.

(** X7. For a [SyntheticDataset] that is built: [len] is [n_samples] and
    [shape] is [(n_samples, n_channels)]; [ds[item]] for
    [-n_samples <= item < n_samples] is a list of [n_channels] rows of
    [n_feats] values, a negative [item] reading the row [item + n_samples];
    any other [item] raises [IndexError]. *)
Theorem dataset_getitem_bounds `{B : Backend}
    (n_samples lat_dim n_feats n_channels : nat) (snr : snr_arg) (train : bool)
    (r r' : rng) (ds : SyntheticDataset) (item : Z) :
  svd_shapes B ->
  SyntheticDataset_init n_samples lat_dim n_feats n_channels snr train r = Ok (ds, r') ->
  SyntheticDataset_len ds = n_samples /\
  SyntheticDataset_shape ds = (n_samples, n_channels) /\
  if (- Z.of_nat n_samples <=? item) && (item <? Z.of_nat n_samples)
  then exists rows,
         SyntheticDataset_getitem ds item = Ok rows /\
         length rows = n_channels /\
         (forall row, row ∈ rows -> shape row = [n_feats] /\ wf_array row) /\
         (item < 0 ->
          SyntheticDataset_getitem ds (item + Z.of_nat n_samples) = Ok rows)
  else SyntheticDataset_getitem ds item = Raise IndexError.
Proof.
  intros Hsvd Hinit.
  destruct (dataset_channels _ _ _ _ _ _ _ _ _ Hsvd Hinit)
    as ((Hn & Hnf & Hnc) & _ & HlenX & _ & Hall).
  assert (HX : forall a, a ∈ ds_X ds -> shape a = [n_samples; n_feats] /\ wf_array a)
    by (intros a Ha; apply Hall; auto).
  split.
  { destruct (SyntheticDataset_init_inv _ _ _ _ _ _ _ _ _ Hinit)
      as (rz & g & rg & x & x_std & out & _ & _ & _ & ->). reflexivity. }
  split.
  { unfold SyntheticDataset_shape. rewrite HlenX. f_equal.
    destruct (SyntheticDataset_init_inv _ _ _ _ _ _ _ _ _ Hinit)
      as (rz & g & rg & x & x_std & out & _ & _ & _ & ->). reflexivity. }
  unfold SyntheticDataset_getitem.
  destruct ((- Z.of_nat n_samples <=? item) && (item <? Z.of_nat n_samples)) eqn:Hb.
  - assert (Hitem : - Z.of_nat n_samples <= item < Z.of_nat n_samples) by lia.
    destruct (mapM_ok (fun x => getrow x item) (ds_X ds)) as [rows Hrows].
    { intros a Ha. destruct (HX a Ha) as [Hs Hw].
      destruct (getrow_in_range a _ _ item Hs Hw Hitem) as (row & -> & _). eauto. }
    exists rows. split; [exact Hrows|].
    split; [rewrite (mapM_length _ _ _ Hrows); exact HlenX|]. split.
    + intros row Hrow. apply list_elem_of_lookup in Hrow as [i Hi].
      destruct (mapM_lookup _ _ _ _ _ Hrows Hi) as (a & Ha & Hrow).
      assert (Hin : a ∈ ds_X ds) by (apply list_elem_of_lookup; eauto).
      destruct (HX a Hin) as [Hs Hw].
      destruct (getrow_in_range a _ _ item Hs Hw Hitem) as (row' & Hr & H1 & H2 & _).
      rewrite Hr in Hrow. injection Hrow as <-. auto.
    + intros Hneg. rewrite <- Hrows. apply mapM_ext. intros a Ha.
      destruct (HX a Ha) as [Hs Hw].
      destruct (getrow_in_range a _ _ item Hs Hw Hitem) as (row' & Hr & _ & _ & Hwrap).
      now rewrite Hr, (Hwrap Hneg).
  - apply mapM_raise.
    + intros HX0. rewrite HX0 in HlenX. simpl in HlenX. lia.
    + intros a Ha. destruct (HX a Ha) as [Hs _].
      eapply getrow_out_of_range; [exact Hs|lia].
Qed.

(** A dataset of five samples on the small backend: the item -1 is the
    item 4, three rows of four values. *)
Lemma dataset_getitem_bounds_witness :
  exists ds r' rows,
    @SyntheticDataset_init toy_backend 5 2 4 3 (SnrScalar (PyInt 10)) true 0
      = Ok (ds, r') /\
    SyntheticDataset_shape ds = (5%nat, 3%nat) /\
    SyntheticDataset_getitem ds (-1) = Ok rows /\
    length rows = 3%nat /\
    SyntheticDataset_getitem ds 4 = Ok rows.
Proof.
  destruct (is_ok_inv (@SyntheticDataset_init toy_backend 5 2 4 3
                         (SnrScalar (PyInt 10)) true 0))
    as [[ds r'] Hds]; [vm_compute; reflexivity|].
  pose proof (dataset_getitem_bounds (B := toy_backend) 5 2 4 3
                (SnrScalar (PyInt 10)) true 0 r' ds (-1) toy_svd_shapes Hds)
    as (_ & Hshape & Hget).
  simpl in Hget. destruct Hget as (rows & Hrows & Hlen & _ & Hwrap).
  exists ds, r', rows. split; [exact Hds|]. split; [exact Hshape|].
  split; [exact Hrows|]. split; [exact Hlen|].
  apply Hwrap. reflexivity.
Defined.

(** X8. The items of a dataset do not depend on [snr]: two datasets built
    with the same sizes and the same [train], whatever their [snr] and the
    state of the global generator, have the same [z], the same generator,
    the same [x] and the same [X], hence the same items. The noise only
    enters [X_noisy], which [__getitem__] does not read. *)
Theorem dataset_items_ignore_snr `{B : Backend}
    (n_samples lat_dim n_feats n_channels : nat) (snr1 snr2 : snr_arg) (train : bool)
    (r1 r2 r1' r2' : rng) (ds1 ds2 : SyntheticDataset) :
  SyntheticDataset_init n_samples lat_dim n_feats n_channels snr1 train r1 = Ok (ds1, r1') ->
  SyntheticDataset_init n_samples lat_dim n_feats n_channels snr2 train r2 = Ok (ds2, r2') ->
  ds_z ds1 = ds_z ds2 /\ ds_generator ds1 = ds_generator ds2 /\
  ds_x ds1 = ds_x ds2 /\ ds_X ds1 = ds_X ds2 /\
  forall item, SyntheticDataset_getitem ds1 item = SyntheticDataset_getitem ds2 item.
Proof.
  intros H1 H2.
  destruct (SyntheticDataset_init_inv _ _ _ _ _ _ _ _ _ H1)
    as (rz1 & g1 & rg1 & x1 & xs1 & o1 & Hg1 & Hx1 & Hp1 & ->).
  destruct (SyntheticDataset_init_inv _ _ _ _ _ _ _ _ _ H2)
    as (rz2 & g2 & rg2 & x2 & xs2 & o2 & Hg2 & Hx2 & Hp2 & ->).
  rewrite (GeneratorUniform_init_forgets _ _ _ _ rz2 rz1), Hg1 in Hg2.
  injection Hg2 as <- <-.
  rewrite Hx1 in Hx2. injection Hx2 as <-.
  destruct (preprocess_inv _ _ _ _ _ _ _ Hp1) as (Hs1 & _).
  destruct (preprocess_inv _ _ _ _ _ _ _ Hp2) as (Hs2 & _).
  rewrite Hs1 in Hs2. injection Hs2 as <-.
  unfold SyntheticDataset_getitem. simpl. auto.
Qed.

(** Two datasets of five samples with snr 10 and snr 1, built from
    different states of the global generator, on the small backend. *)
Lemma dataset_items_ignore_snr_witness :
  exists ds1 ds2 r1' r2',
    @SyntheticDataset_init toy_backend 5 2 4 3 (SnrScalar (PyInt 10)) true 0
      = Ok (ds1, r1') /\
    @SyntheticDataset_init toy_backend 5 2 4 3 (SnrScalar (PyInt 1)) true 7
      = Ok (ds2, r2') /\
    ds_X ds1 = ds_X ds2.
Proof.
  destruct (is_ok_inv (@SyntheticDataset_init toy_backend 5 2 4 3
                         (SnrScalar (PyInt 10)) true 0))
    as [[ds1 r1'] Hds1]; [vm_compute; reflexivity|].
  destruct (is_ok_inv (@SyntheticDataset_init toy_backend 5 2 4 3
                         (SnrScalar (PyInt 1)) true 7))
    as [[ds2 r2'] Hds2]; [vm_compute; reflexivity|].
  exists ds1, ds2, r1', r2'. split; [exact Hds1|]. split; [exact Hds2|].
  exact (proj1 (proj2 (proj2 (proj2
    (dataset_items_ignore_snr (B := toy_backend) 5 2 4 3 _ _ true 0 7 r1' r2' ds1 ds2
       Hds1 Hds2))))).
Defined.

(** ** The exceptions of [preprocess_and_add_noise] *)

(** X9. The exceptions of [preprocess_and_add_noise]. [StandardScaler]
    accepts a channel exactly when it is two-dimensional, has at least one
    sample and one feature and holds no infinite value; a channel it
    refuses raises [ValueError] whatever [snr] is. With accepted channels:
    no channel at all and a scalar [snr] raises [IndexError]; otherwise,
    for a scalar [snr] whose [int(snr + 1)] is [k], a noise seed
    [seed + 3*k + 5*len(x) + 7*rows + 11*cols] outside [0, 2^32) raises
    [ValueError], and with the seed in range the exception of [1. / snr]
    ([ZeroDivisionError] for [snr = 0]) is raised. *)
Theorem preprocess_exceptions `{B : Backend}
    (x : list ndarray) (snr : snr_arg) (seed : Z) (r : rng) :
  (forall a, is_ok (check_array a) = true <->
             exists n k, shape a = [n; k] /\ n <> 0%nat /\ k <> 0%nat /\
                         forall v, v ∈ data a -> is_inf v = false) /\
  ((exists a, a ∈ x /\ is_ok (check_array a) = false) ->
   preprocess_and_add_noise x snr seed r = Raise ValueError) /\
  (forall v, x = [] -> snr = SnrScalar v ->
   preprocess_and_add_noise x snr seed r = Raise IndexError) /\
  (forall v k x0 rest rows cols,
     snr = SnrScalar v -> int (add_one v) = Ok k ->
     x = x0 :: rest -> shape x0 = [rows; cols] ->
     (forall a, a ∈ x -> is_ok (check_array a) = true) ->
     let s := seed + 3 * k + 5 * Z.of_nat (length x)
              + 7 * Z.of_nat rows + 11 * Z.of_nat cols in
     (~ 0 <= s < 2 ^ 32 ->
      preprocess_and_add_noise x snr seed r = Raise ValueError) /\
     (forall e, 0 <= s < 2 ^ 32 -> one_over v = Raise e ->
      preprocess_and_add_noise x snr seed r = Raise e)) /\
  one_over (PyInt 0) = Raise ZeroDivisionError.
Proof.
  split; [|split; [|split; [|split]]].
  - intros a. rewrite check_array_ok.
    assert (Hinf : has_inf a = false <-> forall v, v ∈ data a -> is_inf v = false).
    { unfold has_inf. split.
      - intros H v Hv. destruct (is_inf v) eqn:Hi; [|reflexivity].
        rewrite <- H. symmetry. apply existsb_exists. exists v.
        split; [now apply list_elem_of_In|exact Hi].
      - intros H. destruct (existsb is_inf (data a)) eqn:He; [|reflexivity].
        apply existsb_exists in He as (v & Hv & Hi).
        rewrite (H v) in Hi; [discriminate|now apply list_elem_of_In]. }
    split; intros (n & k & H1 & H2 & H3 & H4); exists n, k;
      (split; [exact H1|]; split; [exact H2|]; split; [exact H3|]);
      now apply Hinf.
  - intros Hbad. unfold preprocess_and_add_noise, preprocess, np_bind, lift.
    now rewrite (standardize_invalid x Hbad).
  - intros v -> ->. reflexivity.
  - intros v k x0 rest rows cols -> Hk Hx Hs0 Hvalid s.
    destruct (standardize_valid x Hvalid) as (x_std & Hstd & Hlen).
    assert (Hseed : noise_seed x (snr_list (SnrScalar v) (length x)) seed = Ok s).
    { subst s. rewrite Hx. unfold noise_seed, size, index.
      change (snr_list (SnrScalar v) (length (x0 :: rest)))
        with (v :: repeat v (length rest)).
      change ((v :: repeat v (length rest)) !! 0%nat) with (Some v).
      cbn [Py.bind]. rewrite Hk. cbn [Py.bind].
      change ((x0 :: rest) !! 0%nat) with (Some x0).
      cbn [Py.bind]. rewrite Hs0. reflexivity. }
    unfold preprocess_and_add_noise, preprocess, np_bind, lift.
    rewrite Hstd, Hseed. unfold np_random_seed. split.
    + intros Hout.
      destruct ((0 <=? s) && (s <? 2 ^ 32)) eqn:Hb; [lia|reflexivity].
    + intros e Hin He.
      destruct ((0 <=? s) && (s <? 2 ^ 32)) eqn:Hb; [|lia].
      destruct x_std as [|arr x_std]; [rewrite Hx in Hlen; discriminate|].
      cbn [noise_loop]. unfold np_bind, lift, index.
      rewrite Hx.
      change (snr_list (SnrScalar v) (length (x0 :: rest)))
        with (v :: repeat v (length rest)).
      change ((v :: repeat v (length rest)) !! 0%nat) with (Some v).
      cbn [Py.bind]. rewrite He. reflexivity.
  - vm_compute. reflexivity.
Qed.

(** ** When [train_model] returns *)

Section TrainModelOutcome.
Context {L : Learner}.

Lemma phase_stats_empty dls epoch st ph :
  dataset_len (loader dls ph) = 0%nat ->
  phase_stats dls epoch st ph = Raise ZeroDivisionError.
Proof.
  intros H. unfold phase_stats. rewrite epoch_stats_of_sums, H. reflexivity.
Qed.

Lemma run_epoch_empty dls scheduler st k :
  dataset_len (dl_train dls) = 0%nat \/ dataset_len (dl_val dls) = 0%nat ->
  run_epoch dls scheduler st k = Raise ZeroDivisionError.
Proof.
  intros H. rewrite run_epoch_phases, run_phase_stats.
  destruct (Nat.eq_dec (dataset_len (dl_train dls)) 0%nat) as [Ht|Ht].
  - now rewrite (phase_stats_empty dls k st Train Ht).
  - destruct H as [H|H]; [contradiction|].
    destruct (phase_stats_ok dls k st Train Ht) as [e1 ->]. cbn [Py.bind].
    rewrite run_phase_stats.
    match goal with |- context [phase_stats dls k ?s Val] =>
      now rewrite (phase_stats_empty dls k s Val H) end.
Qed.

Lemma train_epochs_empty dls scheduler m n :
  dataset_len (dl_train dls) = 0%nat \/ dataset_len (dl_val dls) = 0%nat ->
  train_epochs dls scheduler m (S n) = Raise ZeroDivisionError.
Proof.
  intros H. induction n as [|n IH].
  - rewrite train_epochs_S. cbn [train_epochs seq fold_left Py.bind].
    now apply run_epoch_empty.
  - rewrite train_epochs_S, IH. reflexivity.
Qed.

End TrainModelOutcome.

(** X10. [train_model] returns exactly when [num_epochs] is positive and
    both datasets are non-empty. With [num_epochs = 0] the loop body never
    assigns [since], and reading it after the loop raises
    [UnboundLocalError], whatever the datasets; with [num_epochs >= 1] an
    empty training or validation dataset raises [ZeroDivisionError] at the
    epoch statistics of the first epoch. *)
Theorem train_model_outcome `{L : Learner}
    (dls : DataLoaders) (scheduler : option (float -> optim -> optim))
    (m : trainer) (num_epochs : nat) :
  if (num_epochs =? 0)%nat then
    train_model dls scheduler m num_epochs = Raise UnboundLocalError
  else if (dataset_len (dl_train dls) =? 0)%nat || (dataset_len (dl_val dls) =? 0)%nat then
    train_model dls scheduler m num_epochs = Raise ZeroDivisionError
  else
    exists st, train_epochs dls scheduler m num_epochs = Ok st /\
               length (val_log st) = num_epochs /\
               train_model dls scheduler m num_epochs =
               Ok {| params := best_model_wts st; opt := opt (model st) |}.
Proof.
  destruct num_epochs as [|n]; [reflexivity|]. cbn [Nat.eqb].
  destruct (Nat.eqb_spec (dataset_len (dl_train dls)) 0) as [Ht|Ht]; cbn [orb].
  - unfold train_model. rewrite train_epochs_empty by auto. reflexivity.
  - destruct (Nat.eqb_spec (dataset_len (dl_val dls)) 0) as [Hv|Hv].
    + unfold train_model. rewrite train_epochs_empty by auto. reflexivity.
    + destruct (train_epochs_ok dls scheduler m (S n) Ht Hv) as [st Hst].
      exists st. split; [exact Hst|].
      split; [eapply train_epochs_retained; eassumption|].
      unfold train_model. rewrite Hst. reflexivity.
Qed.

(** ** Collecting the channels *)

Lemma append_at_length big idx c big' :
  append_at big idx c = Ok big' -> length big' = length big.
Proof.
  unfold append_at. destruct (big !! idx); [|discriminate].
  intros [= <-]. apply length_insert.
Qed.

(** An index beyond the lists of [big_X] raises. *)
Lemma scatter_overflow x : forall big idx,
  (length big < idx + length x)%nat -> (idx <= length big)%nat ->
  scatter big idx x = Raise IndexError.
Proof.
  induction x as [|c x IH]; intros big idx Hlen Hidx; simpl in *; [lia|].
  destruct (append_at big idx c) as [b|e] eqn:Hb; simpl.
  - assert (idx < length big)%nat.
    { unfold append_at in Hb. destruct (big !! idx) eqn:Hl; [|discriminate].
      eapply lookup_lt_Some; eassumption. }
    apply IH; rewrite (append_at_length _ _ _ _ Hb); lia.
  - unfold append_at in Hb. destruct (big !! idx); [discriminate|].
    now injection Hb as <-.
Qed.

Lemma gather_app X1 : forall big X2,
  gather big (X1 ++ X2) = (b <- gather big X1 ;; gather b X2).
Proof.
  induction X1 as [|x X1 IH]; intros big X2; simpl; [reflexivity|].
  destruct (scatter big 0 x); simpl; [apply IH|reflexivity].
Qed.

(** Batches of three channels are dealt to the three lists in order. *)
Lemma gather_batch3 bs : forall l0 l1 l2,
  gather [l0; l1; l2] (map batch3 bs) =
  Ok [l0 ++ map chan0 bs; l1 ++ map chan1 bs; l2 ++ map chan2 bs].
Proof.
  induction bs as [|[[c0 c1] c2] bs IH]; intros l0 l1 l2; simpl.
  - now rewrite !app_nil_r.
  - unfold append_at. simpl. rewrite IH. unfold chan0, chan1, chan2. simpl.
    now rewrite <- !app_assoc.
Qed.

(** With fewer than three channels in every batch the third list stays
    empty. *)
Lemma scatter_short x : forall l0 l1 idx,
  (idx + length x < 3)%nat ->
  exists l0' l1', scatter [l0; l1; []] idx x = Ok [l0'; l1'; []].
Proof.
  induction x as [|c x IH]; intros l0 l1 idx Hlen; simpl in *; [eauto|].
  destruct idx as [|[|idx]]; [| |lia]; unfold append_at; simpl; apply IH; lia.
Qed.

Lemma gather_short X : forall l0 l1,
  (forall x, x ∈ X -> (length x < 3)%nat) ->
  exists l0' l1', gather [l0; l1; []] X = Ok [l0'; l1'; []].
Proof.
  induction X as [|x X IH]; intros l0 l1 Hall; simpl; [eauto|].
  destruct (scatter_short x l0 l1 0) as (l0' & l1' & ->).
  { simpl. apply Hall, list_elem_of_here. }
  simpl. apply IH. intros x' Hx'. apply Hall. now apply list_elem_of_further.
Qed.

Lemma cat_fold_raise rest e :
  fold_left (fun acc t' => a <- acc ;; cat_onto a t') rest (Raise e) = Raise e.
Proof. induction rest as [|t rest IH]; simpl; [reflexivity|exact IH]. Qed.

Lemma cat_fold_raises rest : forall t,
  is_ok (fold_left (fun acc t' => a <- acc ;; cat_onto a t') rest (Ok t)) = false ->
  fold_left (fun acc t' => a <- acc ;; cat_onto a t') rest (Ok t) = Raise RuntimeError.
Proof.
  induction rest as [|t' rest IH]; intros t; simpl; [discriminate|].
  destruct (cat_onto t t') as [a|e] eqn:Ha; [apply IH|].
  intros _. rewrite cat_fold_raise. f_equal.
  revert Ha. unfold cat_onto.
  destruct (shape t) as [|? ?]; [now intros [= <-]|].
  destruct (shape t') as [|? ?]; [now intros [= <-]|].
  destruct (bool_decide _); [discriminate|now intros [= <-]].
Qed.

(** [torch.cat] of a list that is not empty raises nothing but
    [RuntimeError]. *)
Lemma torch_cat_raises l :
  l <> [] -> is_ok (torch_cat l) = false -> torch_cat l = Raise RuntimeError.
Proof.
  unfold torch_cat. destruct l as [|t0 l0]; [congruence|]. intros _.
  destruct (existsb zero_dim (t0 :: l0)); [reflexivity|].
  destruct (List.filter cat_kept (t0 :: l0)) as [|t rest]; [discriminate|].
  apply cat_fold_raises.
Qed.

Lemma torch_cat_outcome l :
  match torch_cat l with
  | Ok _ => l <> []
  | Raise e => if bool_decide (l = []) then e = ValueError else e = RuntimeError
  end.
Proof.
  destruct l as [|t l]; [reflexivity|].
  destruct (torch_cat (t :: l)) as [y|e] eqn:Hc; [discriminate|].
  rewrite bool_decide_eq_false_2 by discriminate.
  rewrite torch_cat_raises in Hc; [congruence|discriminate|now rewrite Hc].
Qed.

(** Two-dimensional tensors of [k] columns concatenate to their rows, one
    after the other. *)
Lemma torch_cat_rows k rest : forall t n,
  shape t = [n; k] ->
  (forall t', t' ∈ rest -> exists n', shape t' = [n'; k]) ->
  exists y, torch_cat (t :: rest) = Ok y /\
            shape y = [(n + sum_list_with (fun t' => hd 0%nat (shape t')) rest)%nat; k] /\
            data y = data t ++ concat (map data rest).
Proof.
  intros t n Hs Hall.
  assert (Hshapes : forall t', t' ∈ t :: rest -> exists n', shape t' = [n'; k]).
  { intros t' Ht'. apply elem_of_cons in Ht' as [->|Ht']; eauto. }
  assert (Hz : existsb zero_dim (t :: rest) = false).
  { destruct (existsb zero_dim (t :: rest)) eqn:He; [|reflexivity].
    apply existsb_exists in He as (t' & Ht' & Hz).
    apply list_elem_of_In in Ht'. destruct (Hshapes t' Ht') as [n' Hn'].
    unfold zero_dim in Hz. rewrite Hn' in Hz. discriminate. }
  assert (Hk : List.filter cat_kept (t :: rest) = t :: rest).
  { clear Hz Hs Hall. induction (t :: rest) as [|t' l IH]; [reflexivity|]. simpl.
    destruct (Hshapes t') as [n' Hn']; [apply list_elem_of_here|].
    unfold cat_kept at 1. rewrite Hn'.
    rewrite bool_decide_eq_false_2 by discriminate. simpl. f_equal.
    apply IH. intros t'' Ht''. apply Hshapes. now apply list_elem_of_further. }
  unfold torch_cat. rewrite Hz, Hk. clear Hz Hk Hshapes.
  revert t n Hs Hall.
  induction rest as [|t' rest IH]; intros t n Hs Hall.
  - simpl. exists t. rewrite Hs, Nat.add_0_r, app_nil_r. auto.
  - destruct (Hall t') as [n' Hs']; [apply list_elem_of_here|].
    simpl.
    assert (Hc : cat_onto t t' =
                 Ok {| shape := [(n + n')%nat; k]; data := data t ++ data t' |}).
    { unfold cat_onto. rewrite Hs, Hs'. now rewrite bool_decide_eq_true_2. }
    rewrite Hc.
    destruct (IH {| shape := [(n + n')%nat; k]; data := data t ++ data t' |}
                 (n + n')%nat eq_refl) as (y & Hy & Hsy & Hdy).
    { intros t'' Ht''. apply Hall. now apply list_elem_of_further. }
    simpl in Hy. exists y. split; [exact Hy|]. rewrite Hsy, Hdy, Hs'. simpl.
    split; [f_equal; lia|now rewrite <- app_assoc].
Qed.

(** X11. The display code collects the training batches into three lists,
    one per channel, and concatenates each. Batches of exactly three
    channels are dealt in order, and two-dimensional channels of [k]
    columns concatenate to all their rows; a batch with more than three
    channels raises [IndexError] at [big_X[idx]]; when every batch has
    fewer than three channels (or there is no batch) the third list stays
    empty: [torch.cat] raises [ValueError] on it, unless concatenating the
    first or the second list has raised [RuntimeError] before. *)
Theorem collect_channels_needs_three (bs : list (ndarray * ndarray * ndarray)) :
  collect_channels (map batch3 bs) =
    mapM torch_cat [map chan0 bs; map chan1 bs; map chan2 bs] /\
  (forall x rest, (3 < length x)%nat ->
     collect_channels (map batch3 bs ++ x :: rest) = Raise IndexError) /\
  (forall X, (forall x, x ∈ X -> (length x < 3)%nat) ->
     exists l0 l1,
       gather [[]; []; []] X = Ok [l0; l1; []] /\
       collect_channels X =
         (y0 <- torch_cat l0 ;; y1 <- torch_cat l1 ;; Raise ValueError) /\
       (collect_channels X = Raise ValueError \/
        collect_channels X = Raise RuntimeError)) /\
  collect_channels [] = Raise ValueError /\
  (forall t rest n k,
     shape t = [n; k] -> (forall t', t' ∈ rest -> exists n', shape t' = [n'; k]) ->
     exists y, torch_cat (t :: rest) = Ok y /\
               shape y = [(n + sum_list_with (fun t' => hd 0%nat (shape t')) rest)%nat; k] /\
               data y = data t ++ concat (map data rest)).
Proof.
  split; [|split; [|split; [|split]]].
  - unfold collect_channels. now rewrite gather_batch3.
  - intros x rest Hx. unfold collect_channels.
    rewrite gather_app, gather_batch3. simpl.
    rewrite scatter_overflow; [reflexivity|simpl; lia|simpl; lia].
  - intros X Hall. unfold collect_channels.
    destruct (gather_short X [] [] Hall) as (l0 & l1 & ->). cbn [Py.bind].
    exists l0, l1. split; [reflexivity|].
    assert (Hc : mapM torch_cat [l0; l1; []] =
                 (y0 <- torch_cat l0 ;; y1 <- torch_cat l1 ;; Raise ValueError)).
    { cbn [mapM]. destruct (torch_cat l0); [|reflexivity]. cbn [Py.bind].
      destruct (torch_cat l1); reflexivity. }
    split; [exact Hc|]. rewrite Hc.
    pose proof (torch_cat_outcome l0) as H0. pose proof (torch_cat_outcome l1) as H1.
    destruct (torch_cat l0) as [y0|e0]; cbn [Py.bind].
    + destruct (torch_cat l1) as [y1|e1]; cbn [Py.bind]; [now left|].
      destruct (bool_decide (l1 = [])); subst e1; auto.
    + destruct (bool_decide (l0 = [])); subst e0; auto.
  - reflexivity.
  - intros t rest n k. apply torch_cat_rows.
Qed.

(** ** The model registry *)

Section RegistryFacts.
Import Registry.
#[local] Open Scope string_scope.

Lemma bind_names_lookup m names : forall (ns : gmap string object) name,
  bind_names m ns names !! name =
  if bool_decide (name ∈ names) then Some (Attribute m name) else ns !! name.
Proof.
  unfold bind_names.
  induction names as [|a names IH]; intros ns name; simpl; [reflexivity|].
  rewrite IH. destruct (bool_decide_reflect (name ∈ names)) as [Hin|Hnin].
  - rewrite bool_decide_eq_true_2; [reflexivity|now apply list_elem_of_further].
  - destruct (decide (name = a)) as [->|Hne].
    + rewrite lookup_insert_eq.
      rewrite bool_decide_eq_true_2; [reflexivity|apply list_elem_of_here].
    + rewrite lookup_insert_ne by congruence.
      rewrite bool_decide_eq_false_2; [reflexivity|].
      intros Hin. apply elem_of_cons in Hin as [?|?]; contradiction.
Qed.

(** What a statement binds does not depend on the namespace it finds: the
    names it does not bind keep their objects. *)
Lemma bind_names_union m names : forall (ns ns0 : gmap string object),
  bind_names m (ns ∪ ns0) names = bind_names m ns names ∪ ns0.
Proof.
  unfold bind_names.
  induction names as [|a names IH]; intros ns ns0; simpl; [reflexivity|].
  now rewrite insert_union_l, IH.
Qed.

Lemma exec_union public s (ns ns0 : gmap string object) :
  exec public (ns ∪ ns0) s = exec public ns s ∪ ns0.
Proof.
  destruct s as [m names|m]; simpl; unfold import_submodule;
    now rewrite insert_union_l, bind_names_union.
Qed.

Lemma foldl_exec_union public stmts : forall (ns ns0 : gmap string object),
  foldl (exec public) (ns ∪ ns0) stmts = foldl (exec public) ns stmts ∪ ns0.
Proof.
  induction stmts as [|s stmts IH]; intros ns ns0; simpl; [reflexivity|].
  now rewrite exec_union, IH.
Qed.

Lemma load_union public (ns0 : gmap string object) :
  load public ns0 = load public ∅ ∪ ns0.
Proof.
  unfold load. rewrite <- foldl_exec_union. now rewrite (left_id_L ∅ (∪)).
Qed.

Lemma load_star public :
  load public ∅ = bind_names "torchvisnet" explicit (public "torchvisnet").
Proof. reflexivity. Qed.

(** X12. The namespace of [pynet.models] after its imports, from the
    namespace [ns0] it starts with. Every statement binds the name of the
    submodule it imports, then the names it lists. A name the final
    [from .torchvisnet import *] brings is bound to torchvisnet's
    attribute, also when an earlier statement bound the same name; any
    other name is bound as the statements before bind it (each of the
    nineteen names listed to the attribute of that name in the submodule
    named, each of the fifteen submodules to itself), and a name no
    statement binds keeps what it had in [ns0]. *)
Theorem registry_bindings (public : string -> list string)
    (ns0 : gmap string Registry.object) (name : string) :
  Registry.load public ns0 !! name =
    (if bool_decide (name ∈ public "torchvisnet")
     then Some (Registry.Attribute "torchvisnet" name)
     else match Registry.explicit !! name with
          | Some o => Some o
          | None => ns0 !! name
          end) /\
  stdpp.base.size Registry.explicit = 34%nat /\
  (forall m names n,
     Registry.FromImport m names ∈ Registry.init_py -> n ∈ names ->
     Registry.explicit !! n = Some (Registry.Attribute m n)) /\
  (forall m names,
     Registry.FromImport m names ∈ Registry.init_py ->
     Registry.explicit !! m = Some (Registry.Submodule m)) /\
  Registry.explicit !! "torchvisnet" = Some (Registry.Submodule "torchvisnet").
Proof.
  split; [|split; [|split; [|split]]].
  - rewrite load_union, load_star, lookup_union, bind_names_lookup.
    destruct (bool_decide (name ∈ public "torchvisnet")).
    + now destruct (ns0 !! name).
    + destruct (explicit !! name); [|apply (left_id None _)].
      now destruct (ns0 !! name).
  - vm_compute. reflexivity.
  - intros m names n Hs Hn. unfold init_py in Hs.
    repeat (apply elem_of_cons in Hs as [Hs|Hs];
            [injection Hs as -> ->;
             repeat (apply elem_of_cons in Hn as [->|Hn]; [vm_compute; reflexivity|]);
             now apply elem_of_nil in Hn|]).
    apply elem_of_cons in Hs as [Hs|Hs]; [discriminate|now apply elem_of_nil in Hs].
  - intros m names Hs. unfold init_py in Hs.
    repeat (apply elem_of_cons in Hs as [Hs|Hs];
            [injection Hs as -> ->; vm_compute; reflexivity|]).
    apply elem_of_cons in Hs as [Hs|Hs]; [discriminate|now apply elem_of_nil in Hs].
  - vm_compute. reflexivity.
Qed.

End RegistryFacts.

(** ** One stream of draws *)

Section StreamFacts.
Context {B : Backend}.

Lemma draws_app draw n m r :
  draws draw (n + m) r =
  (fst (draws draw n r) ++ fst (draws draw m (snd (draws draw n r))),
   snd (draws draw m (snd (draws draw n r)))).
Proof.
  revert r. induction n as [|n IH]; intros r; simpl.
  - now destruct (draws draw m r).
  - destruct (draw r) as [x r1]. rewrite IH.
    destruct (draws draw n r1) as [xs r2]. simpl.
    now destruct (draws draw m r2).
Qed.

Lemma standardize_map_shape x x_std :
  standardize x = Ok x_std -> map shape x_std = map shape x.
Proof.
  intros Hstd. destruct (standardize_entries _ _ Hstd) as [Hlen Hents].
  apply list_eq. intros i. rewrite !list_lookup_fmap.
  destruct (x_std !! i) as [y|] eqn:Hy.
  - destruct (Hents i y Hy) as (a & n & k & -> & Ha & Hys & _). simpl. congruence.
  - apply lookup_ge_None in Hy. rewrite Hlen in Hy.
    apply lookup_ge_None in Hy. now rewrite Hy.
Qed.

(** The noise of the loop: the channels cut one stream of standard normal
    draws, each scaling its part by its own [sigma_noise]. *)
Lemma noise_loop_stream snr xs : forall c r out r',
  noise_loop snr c xs r = Ok (out, r') ->
  exists sigmas es,
    map fst out = map2 scale_array sigmas es /\
    length sigmas = length xs /\ map shape es = map shape xs /\
    (forall i sigma, sigmas !! i = Some sigma ->
       exists v q, snr !! (c + i)%nat = Some v /\ one_over v = Ok q /\
                   sigma = F64.sqrt q) /\
    (concat (map data es), r') =
    draws draw_normal (sum_list (map (fun a => numel (shape a)) xs)) r.
Proof.
  induction xs as [|a xs IH]; intros c r out r'.
  - intros [= <- <-]. exists [], []. repeat split; try reflexivity.
    intros i sigma Hi. now rewrite lookup_nil in Hi.
  - cbn [noise_loop]. unfold np_bind at 1, lift, index at 1.
    destruct (snr !! c) as [v|] eqn:Hv; [|discriminate]. cbn [Py.bind].
    destruct (one_over v) as [q|] eqn:Hq; [|discriminate]. cbn [Py.bind].
    unfold np_bind at 1, np_random_randn. rewrite draw_array_eq.
    unfold np_bind.
    destruct (noise_loop snr (S c) xs _) as [[tl r3]|] eqn:Htl; [|discriminate].
    unfold np_ret. intros [= <- <-].
    destruct (IH _ _ _ _ Htl) as (sigmas & es & Hfst & Hls & Hsh & Hsig & Hdraw).
    exists (F64.sqrt q :: sigmas),
           ({| shape := shape a;
               data := fst (draws draw_normal (numel (shape a)) r) |} :: es).
    split; [simpl; now rewrite Hfst|].
    split; [simpl; now rewrite Hls|].
    split; [simpl; now rewrite Hsh|]. split.
    + intros [|i] sigma Hi; simpl in Hi.
      * injection Hi as <-. exists v, q. rewrite Nat.add_0_r. auto.
      * destruct (Hsig i sigma Hi) as (v' & q' & H1 & H2 & H3).
        exists v', q'. replace (c + S i)%nat with (S c + i)%nat by lia. auto.
    + change (sum_list (map (fun a => numel (shape a)) (a :: xs)))
        with (numel (shape a) + sum_list (map (fun a => numel (shape a)) xs))%nat.
      rewrite draws_app, <- Hdraw. reflexivity.
Qed.

End StreamFacts.



(** ** More channels, more samples *)

Section ExtendFacts.
Context {B : Backend}.

Lemma init_weights_app lat nf n k : forall r,
  init_weights lat nf (n + k) r =
  match init_weights lat nf n r with
  | Ok (ws1, r1) =>
      match init_weights lat nf k r1 with
      | Ok (ws2, r2) => Ok (ws1 ++ ws2, r2)
      | Raise e => Raise e
      end
  | Raise e => Raise e
  end.
Proof.
  induction n as [|n IH]; intros r.
  - simpl. destruct (init_weights lat nf k r) as [[ws2 r2]|]; reflexivity.
  - cbn [Nat.add init_weights]. unfold np_bind at 1 3.
    destruct (np_random_uniform [nf; lat] r) as [[w_ r0]|]; [|reflexivity].
    destruct (svd w_) as [[u s] vt]. unfold np_bind. rewrite IH.
    destruct (init_weights lat nf n r0) as [[ws1 r1]|]; [|reflexivity].
    unfold np_ret.
    destruct (init_weights lat nf k r1) as [[ws2 r2]|]; reflexivity.
Qed.

End ExtendFacts.

(** X14. Asking for more does not change what was there: a generator with
    [n_channels + k] channels has, as its first weights, the weights of the
    generator with [n_channels] channels (same [lat_dim], [n_feats] and
    seed), and a dataset of [n_samples + k] samples has, as the first rows
    of [z], the latent samples of the dataset of [n_samples] samples (same
    [lat_dim] and [train]). *)
Theorem more_channels_and_samples_extend `{B : Backend}
    (lat_dim n_feats n_channels n_samples k : nat) :
  (forall seed r1 r2 g1 g2 r1' r2',
     GeneratorUniform_init lat_dim n_channels n_feats seed r1 = Ok (g1, r1') ->
     GeneratorUniform_init lat_dim (n_channels + k) n_feats seed r2 = Ok (g2, r2') ->
     exists extra, gen_W g2 = gen_W g1 ++ extra) /\
  (forall nc1 nc2 nf1 nf2 snr1 snr2 train r1 r2 ds1 ds2 r1' r2',
     SyntheticDataset_init n_samples lat_dim nf1 nc1 snr1 train r1 = Ok (ds1, r1') ->
     SyntheticDataset_init (n_samples + k) lat_dim nf2 nc2 snr2 train r2 = Ok (ds2, r2') ->
     exists more, data (ds_z ds2) = data (ds_z ds1) ++ more).
Proof.
  split.
  - intros seed r1 r2 g1 g2 r1' r2'.
    unfold GeneratorUniform_init, np_bind at 1 3.
    unfold np_random_seed.
    destruct ((0 <=? seed) && (seed <? 2 ^ 32)); [|discriminate].
    unfold np_bind. rewrite init_weights_app.
    destruct (init_weights lat_dim n_feats n_channels (np_seed seed))
      as [[ws1 rA]|]; [|discriminate].
    destruct (init_weights lat_dim n_feats k rA) as [[ws2 rB]|]; [|discriminate].
    unfold np_ret. intros [= <- _] [= <- _]. simpl. eauto.
  - intros nc1 nc2 nf1 nf2 snr1 snr2 train r1 r2 ds1 ds2 r1' r2' H1 H2.
    destruct (SyntheticDataset_init_inv _ _ _ _ _ _ _ _ _ H1)
      as (? & ? & ? & ? & ? & ? & _ & _ & _ & ->).
    destruct (SyntheticDataset_init_inv _ _ _ _ _ _ _ _ _ H2)
      as (? & ? & ? & ? & ? & ? & _ & _ & _ & ->).
    cbn [ds_z data].
    replace (numel [(n_samples + k)%nat; lat_dim])
      with (numel [n_samples; lat_dim] + numel [k; lat_dim])%nat
      by (unfold numel; simpl; lia).
    rewrite draws_app. cbn [fst]. eauto.
Qed.

(** Generators of two and of three channels on the small backend. *)
Lemma more_channels_and_samples_extend_witness :
  exists g1 g2 r1' r2' extra,
    @GeneratorUniform_init toy_backend 2 2 4 100 0 = Ok (g1, r1') /\
    @GeneratorUniform_init toy_backend 2 3 4 100 5 = Ok (g2, r2') /\
    gen_W g2 = gen_W g1 ++ extra.
Proof.
  destruct (GeneratorUniform_init_ok (B := toy_backend) 2 2 4 100 0 toy_svd_shapes)
    as (g1 & r1' & H1); [lia|].
  destruct (GeneratorUniform_init_ok (B := toy_backend) 2 (2 + 1) 4 100 5 toy_svd_shapes)
    as (g2 & r2' & H2); [lia|].
  destruct (proj1 (more_channels_and_samples_extend (B := toy_backend) 2 4 2 0 1)
              100 0 5 g1 g2 r1' r2' H1 H2) as [extra He].
  exists g1, g2, r1', r2', extra. auto.
Defined.

(** ** When [forward] returns *)

Section ForwardOutcome.
Context {B : Backend}.

(** The shape of a tensor that has a dimension 1 ends with some dimension. *)
Lemma shape_last (sh : list nat) d :
  sh !! 1%nat = Some d -> exists lead e, sh = lead ++ [e] /\ last sh = Some e.
Proof.
  intros Hd. destruct (last sh) as [e|] eqn:Hl.
  - destruct (proj1 (last_Some _ _) Hl) as [lead ->]. exists lead, e.
    split; reflexivity.
  - apply last_None in Hl. subst sh. discriminate.
Qed.

(** The outcome of [forward] on a tensor, for a generator that [__init__]
    built. *)
Lemma forward_tensor_outcome g dt z :
  wf_generator g ->
  forward_tensor g dt z =
  match shape z !! 1%nat with
  | None => Raise IndexError
  | Some d =>
      if (d =? gen_lat_dim g)%nat then
        if (gen_n_channels g =? 0)%nat then Ok []
        else match dt with
             | Float32 =>
                 if bool_decide (last (shape z) = Some (gen_lat_dim g))
                 then forward_channels g Float32 z
                 else Raise RuntimeError
             | _ => Raise RuntimeError
             end
      else Raise AssertionError
  end.
Proof.
  intros Hg. unfold forward_tensor, size, index.
  destruct (shape z !! 1%nat) as [d|] eqn:Hd; [|reflexivity]. cbn [Py.bind].
  destruct (d =? gen_lat_dim g)%nat; [|reflexivity].
  destruct (Nat.eqb_spec (gen_n_channels g) 0) as [Hn|Hn].
  { unfold forward_channels. now rewrite Hn. }
  destruct (shape_last _ _ Hd) as (lead & e & Hsh & Hl).
  assert (Hdt : forall dt', dt' <> Float32 -> forward_channels g dt' z = Raise RuntimeError)
    by (intros dt' Hne; now apply forward_channels_dtype).
  destruct dt; try (apply Hdt; discriminate).
  rewrite Hl. destruct (bool_decide_reflect (Some e = Some (gen_lat_dim g))) as [He|He].
  - reflexivity.
  - eapply forward_channels_mismatch; [exact Hg|exact Hsh| |exact Hn]. congruence.
Qed.

End ForwardOutcome.

(** C9 (amended). [forward] on a tensor [z], for a generator that
    [__init__] built with at least one channel: the call returns exactly
    when [z.size(1)] is [lat_dim], [z] is float32 and the last dimension of
    [z] is [lat_dim], and what it returns is a list of [n_channels]
    outputs; in particular it returns for every two-dimensional float32
    tensor with [z.size(1) == lat_dim]. A tensor with [z.size(1)] other
    than [lat_dim] fails at the assertion, and a tensor that passes the
    assertion without being float32, or with another last dimension, is
    refused by the linear map ([RuntimeError]). *)
Theorem forward_returns_iff_float32_rows `{B : Backend}
    (lat_dim n_channels n_feats : nat) (seed : Z) (r r' : rng) (g : GeneratorUniform) :
  svd_shapes B -> n_channels <> 0%nat ->
  GeneratorUniform_init lat_dim n_channels n_feats seed r = Ok (g, r') ->
  (forall dt z,
     is_ok (forward g (InTensor dt z)) = true <->
     size z 1 = Ok lat_dim /\ dt = Float32 /\ last (shape z) = Some lat_dim) /\
  (forall dt z out,
     forward g (InTensor dt z) = Ok out ->
     exists obs, out = OutObs obs /\ length obs = n_channels) /\
  (forall n z, shape z = [n; lat_dim] ->
     exists obs, forward g (InTensor Float32 z) = Ok (OutObs obs) /\
                 length obs = n_channels /\
                 forall x, x ∈ obs -> shape x = [n; n_feats]) /\
  (forall dt z d, size z 1 = Ok d -> d <> lat_dim ->
     forward g (InTensor dt z) = Raise AssertionError) /\
  (forall dt z, size z 1 = Ok lat_dim ->
     dt <> Float32 \/ last (shape z) <> Some lat_dim ->
     forward g (InTensor dt z) = Raise RuntimeError).
Proof.
  intros Hsvd Hnc Hinit.
  destruct (GeneratorUniform_init_inv _ _ _ _ _ _ _ Hsvd Hinit)
    as (Hlat & Hgnc & Hnf & Hg).
  assert (Hout : forall dt z,
            forward g (InTensor dt z) =
            (obs <- match shape z !! 1%nat with
                    | None => Raise IndexError
                    | Some d =>
                        if (d =? lat_dim)%nat then
                          match dt with
                          | Float32 =>
                              if bool_decide (last (shape z) = Some lat_dim)
                              then forward_channels g Float32 z
                              else Raise RuntimeError
                          | _ => Raise RuntimeError
                          end
                        else Raise AssertionError
                    end ;; Ok (OutObs obs))).
  { intros dt z. rewrite forward_InTensor, (forward_tensor_outcome g dt z Hg).
    rewrite Hlat, Hgnc.
    destruct (Nat.eqb_spec n_channels 0); [contradiction|reflexivity]. }
  assert (Hok : forall z, shape z !! 1%nat = Some lat_dim ->
                  last (shape z) = Some lat_dim ->
                  exists obs, forward_channels g Float32 z = Ok obs /\
                              length obs = n_channels /\
                              forall lead, shape z = lead ++ [lat_dim] ->
                                forall x, x ∈ obs -> shape x = lead ++ [n_feats]).
  { intros z Hd Hl. apply last_Some in Hl as [lead Hsh].
    destruct (forward_channels_ok g z lead Hg) as (obs & Hobs & Hlen & Hall);
      [now rewrite Hlat|].
    exists obs. split; [exact Hobs|]. split; [now rewrite <- Hgnc|].
    intros lead' Hsh' x Hx. rewrite Hsh in Hsh'.
    apply app_inj_tail in Hsh' as [<- _]. rewrite <- Hnf. now apply Hall. }
  split; [|split; [|split; [|split]]].
  - intros dt z. rewrite Hout. unfold size, index.
    destruct (shape z !! 1%nat) as [d|] eqn:Hd;
      [|split; [discriminate|intros [? _]; discriminate]].
    destruct (Nat.eqb_spec d lat_dim) as [->|Hne];
      [|split; [discriminate|intros [[= ?] _]; contradiction]].
    destruct dt; try (split; [discriminate|intros (_ & ? & _); discriminate]).
    destruct (bool_decide_reflect (last (shape z) = Some lat_dim)) as [Hl|Hl];
      [|split; [discriminate|intros (_ & _ & ?); contradiction]].
    destruct (Hok z Hd Hl) as (obs & -> & _). split; auto.
  - intros dt z out. rewrite Hout.
    destruct (shape z !! 1%nat) as [d|] eqn:Hd; [|discriminate].
    destruct (Nat.eqb_spec d lat_dim) as [->|Hne]; [|discriminate].
    destruct dt; try discriminate.
    destruct (bool_decide_reflect (last (shape z) = Some lat_dim)) as [Hl|Hl];
      [|discriminate].
    destruct (Hok z Hd Hl) as (obs & -> & Hlen & _). cbn [Py.bind].
    intros [= <-]. eauto.
  - intros n z Hsh. rewrite Hout, Hsh. cbn [lookup list_lookup].
    rewrite Nat.eqb_refl.
    change (last [n; lat_dim]) with (Some lat_dim).
    rewrite bool_decide_eq_true_2 by reflexivity.
    destruct (Hok z) as (obs & -> & Hlen & Hall); [now rewrite Hsh..|].
    exists obs. split; [reflexivity|]. split; [exact Hlen|].
    apply (Hall [n]). exact Hsh.
  - intros dt z d Hd Hne. rewrite Hout. unfold size, index in Hd.
    destruct (shape z !! 1%nat) as [d'|]; [|discriminate]. injection Hd as ->.
    destruct (Nat.eqb_spec d lat_dim); [contradiction|reflexivity].
  - intros dt z Hd Hbad. rewrite Hout. unfold size, index in Hd.
    destruct (shape z !! 1%nat) as [d'|]; [|discriminate]. injection Hd as ->.
    rewrite Nat.eqb_refl.
    destruct dt; try reflexivity.
    destruct Hbad as [Hbad|Hbad]; [contradiction|].
    now rewrite bool_decide_eq_false_2.
Qed.

(** The generator of the script on the small backend, a float32 tensor of
    five rows of two latent values. *)
Lemma forward_returns_iff_float32_rows_witness :
  let z := {| shape := [5%nat; 2%nat]; data := repeat zero 10 |} in
  exists g r' obs,
    @GeneratorUniform_init toy_backend 2 3 4 100 0 = Ok (g, r') /\
    @forward toy_backend g (InTensor Float32 z) = Ok (OutObs obs) /\
    length obs = 3%nat /\
    forall x, x ∈ obs -> shape x = [5%nat; 4%nat].
Proof.
  intros z.
  destruct (GeneratorUniform_init_ok (B := toy_backend) 2 3 4 100 0 toy_svd_shapes)
    as (g & r' & Hg); [lia|].
  assert (H3 : 3%nat <> 0%nat) by discriminate.
  pose proof (forward_returns_iff_float32_rows (B := toy_backend) 2 3 4 100 0 r' g
                toy_svd_shapes H3 Hg) as (_ & _ & H & _).
  destruct (H 5%nat z eq_refl) as (obs & Hobs & Hlen & Hall).
  exists g, r', obs. auto.
Defined.

(** C9 as worded fails: for the generator of the script (two latent
    dimensions) a float32 tensor of shape (1, 2, 3) has [z.size(1) == 2]
    and passes the assertion, yet no list of outputs is returned: the
    linear map raises [RuntimeError]. So does a float64 tensor of shape
    (5, 2). *)
Lemma tensor_passing_assertion_is_refused :
  let z3 := {| shape := [1%nat; 2%nat; 3%nat]; data := repeat zero 6 |} in
  let z64 := {| shape := [5%nat; 2%nat]; data := repeat zero 10 |} in
  exists g r',
    @GeneratorUniform_init toy_backend 2 3 4 100 0 = Ok (g, r') /\
    size z3 1 = Ok (gen_lat_dim g) /\
    @forward toy_backend g (InTensor Float32 z3) = Raise RuntimeError /\
    size z64 1 = Ok (gen_lat_dim g) /\
    @forward toy_backend g (InTensor Float64 z64) = Raise RuntimeError /\
    ~ @forward_as_claimed toy_backend g.
Proof.
  intros z3 z64.
  destruct (GeneratorUniform_init_ok (B := toy_backend) 2 3 4 100 0 toy_svd_shapes)
    as (g & r' & Hg); [lia|].
  destruct (GeneratorUniform_init_inv _ _ _ _ _ _ _ toy_svd_shapes Hg)
    as (Hlat & Hgnc & Hnf & Hwf).
  assert (H3 : @forward toy_backend g (InTensor Float32 z3) = Raise RuntimeError).
  { rewrite forward_InTensor, (forward_tensor_outcome g Float32 z3 Hwf).
    rewrite Hlat, Hgnc. reflexivity. }
  assert (H64 : @forward toy_backend g (InTensor Float64 z64) = Raise RuntimeError).
  { rewrite forward_InTensor, (forward_tensor_outcome g Float64 z64 Hwf).
    rewrite Hlat, Hgnc. reflexivity. }
  exists g, r'. rewrite Hlat.
  split; [exact Hg|]. split; [reflexivity|]. split; [exact H3|].
  split; [reflexivity|]. split; [exact H64|].
  intros Hclaim. destruct (Hclaim Float32 z3) as (obs & Hobs & _).
  - now rewrite Hlat.
  - rewrite H3 in Hobs. discriminate.
Qed.

(** ** Reproducible constructions *)

(** C3. Both constructors seed numpy's global generator before they draw:
    whatever state the generator is in, two constructions of
    [GeneratorUniform] with the same arguments give the same outcome, the
    same weights and the same outputs for every input, and two
    constructions of [SyntheticDataset] with the same arguments give the
    same dataset: the same latent samples [z], channel projections [x],
    [X] and [X_noisy]. *)
Theorem seeded_constructions_are_reproducible `{B : Backend} :
  (forall lat_dim n_channels n_feats seed r1 r2,
     GeneratorUniform_init lat_dim n_channels n_feats seed r1 =
     GeneratorUniform_init lat_dim n_channels n_feats seed r2) /\
  (forall lat_dim n_channels n_feats seed r1 r2 g1 g2 r1' r2',
     GeneratorUniform_init lat_dim n_channels n_feats seed r1 = Ok (g1, r1') ->
     GeneratorUniform_init lat_dim n_channels n_feats seed r2 = Ok (g2, r2') ->
     gen_W g1 = gen_W g2 /\ forall z, forward g1 z = forward g2 z) /\
  (forall n_samples lat_dim n_feats n_channels snr train r1 r2,
     SyntheticDataset_init n_samples lat_dim n_feats n_channels snr train r1 =
     SyntheticDataset_init n_samples lat_dim n_feats n_channels snr train r2) /\
  (forall n_samples lat_dim n_feats n_channels snr train r1 r2 ds1 ds2 r1' r2',
     SyntheticDataset_init n_samples lat_dim n_feats n_channels snr train r1 = Ok (ds1, r1') ->
     SyntheticDataset_init n_samples lat_dim n_feats n_channels snr train r2 = Ok (ds2, r2') ->
     ds_z ds1 = ds_z ds2 /\ ds_x ds1 = ds_x ds2 /\
     ds_X ds1 = ds_X ds2 /\ ds_X_noisy ds1 = ds_X_noisy ds2).
Proof.
  assert (Hds : forall n d nf nc snr train r1 r2,
            SyntheticDataset_init n d nf nc snr train r1 =
            SyntheticDataset_init n d nf nc snr train r2).
  { intros. unfold SyntheticDataset_init. apply seeded_forgets. }
  split; [|split; [|split]].
  - intros. apply GeneratorUniform_init_forgets.
  - intros lat_dim n_channels n_feats seed r1 r2 g1 g2 r1' r2' H1 H2.
    rewrite (GeneratorUniform_init_forgets _ _ _ _ r2 r1), H1 in H2.
    injection H2 as <- <-. auto.
  - exact Hds.
  - intros n d nf nc snr train r1 r2 ds1 ds2 r1' r2' H1 H2.
    rewrite (Hds _ _ _ _ _ _ r2 r1), H1 in H2. injection H2 as <- <-. auto.
Qed.

(** ** The dataset of the script *)

(** C4. The dataset of the script: 500 samples, 2 latent dimensions, 4
    features, 3 channels. With the shapes numpy documents for the SVD, and
    the observations of the generator free of infinite values, the
    construction with the script's [snr = 10] returns; and whatever [snr]
    is, a dataset that is built holds in [X] three arrays, each of 500 rows
    and 4 columns. *)
Theorem script_dataset_has_three_arrays_of_500_by_4 `{B : Backend}
    (snr : snr_arg) (train : bool) (r : rng) :
  svd_shapes B ->
  (forall x rx, SyntheticDataset_x 500 2 4 3 train r = Ok (x, rx) ->
                existsb has_inf x = false) ->
  (exists ds r',
     SyntheticDataset_init 500 2 4 3 (SnrScalar (PyInt 10)) train r = Ok (ds, r')) /\
  (forall ds r',
     SyntheticDataset_init 500 2 4 3 snr train r = Ok (ds, r') ->
     length (ds_X ds) = 3%nat /\
     forall c, (c < 3)%nat ->
       exists a, ds_X ds !! c = Some a /\ shape a = [500%nat; 4%nat] /\ wf_array a).
Proof.
  intros Hsvd Hfin. split.
  - assert (Hq : one_over (PyInt 10) = Ok (F64.div one (of_Z 10)))
      by (vm_compute; reflexivity).
    destruct (SyntheticDataset_init_outcome 500 2 4 3 (PyInt 10) 11 _ train r
                Hsvd eq_refl Hq) as (x & rx & Hx & Hout);
      [discriminate..| |].
    { split; [discriminate|reflexivity]. }
    rewrite (Hfin x rx Hx) in Hout. destruct Hout as (ds & r' & Hds & _). eauto.
  - intros ds r' Hinit.
    destruct (dataset_channels _ _ _ _ _ _ _ _ _ Hsvd Hinit)
      as (_ & _ & HlenX & _ & Hall).
    split; [exact HlenX|]. intros c Hc.
    destruct (lookup_lt_is_Some_2 (ds_X ds) c) as [a Ha]; [lia|].
    exists a. split; [exact Ha|]. apply Hall. right. left.
    apply list_elem_of_lookup. eauto.
Qed.

(** The training dataset of the script on the small backend. *)
Lemma script_dataset_has_three_arrays_of_500_by_4_witness :
  exists ds r' a0 a1 a2,
    @SyntheticDataset_init toy_backend 500 2 4 3 (SnrScalar (PyInt 10)) true 0
      = Ok (ds, r') /\
    ds_X ds = [a0; a1; a2] /\
    shape a0 = [500%nat; 4%nat] /\ shape a1 = [500%nat; 4%nat] /\
    shape a2 = [500%nat; 4%nat].
Proof.
  assert (Hfin : forall x rx,
            @SyntheticDataset_x toy_backend 500 2 4 3 true 0 = Ok (x, rx) ->
            existsb has_inf x = false).
  { intros x rx Hx.
    assert (Hc : rmap (fun p => existsb has_inf (fst p))
                   (@SyntheticDataset_x toy_backend 500 2 4 3 true 0) = Ok false)
      by (vm_compute; reflexivity).
    rewrite Hx in Hc. now injection Hc. }
  destruct (script_dataset_has_three_arrays_of_500_by_4 (B := toy_backend)
              (SnrScalar (PyInt 10)) true 0 toy_svd_shapes Hfin)
    as [(ds & r' & Hds) Hshape].
  destruct (Hshape ds r' Hds) as [Hlen Hall].
  destruct (Hall 0%nat) as (a0 & Ha0 & H0 & _); [lia|].
  destruct (Hall 1%nat) as (a1 & Ha1 & H1 & _); [lia|].
  destruct (Hall 2%nat) as (a2 & Ha2 & H2 & _); [lia|].
  exists ds, r', a0, a1, a2. split; [exact Hds|].
  split; [|split; [exact H0|split; [exact H1|exact H2]]].
  clear Hds Hshape Hall H0 H1 H2.
  destruct (ds_X ds) as [|b0 [|b1 [|b2 [|? ?]]]]; try discriminate Hlen.
  injection Ha0 as ->. injection Ha1 as ->. injection Ha2 as ->. reflexivity.
Defined.

(** ** The seed of the noise *)

Section NoiseSeedFacts.
Context {B : Backend}.

Lemma added_noise_inv x snr seed r noise r' :
  added_noise x snr seed r = Ok (noise, r') ->
  exists x_std out, preprocess x snr seed r = Ok ((x_std, out), r') /\
                    noise = map fst out.
Proof.
  unfold added_noise, np_bind.
  destruct (preprocess x snr seed r) as [[[x_std out] r0]|]; [|discriminate].
  unfold np_ret. intros [= <- <-]. eauto.
Qed.

Lemma noise_seed_inv x snr seed s :
  noise_seed x snr seed = Ok s ->
  exists snr0 k x0 rows cols,
    snr !! 0%nat = Some snr0 /\ int (add_one snr0) = Ok k /\
    x !! 0%nat = Some x0 /\ shape x0 !! 0%nat = Some rows /\
    shape x0 !! 1%nat = Some cols /\
    s = seed + 3 * k + 5 * Z.of_nat (length x) + 7 * Z.of_nat rows + 11 * Z.of_nat cols.
Proof.
  unfold noise_seed, size, index.
  destruct (snr !! 0%nat) as [snr0|] eqn:H0; [|discriminate]. cbn [Py.bind].
  destruct (int (add_one snr0)) as [k|] eqn:Hk; [|discriminate]. cbn [Py.bind].
  destruct (x !! 0%nat) as [x0|] eqn:Hx; [|discriminate]. cbn [Py.bind].
  destruct (shape x0 !! 0%nat) as [rows|] eqn:Hr; [|discriminate]. cbn [Py.bind].
  destruct (shape x0 !! 1%nat) as [cols|] eqn:Hc; [|discriminate]. cbn [Py.bind].
  intros [= <-]. exists snr0, k, x0, rows, cols. auto 10.
Qed.

End NoiseSeedFacts.

(** C5. The seed of the noise is
    [seed + 3*int(snr[0]+1) + 5*len(x) + 7*x[0].shape[0] + 11*x[0].shape[1]],
    a function of the [seed] argument, of [snr] and of the shapes of the
    channels, and the noise is the stream of normal draws that follows
    seeding with it: two calls with the same [seed] and [snr] and channels
    of the same shapes that add noise add the same arrays, and leave the
    global generator in the same state, whatever its state before. *)
Theorem noise_seed_is_a_function_of_snr_and_shapes `{B : Backend}
    (x1 x2 : list ndarray) (snr : snr_arg) (seed : Z) (r1 r2 r1' r2' : rng)
    (noise1 noise2 : list ndarray) :
  map shape x1 = map shape x2 ->
  added_noise x1 snr seed r1 = Ok (noise1, r1') ->
  added_noise x2 snr seed r2 = Ok (noise2, r2') ->
  noise1 = noise2 /\ r1' = r2' /\
  exists snr0 k x0 rows cols s,
    snr_list snr (length x1) !! 0%nat = Some snr0 /\ int (add_one snr0) = Ok k /\
    x1 !! 0%nat = Some x0 /\ shape x0 !! 0%nat = Some rows /\
    shape x0 !! 1%nat = Some cols /\
    s = seed + 3 * k + 5 * Z.of_nat (length x1) + 7 * Z.of_nat rows + 11 * Z.of_nat cols /\
    0 <= s < 2 ^ 32 /\
    noise_seed x1 (snr_list snr (length x1)) seed = Ok s /\
    noise_seed x2 (snr_list snr (length x2)) seed = Ok s /\
    exists sigmas es,
      noise1 = map2 scale_array sigmas es /\ map shape es = map shape x1 /\
      (concat (map data es), r1') =
      draws draw_normal (sum_list (map (fun a => numel (shape a)) x1)) (np_seed s).
Proof.
  intros Hsh H1 H2.
  destruct (added_noise_inv _ _ _ _ _ _ H1) as (std1 & out1 & Hp1 & ->).
  destruct (added_noise_inv _ _ _ _ _ _ H2) as (std2 & out2 & Hp2 & Hn2).
  destruct (preprocess_inv _ _ _ _ _ _ _ Hp1) as (Hstd1 & _).
  destruct (preprocess_inv _ _ _ _ _ _ _ Hp2) as (Hstd2 & _).
  pose proof (standardize_finite _ _ Hstd1) as Hfin1.
  pose proof (standardize_finite _ _ Hstd2) as Hfin2.
  assert (Heq : Ok (map fst out1, r1') = Ok (noise2, r2')).
  { rewrite <- H1, <- H2, !added_noise_shapes by assumption. rewrite Hsh.
    apply added_noise_forgets. }
  injection Heq as <- <-.
  split; [reflexivity|]. split; [reflexivity|].
  destruct (preprocess_noise_loop _ _ _ _ _ _ _ Hp1) as (s & Hseed & Hrange & Hloop).
  destruct (noise_seed_inv _ _ _ _ Hseed) as (snr0 & k & x0 & rows & cols & Hinv).
  destruct Hinv as (Ha & Hb & Hc & Hd & He & Hs).
  exists snr0, k, x0, rows, cols, s.
  do 6 (split; [assumption|]). split; [exact Hrange|]. split; [exact Hseed|].
  split.
  { rewrite noise_seed_shapes, <- Hsh, <- noise_seed_shapes.
    replace (length x2) with (length x1); [exact Hseed|].
    rewrite <- (length_map shape x1), Hsh. apply length_map. }
  destruct (noise_loop_stream _ _ _ _ _ _ Hloop)
    as (sigmas & es & Hfst & _ & Hshe & _ & Hdraw).
  exists sigmas, es. split; [exact Hfst|].
  pose proof (standardize_map_shape _ _ Hstd1) as Hshape.
  split; [now rewrite Hshe|].
  rewrite Hdraw. f_equal. f_equal.
  rewrite <- (map_map shape numel), <- (map_map shape numel x1). now rewrite Hshape.
Qed.

(** Two inputs of two channels with different contents, from different
    states of the global generator, on the small backend: the seed is
    [0 + 3*11 + 5*2 + 7*2 + 11*2 = 79]. *)
Lemma noise_seed_is_a_function_of_snr_and_shapes_witness :
  let x1 := [{| shape := [2%nat; 2%nat]; data := map of_Z [1; 2; 3; 4] |};
             {| shape := [1%nat; 3%nat]; data := map of_Z [0; 1; 0] |}] in
  let x2 := [{| shape := [2%nat; 2%nat]; data := map of_Z [5; 6; 7; 9] |};
             {| shape := [1%nat; 3%nat]; data := map of_Z [8; 8; 8] |}] in
  exists noise r',
    @added_noise toy_backend x1 (SnrScalar (PyInt 10)) 0 0 = Ok (noise, r') /\
    @added_noise toy_backend x2 (SnrScalar (PyInt 10)) 0 42 = Ok (noise, r') /\
    @noise_seed x1 (snr_list (SnrScalar (PyInt 10)) 2) 0 = Ok 79.
Proof.
  intros x1 x2.
  destruct (is_ok_inv (@added_noise toy_backend x1 (SnrScalar (PyInt 10)) 0 0))
    as [[noise1 r1'] H1]; [vm_compute; reflexivity|].
  destruct (is_ok_inv (@added_noise toy_backend x2 (SnrScalar (PyInt 10)) 0 42))
    as [[noise2 r2'] H2]; [vm_compute; reflexivity|].
  destruct (noise_seed_is_a_function_of_snr_and_shapes (B := toy_backend)
              x1 x2 (SnrScalar (PyInt 10)) 0 0 42 r1' r2' noise1 noise2 eq_refl H1 H2)
    as (<- & <- & _).
  exists noise1, r1'. split; [exact H1|]. split; [exact H2|]. reflexivity.
Defined.

(** ** The noise of the two datasets *)

(** C10. The seed of the noise does not depend on [train]: for a training
    and a validation dataset built with the same sizes and [snr], the seed
    [3*int(snr[0]+1) + 5*n_channels + 7*n_samples + 11*n_feats] is the
    same, and so are the noise arrays added to the standardized channels
    and the generator [GeneratorUniform]; the latent samples are drawn
    after seeding with 7 for the one and with 14 for the other. *)
Theorem noise_does_not_depend_on_train `{B : Backend}
    (n_samples lat_dim n_feats n_channels : nat) (snr : snr_arg) (r1 r2 r1' r2' : rng)
    (ds_t ds_v : SyntheticDataset) :
  SyntheticDataset_init n_samples lat_dim n_feats n_channels snr true r1 = Ok (ds_t, r1') ->
  SyntheticDataset_init n_samples lat_dim n_feats n_channels snr false r2 = Ok (ds_v, r2') ->
  (exists s,
     noise_seed (ds_x ds_t) (snr_list snr (length (ds_x ds_t))) 0 = Ok s /\
     noise_seed (ds_x ds_v) (snr_list snr (length (ds_x ds_v))) 0 = Ok s) /\
  (exists noise std_t std_v,
     standardize (ds_x ds_t) = Ok std_t /\ standardize (ds_x ds_v) = Ok std_v /\
     length noise = length std_t /\ length noise = length std_v /\
     ds_X_noisy ds_t = map2 add_arrays std_t noise /\
     ds_X_noisy ds_v = map2 add_arrays std_v noise /\
     SyntheticDataset_noise n_samples lat_dim n_feats n_channels snr true r1
       = Ok (noise, r1') /\
     SyntheticDataset_noise n_samples lat_dim n_feats n_channels snr false r2
       = Ok (noise, r2')) /\
  ds_generator ds_t = ds_generator ds_v /\
  ds_z ds_t = {| shape := [n_samples; lat_dim];
                 data := fst (draws draw_normal (numel [n_samples; lat_dim]) (np_seed 7)) |} /\
  ds_z ds_v = {| shape := [n_samples; lat_dim];
                 data := fst (draws draw_normal (numel [n_samples; lat_dim]) (np_seed 14)) |}.
Proof.
  intros Ht Hv.
  destruct (SyntheticDataset_noise_of_init _ _ _ _ _ _ _ _ _ r1 Ht)
    as (g & rg & shs & std_t & noise & Hg & Hshs & Hxt & Hgt & Hn & Hnt & Hst & Hlt
        & _ & HNt).
  destruct (SyntheticDataset_noise_of_init _ _ _ _ _ _ _ _ _ r1 Hv)
    as (g' & rg' & shs' & std_v & noise' & Hg' & Hshs' & Hxv & Hgv & Hn' & Hnv & Hsv & Hlv
        & _ & HNv).
  rewrite Hg in Hg'. injection Hg' as <- <-.
  rewrite Hshs in Hshs'. injection Hshs' as <-.
  rewrite Hn in Hn'. injection Hn' as <- <-.
  destruct (SyntheticDataset_init_inv _ _ _ _ _ _ _ _ _ Ht)
    as (? & ? & ? & xt & ? & ? & _ & _ & Hpt & Hdt).
  destruct (SyntheticDataset_init_inv _ _ _ _ _ _ _ _ _ Hv)
    as (? & ? & ? & xv & ? & ? & _ & _ & Hpv & Hdv).
  split; [|split; [|split; [|split]]].
  - assert (Hx : ds_x ds_t = xt) by now rewrite Hdt.
    destruct (preprocess_noise_loop _ _ _ _ _ _ _ Hpt) as (s & Hseed & _).
    rewrite <- Hx in Hseed. exists s. split; [exact Hseed|].
    rewrite noise_seed_shapes, Hxv, <- Hxt, <- noise_seed_shapes.
    replace (length (ds_x ds_v)) with (length (ds_x ds_t)); [exact Hseed|].
    rewrite <- (length_map shape (ds_x ds_t)), Hxt, <- Hxv. apply length_map.
  - exists noise, std_t, std_v. auto 10.
  - now rewrite Hgt, Hgv.
  - now rewrite Hdt.
  - now rewrite Hdv.
Qed.

(** The training and the validation dataset of five samples on the small
    backend, built from different states of the global generator: the seed
    of the noise is [3*11 + 5*3 + 7*5 + 11*4 = 127] for both. *)
Lemma noise_does_not_depend_on_train_witness :
  exists ds_t ds_v r1' r2',
    @SyntheticDataset_init toy_backend 5 2 4 3 (SnrScalar (PyInt 10)) true 0
      = Ok (ds_t, r1') /\
    @SyntheticDataset_init toy_backend 5 2 4 3 (SnrScalar (PyInt 10)) false 9
      = Ok (ds_v, r2') /\
    noise_seed (ds_x ds_t) (snr_list (SnrScalar (PyInt 10)) (length (ds_x ds_t))) 0
      = Ok 127 /\
    noise_seed (ds_x ds_v) (snr_list (SnrScalar (PyInt 10)) (length (ds_x ds_v))) 0
      = Ok 127 /\
    ds_z ds_t <> ds_z ds_v.
Proof.
  destruct (is_ok_inv (@SyntheticDataset_init toy_backend 5 2 4 3
                         (SnrScalar (PyInt 10)) true 0))
    as [[ds_t r1'] Ht]; [vm_compute; reflexivity|].
  destruct (is_ok_inv (@SyntheticDataset_init toy_backend 5 2 4 3
                         (SnrScalar (PyInt 10)) false 9))
    as [[ds_v r2'] Hv]; [vm_compute; reflexivity|].
  destruct (noise_does_not_depend_on_train (B := toy_backend) 5 2 4 3
              (SnrScalar (PyInt 10)) 0 9 r1' r2' ds_t ds_v Ht Hv)
    as ((s & Hs1 & Hs2) & _ & _ & Hzt & Hzv).
  assert (H127 : s = 127).
  { assert (Hc : rmap (fun p => noise_seed (ds_x (fst p))
                                  (snr_list (SnrScalar (PyInt 10)) (length (ds_x (fst p)))) 0)
                   (@SyntheticDataset_init toy_backend 5 2 4 3
                      (SnrScalar (PyInt 10)) true 0) = Ok (Ok 127))
      by (vm_compute; reflexivity).
    rewrite Ht in Hc.
    change (Ok (noise_seed (ds_x ds_t)
                  (snr_list (SnrScalar (PyInt 10)) (length (ds_x ds_t))) 0)
            = Ok (Ok 127)) in Hc.
    rewrite Hs1 in Hc. now injection Hc. }
  subst s. exists ds_t, ds_v, r1', r2'.
  split; [exact Ht|]. split; [exact Hv|]. split; [exact Hs1|]. split; [exact Hs2|].
  rewrite Hzt, Hzv. intros Heq.
  apply (f_equal (fun a => nth 0 (data a) zero)) in Heq.
  vm_compute in Heq. discriminate Heq.
Defined.

(** ** The guard of the script *)

(** C7. When [CI_MODE] is a key of the environment, whatever its value, the
    run ends with [SystemExit] at the guard and none of the statements after
    it is entered: no import, no dataset, no model, no training. When it is
    not, the run goes on with the statements after the guard, the first of
    which is entered; it passes them all when none raises. *)
Theorem ci_mode_guard (env : Script.environ) (raises : Script.step -> option exn) :
  (is_Some (env !! "CI_MODE"%string) ->
   Script.main env raises = ([], Script.SystemExit)) /\
  (forall value,
     Script.main (<["CI_MODE"%string := value]> env) raises = ([], Script.SystemExit)) /\
  (env !! "CI_MODE"%string = None ->
   Script.main env raises = Script.run_steps raises Script.after_guard /\
   (exists entered e, Script.main env raises = (Script.Imports :: entered, e)) /\
   ((forall s, raises s = None) ->
    Script.main env raises = (Script.after_guard, Script.Completed))).
Proof.
  unfold Script.main. split; [|split].
  - intros H. now rewrite bool_decide_eq_true_2.
  - intros value. rewrite bool_decide_eq_true_2; [reflexivity|].
    exists value. apply lookup_insert_eq.
  - intros H. rewrite bool_decide_eq_false_2 by (rewrite H; apply is_Some_None).
    split; [reflexivity|]. split.
    + unfold Script.after_guard.
      change (Script.run_steps raises (Script.Imports :: ?rest))
        with (match raises Script.Imports with
              | Some e => ([Script.Imports], Script.Uncaught e)
              | None => let '(entered, e) := Script.run_steps raises rest in
                        (Script.Imports :: entered, e)
              end).
      destruct (raises Script.Imports); [eauto|].
      match goal with |- context [Script.run_steps raises ?rest] =>
        destruct (Script.run_steps raises rest) as [entered e] end.
      eauto.
    + intros Hnone. unfold Script.after_guard. cbn [Script.run_steps].
      now rewrite !Hnone.
Qed.
